(** * Exercise validation and code-execution contract

    A shallow embedding of the client side of the tutorial platform
    (the API client of [services/api.ts], the authentication and progress
    contexts, the [CodeEditor] component, [ExerciseDisplay],
    [ExerciseHints] and [ExerciseProgress]) together with a model of the
    execution service the client talks to.  The service itself is not part
    of the frontend sources; its model is written from the specification
    and marked as such. *)

From Stdlib Require Import ZArith QArith Qround Ascii String Lia.
From stdpp Require Import gmap strings list pretty.
Close Scope Q_scope.
Open Scope Z_scope.
Set Warnings "-register-all".

(** ** JavaScript values and helpers *)

Module Js.

(** What a [catch (error)] clause can receive.  The components only ask
    [error instanceof Error] and read [error.message]; axios errors are
    instances of [Error]. *)
Inductive Thrown : Type :=
| ThrownError (message : string)
| ThrownOther.

(** [error instanceof Error ? error.message : fallback] *)
Definition message_or (fallback : string) (error : Thrown) : string :=
  match error with
  | ThrownError message => message
  | ThrownOther => fallback
  end.

(** The settled state of an awaited promise. *)
Inductive Settled (A : Type) : Type :=
| Resolved (value : A)
| Rejected (error : Thrown).
Arguments Resolved {A} value.
Arguments Rejected {A} error.

(** Source text is held as the bytes of its UTF-8 encoding, which is how a
    string literal of this file is read.  [code_points] reads the bytes
    back as the Unicode code points JavaScript sees; a byte that starts no
    well-formed sequence is read as the character of its own number, as
    in ISO 8859-1, so that a text of single bytes is read byte by byte.
    (A JavaScript string with an unpaired surrogate has no UTF-8 form and
    is not represented.) *)

(** The payload of a continuation byte [10xxxxxx]. *)
Definition continuation (b : ascii) : option N :=
  let n := N_of_ascii b in
  if ((128 <=? n) && (n <? 192))%N then Some (n - 128)%N else None.

(** Two bytes encode U+0080..U+07FF. *)
Definition two_bytes (lead c1 : N) : option N :=
  if ((194 <=? lead) && (lead <? 224))%N
  then Some ((lead - 192) * 64 + c1)%N else None.

(** Three bytes encode U+0800..U+FFFF without the surrogates. *)
Definition three_bytes (lead c1 c2 : N) : option N :=
  let point := ((lead - 224) * 4096 + c1 * 64 + c2)%N in
  if ((224 <=? lead) && (lead <? 240) && (2048 <=? point)
      && negb ((55296 <=? point) && (point <? 57344)))%N
  then Some point else None.

(** Four bytes encode U+10000..U+10FFFF. *)
Definition four_bytes (lead c1 c2 c3 : N) : option N :=
  let point := ((lead - 240) * 262144 + c1 * 4096 + c2 * 64 + c3)%N in
  if ((240 <=? lead) && (lead <? 248) && (65536 <=? point)
      && (point <? 1114112))%N
  then Some point else None.

Fixpoint code_points (s : string) : list N :=
  match s with
  | EmptyString => []
  | String b0 rest =>
      let lead := N_of_ascii b0 in
      let malformed := lead :: code_points rest in
      if (lead <? 128)%N then lead :: code_points rest
      else
        match rest with
        | EmptyString => malformed
        | String b1 rest1 =>
            match continuation b1 with
            | None => malformed
            | Some c1 =>
                match two_bytes lead c1 with
                | Some point => point :: code_points rest1
                | None =>
                    match rest1 with
                    | EmptyString => malformed
                    | String b2 rest2 =>
                        match continuation b2 with
                        | None => malformed
                        | Some c2 =>
                            match three_bytes lead c1 c2 with
                            | Some point => point :: code_points rest2
                            | None =>
                                match rest2 with
                                | EmptyString => malformed
                                | String b3 rest3 =>
                                    match continuation b3 with
                                    | None => malformed
                                    | Some c3 =>
                                        match four_bytes lead c1 c2 c3 with
                                        | Some point =>
                                            point :: code_points rest3
                                        | None => malformed
                                        end
                                    end
                                end
                            end
                        end
                    end
                end
            end
        end
  end.

(** The code points [String.prototype.trim] strips, the ECMAScript
    WhiteSpace and LineTerminator productions: TAB, LF, VT, FF, CR, SPACE,
    NO-BREAK SPACE (U+00A0), OGHAM SPACE MARK (U+1680), U+2000..U+200A,
    LINE SEPARATOR (U+2028), PARAGRAPH SEPARATOR (U+2029), NARROW NO-BREAK
    SPACE (U+202F), MEDIUM MATHEMATICAL SPACE (U+205F), IDEOGRAPHIC SPACE
    (U+3000) and ZERO WIDTH NO-BREAK SPACE (U+FEFF).  All of them lie in
    the basic plane, so code points and UTF-16 code units agree on them. *)
Definition is_whitespace (c : N) : bool :=
  match c with
  | 9%N | 10%N | 11%N | 12%N | 13%N | 32%N | 160%N | 5760%N
  | 8232%N | 8233%N | 8239%N | 8287%N | 12288%N | 65279%N => true
  | _ => ((8192 <=? c) && (c <=? 8202))%N
  end.

Fixpoint trimStart (s : list N) : list N :=
  match s with
  | [] => []
  | c :: rest => if is_whitespace c then trimStart rest else s
  end.

Definition trimEnd (s : list N) : list N :=
  List.rev (trimStart (List.rev s)).

(** [String.prototype.trim], on the code points of the text. *)
Definition trim (s : string) : list N := trimEnd (trimStart (code_points s)).

(** Truthiness of a string: only the empty string is falsy. *)
Definition truthy (s : string) : bool :=
  match s with
  | EmptyString => false
  | String _ _ => true
  end.

(** [value || fallback] on an optional string: [undefined] and the empty
    string both fall through to the fallback. *)
Definition or_else (value : option string) (fallback : string) : string :=
  match value with
  | Some s => if truthy s then s else fallback
  | None => fallback
  end.


End Js.

(** ** Result types ([types/codeEditor.ts]) *)

(** Structured, language-agnostic values carried by test cases
    ([expected: any], [actual: any]) and by response bodies; numbers are
    rationals. *)
Inductive JsonValue : Type :=
| JNull
| JBool (b : bool)
| JNumber (n : Q)
| JString (s : string)
| JArray (items : list JsonValue)
| JObject (fields : list (string * JsonValue)).

(** [success] and [error] are fields of two interfaces and [name] is a
    common word, so [CodeExecutionResult.success] is [exec_success],
    [CodeExecutionResult.error] is [exec_error], and the [name] and [error]
    of [TestResult] are [test_name] and [test_error]; an optional field is
    an [option]. *)
Record CodeExecutionResult : Type := mkExecutionResult {
  exec_success : bool;
  output : string;
  exec_error : option string;
  execution_time : Q;
  memory_usage : option Z
}.

Record TestResult : Type := mkTestResult {
  test_name : string;
  passed : bool;
  expected : JsonValue;
  actual : option JsonValue;
  test_error : option string
}.

Record ExerciseValidationResult : Type := mkValidationResult {
  success : bool;
  passed_tests : Z;
  total_tests : Z;
  test_results : list TestResult;
  score : Z;
  feedback : string
}.

(** ** The execution service *)

Module Service.

(** Modelled from the spec: the caller-visible failures of section 7 that
    are signalled at transport level; the service that raises them is not
    in the frontend sources. *)
Inductive ServiceError : Type :=
| InvalidRequest
| NotFound
| SandboxFault
| ServiceBusy.

(** Modelled from the spec: what an operation of the service gives back,
    a result or one of those failures. *)
Inductive Response (A : Type) : Type :=
| Ok (result : A)
| Failed (error : ServiceError).
Arguments Ok {A} result.
Arguments Failed {A} error.

(** Modelled from the spec: the fixed ceilings of the Execution Driver and
    the request boundary (section 4.1, 4.3); the backend that holds their
    values is not in the frontend sources. *)
Record Limits : Type := mkLimits {
  timeout : Q;
  memory_limit : Z;
  max_code_length : nat
}.

(** Modelled from the spec: request validation of section 4.3, "code must
    be non-empty and under a maximum length". *)
Definition valid_code (lim : Limits) (code : string) : bool :=
  Js.truthy code && (String.length code <=? max_code_length lim)%nat.

(** Modelled from the spec: how a run of the candidate program inside a
    working sandbox ends, with the wall-clock second at which it does;
    [Hangs] is a program that never ends on its own. *)
Inductive Behaviour : Type :=
| Completes (elapsed : Q) (stdout : string) (peak : option Z)
| Raises (elapsed : Q) (stdout stderr : string)
| ExceedsMemory (elapsed : Q) (stdout : string)
| Hangs.

(** Modelled from the spec: the second at which the run ends, if it
    does. *)
Definition ends_at (b : Behaviour) : option Q :=
  match b with
  | Completes t _ _ | Raises t _ _ | ExceedsMemory t _ => Some t
  | Hangs => None
  end.

(** Modelled from the spec: the run "did not finish within timeout". *)
Definition runs_longer_than (ceiling : Q) (b : Behaviour) : bool :=
  match ends_at b with
  | Some t => negb (Qle_bool t ceiling)
  | None => true
  end.

(** Modelled from the spec: the "timeout marker" of [TimeoutExceeded], and
    the error text that tells [ResourceExceeded] from a runtime fault; the
    spec does not fix their wording. *)
Definition timeout_marker : string := "TimeoutExceeded".
Definition resource_marker : string := "ResourceExceeded".

(** Modelled from the spec: the error of a [RuntimeFault], "the captured
    stderr/exception text".  The error of a failed run is populated
    (section 3) and not empty (section 8), so a fault that left no text is
    reported by its kind. *)
Definition runtime_marker : string := "RuntimeFault".

Definition fault_text (stderr : string) : string :=
  if Js.truthy stderr then stderr else runtime_marker.

(** Modelled from the spec: the failure taxonomy of the Execution Driver
    (section 4.1) for one run in a sandbox that started. *)
Definition run (lim : Limits) (b : Behaviour) : CodeExecutionResult :=
  if runs_longer_than (timeout lim) b then
    mkExecutionResult false "" (Some timeout_marker) (timeout lim) None
  else
    match b with
    | Completes t stdout peak =>
        mkExecutionResult true stdout None t peak
    | Raises t stdout stderr =>
        mkExecutionResult false stdout (Some (fault_text stderr)) t None
    | ExceedsMemory t stdout =>
        mkExecutionResult false stdout (Some resource_marker) t None
    | Hangs =>
        mkExecutionResult false "" (Some timeout_marker) (timeout lim) None
    end.

(** Modelled from the spec: "acquire sandbox, run, capture, release", with
    a sandbox fault retried automatically; [sandbox_up i] tells whether
    the [i]-th attempt to start the isolation mechanism works. *)
Fixpoint drive (retries : nat) (attempt : nat) (sandbox_up : nat -> bool)
    (lim : Limits) (b : Behaviour) : Response CodeExecutionResult :=
  if sandbox_up attempt then Ok (run lim b)
  else
    match retries with
    | O => Failed SandboxFault
    | S fewer => drive fewer (S attempt) sandbox_up lim b
    end.

(** Modelled from the spec: a sandbox fault is "retried once
    automatically before surfacing to the caller". *)
Definition driver (sandbox_up : nat -> bool) (lim : Limits) (b : Behaviour)
    : Response CodeExecutionResult :=
  drive 1 0 sandbox_up lim b.

Section Execute.
(** The language runtime: what a source text does when it is run. *)
Variable semantics : string -> Behaviour.
Variable sandbox_up : nat -> bool.
Variable lim : Limits.

(** Modelled from the spec: [execute(code, language) -> ExecutionResult]
    of section 6, behind the request validation of section 4.3. *)
Definition execute (code language : string) : Response CodeExecutionResult :=
  if valid_code lim code then driver sandbox_up lim (semantics code)
  else Failed InvalidRequest.
End Execute.

(** Modelled from the spec: a test case as the content collaborator serves
    it (section 3), a label and an expected value. *)
Record TestCase : Type := mkTestCase {
  tc_name : string;
  tc_expected : JsonValue
}.

(** Modelled from the spec: what the content collaborator resolves an
    [exercise_id] to, the ordered test cases and, when it defines one, the
    weighted scoring scheme that replaces the conventional percentage. *)
Record Exercise : Type := mkExercise {
  test_cases : list TestCase;
  weighted_scheme : option (list TestResult -> Z)
}.

(** Modelled from the spec: what the candidate code does on one test
    case, a value for [actual] or a fault before any result. *)
Inductive CaseOutcome : Type :=
| Produced (value : JsonValue)
| Faulted (text : string).

(** Modelled from the spec: [round], to a nearest integer.  The spec does
    not say which way an exact half goes; this model takes it upwards. *)
Definition round (x : Q) : Z := Qfloor (x + (1 # 2))%Q.

(** Modelled from the spec: what [round] means whichever way a half
    goes, [n] is an integer nearest to [numerator / denominator], for a
    positive denominator. *)
Definition nearest_to (numerator denominator n : Z) : Prop :=
  2 * denominator * n - denominator <= 2 * numerator
  <= 2 * denominator * n + denominator.

(** Modelled from the spec: [round(100 * passed_tests / total_tests)]. *)
Definition percent_score (passed_count total : Z) : Z :=
  round (inject_Z 100 * inject_Z passed_count / inject_Z total)%Q.

(** Modelled from the spec: [passed_tests], the number of results with
    [passed=true]. *)
Fixpoint count_passed (results : list TestResult) : Z :=
  match results with
  | [] => 0
  | r :: rest => (if passed r then 1 else 0) + count_passed rest
  end.

(** Modelled from the spec: the feedback text of section 4.2, derived from
    the pass ratio. *)
Definition feedback_for (passed_count total : Z) : string :=
  if total =? 0 then "No tests configured for this exercise."
  else if passed_count =? total then "All tests passed. Exercise complete!"
  else pretty (total - passed_count) +:+ " test(s) still failing.".

Section Harness.
(** The content collaborator, the candidate code run on a test case, and
    the comparison rule of section 4.2. *)
Variable content : string -> option Exercise.
Variable evaluate : string -> TestCase -> CaseOutcome.
Variable same_value : JsonValue -> JsonValue -> bool.
Variable lim : Limits.

(** Modelled from the spec: one test case run and compared; a fault before
    a result gives [passed=false] with the fault text, a mismatch gives
    [passed=false] with no error and both values populated. *)
Definition run_case (code : string) (tc : TestCase) : TestResult :=
  match evaluate code tc with
  | Produced value =>
      mkTestResult (tc_name tc) (same_value (tc_expected tc) value)
        (tc_expected tc) (Some value) None
  | Faulted text =>
      mkTestResult (tc_name tc) false (tc_expected tc) None (Some text)
  end.

(** Modelled from the spec: the candidate passes a test case when it
    produces a value and the value equals the expected one under the
    comparison rule. *)
Definition passes (code : string) (tc : TestCase) : bool :=
  match evaluate code tc with
  | Produced value => same_value (tc_expected tc) value
  | Faulted _ => false
  end.

(** Modelled from the spec: aggregation into [ExerciseValidationResult],
    [success = (passed_tests == total_tests) && total_tests > 0]. *)
Definition grade (ex : Exercise) (code : string) : ExerciseValidationResult :=
  let results := map (run_case code) (test_cases ex) in
  let passed_count := count_passed results in
  let total := Z.of_nat (length results) in
  mkValidationResult
    ((passed_count =? total) && (0 <? total))
    passed_count
    total
    results
    (if total =? 0 then 0
     else match weighted_scheme ex with
          | Some scheme => scheme results
          | None => percent_score passed_count total
          end)
    (feedback_for passed_count total).

(** Modelled from the spec: [validate(exercise_id, code)] of section 6,
    behind the request validation of section 4.3. *)
Definition validate (exercise_id code : string)
    : Response ExerciseValidationResult :=
  if valid_code lim code then
    match content exercise_id with
    | Some ex => Ok (grade ex code)
    | None => Failed NotFound
    end
  else Failed InvalidRequest.
End Harness.

End Service.

(** ** The API client ([services/api.ts]) *)

Module ApiClient.

(** The fields of [AuthTokens] that the client reads; the declaration in
    [types/auth.ts] is not among the sources. *)
Record AuthTokens : Type := mkTokens {
  access_token : string;
  refresh_token : string
}.

Inductive Method : Type := GET | POST.

(** An axios request config.  [req_id] stands for the identity of the
    request: a retry re-issues the same request and keeps it, every call of
    [client.post] or [client.get] makes a new one. *)
Record RequestConfig : Type := mkConfig {
  req_id : nat;
  method : Method;
  url : string;
  data : list (string * string);
  authorization : option string;
  _retry : bool
}.

(** What comes back for one request put on the wire: a response with a
    status and a body, or no response at all (connection error, the 10 s
    client timeout). *)
Inductive NetResult : Type :=
| HttpResponse (status : Z) (body : JsonValue)
| NoResponse.

(** The server and the network: the answer to the latest request, given
    everything sent so far (latest last). *)
Definition Network : Type := list RequestConfig -> NetResult.

(** What the client's promises reject with: an axios error carrying
    [error.response?.status] and [error.config], or a plain [Error]. *)
Inductive ApiError : Type :=
| AxiosError (status : option Z) (config : RequestConfig)
| PlainError (message : string).

(** The state of a promise of the client; [Pending] is a promise that has
    not settled within the fuel given to [dispatch] below. *)
Inductive Outcome (A : Type) : Type :=
| Fulfilled (value : A)
| RejectedWith (error : ApiError)
| Pending.
Arguments Fulfilled {A} value.
Arguments RejectedWith {A} error.
Arguments Pending {A}.

(** The client object together with the browser globals it touches:
    [this.tokens], [localStorage] (the stored JSON text is represented by
    the tokens it encodes), [window.location.href], and, as a record of
    what happened, the requests put on the wire and the identity the next
    new request will get. *)
Record World : Type := mkWorld {
  tokens : option AuthTokens;
  localStorage : gmap string AuthTokens;
  location_href : string;
  sent : list RequestConfig;
  next_id : nat
}.

Definition set_retry (cfg : RequestConfig) : RequestConfig :=
  mkConfig (req_id cfg) (method cfg) (url cfg) (data cfg)
    (authorization cfg) true.

Definition set_authorization (header : string) (cfg : RequestConfig)
    : RequestConfig :=
  mkConfig (req_id cfg) (method cfg) (url cfg) (data cfg)
    (Some header) (_retry cfg).

Definition saveTokensToStorage (t : AuthTokens) (w : World) : World :=
  mkWorld (Some t) (<["auth_tokens" := t]> (localStorage w))
    (location_href w) (sent w) (next_id w).

Definition clearTokens (w : World) : World :=
  mkWorld None (delete "auth_tokens" (localStorage w))
    (location_href w) (sent w) (next_id w).

Definition redirect (href : string) (w : World) : World :=
  mkWorld (tokens w) (localStorage w) href (sent w) (next_id w).

Definition put_on_wire (cfg : RequestConfig) (w : World) : World :=
  mkWorld (tokens w) (localStorage w) (location_href w)
    (sent w ++ [cfg]) (next_id w).

(** [!!this.tokens?.access_token] *)
Definition isAuthenticated (w : World) : bool :=
  match tokens w with
  | Some t => Js.truthy (access_token t)
  | None => false
  end.

Definition getTokens (w : World) : option AuthTokens := tokens w.

(** Request interceptor: add the bearer header when there is a token. *)
Definition add_auth (w : World) (cfg : RequestConfig) : RequestConfig :=
  match tokens w with
  | Some t =>
      if Js.truthy (access_token t)
      then set_authorization ("Bearer " +:+ access_token t) cfg
      else cfg
  | None => cfg
  end.

(** A fresh config, as [client.post(url, data)] builds one. *)
Definition new_request (m : Method) (u : string) (d : list (string * string))
    (w : World) : RequestConfig * World :=
  (mkConfig (next_id w) m u d None false,
   mkWorld (tokens w) (localStorage w) (location_href w) (sent w)
     (S (next_id w))).

Fixpoint json_field (name : string) (fields : list (string * JsonValue))
    : option JsonValue :=
  match fields with
  | [] => None
  | (key, value) :: rest =>
      if String.eqb key name then Some value else json_field name rest
  end.

Definition string_field (name : string) (body : JsonValue) : string :=
  match body with
  | JObject fields =>
      match json_field name fields with
      | Some (JString s) => s
      | _ => ""
      end
  | _ => ""
  end.

(** [const tokens = response.data]: the body read as [AuthTokens].  A field
    that is missing or is not a string reads as the empty string, which is
    as falsy as [undefined] in the two tests the client makes. *)
Definition as_tokens (body : JsonValue) : AuthTokens :=
  mkTokens (string_field "access_token" body)
    (string_field "refresh_token" body).

Section Interceptors.
(** [this.client]: how a config is sent, interceptors included. *)
Variable send : RequestConfig -> World -> Outcome JsonValue * World.

(** [refreshToken()] *)
Definition refreshToken_with (w : World) : Outcome AuthTokens * World :=
  let refresh :=
    match tokens w with
    | Some t => if Js.truthy (refresh_token t) then Some (refresh_token t) else None
    | None => None
    end in
  match refresh with
  | None => (RejectedWith (PlainError "No refresh token available"), w)
  | Some token =>
      let '(cfg, w1) :=
        new_request POST "/auth/refresh" [("refresh_token", token)] w in
      match send cfg w1 with
      | (Fulfilled body, w2) =>
          (Fulfilled (as_tokens body), saveTokensToStorage (as_tokens body) w2)
      | (RejectedWith e, w2) => (RejectedWith e, w2)
      | (Pending, w2) => (Pending, w2)
      end
  end.

(** The retry test of the response interceptor:
    [error.response?.status === 401 && !originalRequest._retry]. *)
Definition wants_retry (status : option Z) (cfg : RequestConfig) : bool :=
  match status with
  | Some code => (code =? 401) && negb (_retry cfg)
  | None => false
  end.

(** Response interceptor, rejection handler (lines 36-53). *)
Definition on_rejected_with (status : option Z) (cfg : RequestConfig)
    (w : World) : Outcome JsonValue * World :=
  if wants_retry status cfg then
    let originalRequest := set_retry cfg in
    match refreshToken_with w with
    | (Fulfilled _, w1) => send originalRequest w1
    | (RejectedWith refreshError, w1) =>
        (RejectedWith refreshError, redirect "/login" (clearTokens w1))
    | (Pending, w1) => (Pending, w1)
    end
  else (RejectedWith (AxiosError status cfg), w).
End Interceptors.

(** axios' default [validateStatus]. *)
Definition status_ok (status : Z) : bool :=
  (200 <=? status) && (status <? 300).

(** [this.client(config)]: request interceptor, the wire, response
    interceptor.  The interceptor calls back into the client (for the
    refresh and for the retry), so the recursion is bounded by [fuel]; a
    promise that has not settled when the fuel is gone is [Pending]. *)
Fixpoint dispatch (net : Network) (fuel : nat) (cfg : RequestConfig)
    (w : World) : Outcome JsonValue * World :=
  match fuel with
  | O => (Pending, w)
  | S f =>
      let cfg1 := add_auth w cfg in
      let w1 := put_on_wire cfg1 w in
      match net (sent w1) with
      | HttpResponse status body =>
          if status_ok status then (Fulfilled body, w1)
          else on_rejected_with (dispatch net f) (Some status) cfg1 w1
      | NoResponse => on_rejected_with (dispatch net f) None cfg1 w1
      end
  end.

(** How often the request [id] was put on the wire. *)
Definition dispatches_of (id : nat) (log : list RequestConfig) : nat :=
  length (List.filter (fun c => Nat.eqb (req_id c) id) log).

(** From [w] to [w'] the log only grew, by requests whose ids are
    [allowed], and no id was given out twice. *)
Definition grows (allowed : nat -> Prop) (w w' : World) : Prop :=
  (next_id w <= next_id w')%nat
  /\ exists added,
       sent w' = sent w ++ added
       /\ Forall (fun c => allowed (req_id c)) added.

(** The [error.response?.status] of a failed answer; [None] when the
    answer is a success. *)
Definition failure_status (answer : NetResult) : option (option Z) :=
  match answer with
  | HttpResponse status _ =>
      if status_ok status then None else Some (Some status)
  | NoResponse => Some None
  end.

(** What [send] must satisfy for the interceptor to keep the log in
    order: it logs only the request it is given and newer ones. *)
Definition orderly (send : RequestConfig -> World -> Outcome JsonValue * World)
    : Prop :=
  forall cfg w,
    grows (fun i => i = req_id cfg \/ (next_id w <= i)%nat) w (snd (send cfg w)).

Section Methods.
Variable net : Network.
Variable fuel : nat.

Definition post (u : string) (d : list (string * string)) (w : World)
    : Outcome JsonValue * World :=
  let '(cfg, w1) := new_request POST u d w in dispatch net fuel cfg w1.

Definition refreshToken (w : World) : Outcome AuthTokens * World :=
  refreshToken_with (dispatch net fuel) w.

(** [try { await this.client.post('/auth/logout') } finally
    { this.clearTokens() }]: the [finally] block runs once the request has
    settled, and the outcome of the request is the outcome of [logout]. *)
Definition logout (w : World) : Outcome unit * World :=
  match post "/auth/logout" [] w with
  | (Fulfilled _, w1) => (Fulfilled tt, clearTokens w1)
  | (RejectedWith e, w1) => (RejectedWith e, clearTokens w1)
  | (Pending, w1) => (Pending, w1)
  end.

Definition validateExercise (exerciseId code : string) (w : World)
    : Outcome JsonValue * World :=
  post "/exercises/validate" [("exercise_id", exerciseId); ("code", code)] w.

Definition executeCode (code language : string) (w : World)
    : Outcome JsonValue * World :=
  post "/code/execute" [("code", code); ("language", language)] w.
End Methods.

End ApiClient.

(** ** Asynchronous handlers: state and exceptions

    An event handler of a component runs against the component's state and
    either completes normally or throws.  [await] on a promise that has
    settled continues or throws accordingly. *)

Module Async.

Inductive Completion (A : Type) : Type :=
| Normal (value : A)
| Abrupt (error : Js.Thrown).
Arguments Normal {A} value.
Arguments Abrupt {A} error.

Definition M (W A : Type) : Type := W -> Completion A * W.

#[export] Instance M_ret {W} : MRet (M W) :=
  fun A (value : A) w => (Normal value, w).

#[export] Instance M_bind {W} : MBind (M W) :=
  fun A B (k : A -> M W B) (m : M W A) w =>
    match m w with
    | (Normal value, w1) => k value w1
    | (Abrupt error, w1) => (Abrupt error, w1)
    end.

Definition throw {W A} (error : Js.Thrown) : M W A :=
  fun w => (Abrupt error, w).

Definition gets {W A} (read : W -> A) : M W A :=
  fun w => (Normal (read w), w).

Definition modify {W} (update : W -> W) : M W unit :=
  fun w => (Normal tt, update w).

(** [await promise] *)
Definition await {W A} (promise : Js.Settled A) : M W A :=
  match promise with
  | Js.Resolved value => mret value
  | Js.Rejected error => throw error
  end.

(** [try { body } catch (error) { handler }] *)
Definition try_catch {W A} (body : M W A) (handler : Js.Thrown -> M W A)
    : M W A :=
  fun w =>
    match body w with
    | (Normal value, w1) => (Normal value, w1)
    | (Abrupt error, w1) => handler error w1
    end.

(** [try { body } finally { cleanup }]: the cleanup runs on every exit of
    the body and the body's completion stands unless the cleanup throws. *)
Definition try_finally {W A} (body : M W A) (cleanup : M W unit) : M W A :=
  fun w =>
    match body w with
    | (completion, w1) =>
        match cleanup w1 with
        | (Normal _, w2) => (completion, w2)
        | (Abrupt error, w2) => (Abrupt error, w2)
        end
    end.

(** [callback?.(argument)] for an optional callback that may throw. *)
Definition call_optional {W A} (callback : option (A -> option Js.Thrown))
    (argument : A) (record : A -> W -> W) : M W unit :=
  match callback with
  | None => mret tt
  | Some f =>
      fun w =>
        match f argument with
        | None => (Normal tt, record argument w)
        | Some error => (Abrupt error, record argument w)
        end
  end.

End Async.

(** ** The code editor component ([components/codeEditor/CodeEditor.tsx]) *)

Module CodeEditor.
Import Async.

Record CodeEditorState : Type := mkState {
  code : string;
  isExecuting : bool;
  isValidating : bool;
  executionResult : option CodeExecutionResult;
  validationResult : option ExerciseValidationResult;
  showHints : bool;
  hints : list string
}.

(** What the component does that the outside can observe. *)
Inductive Event : Type :=
| ApiExecuteCode (code language : string)
| ApiValidateExercise (exerciseId code : string)
| OnExecute (result : CodeExecutionResult)
| OnValidate (result : ExerciseValidationResult)
| OnCodeChange (code : string).

Record World : Type := mkWorld {
  state : CodeEditorState;
  trace : list Event
}.

(** The props the handlers use.  A callback returns [None] when it
    returns and [Some error] when it throws. *)
Record Props : Type := mkProps {
  initialCode : string;
  language : string;
  exerciseId : option string;
  onCodeChange : option (string -> option Js.Thrown);
  onExecute : option (CodeExecutionResult -> option Js.Thrown);
  onValidate : option (ExerciseValidationResult -> option Js.Thrown)
}.

(** The two methods of [apiClient] the handlers await, with the settled
    state of the promise each call returns. *)
Record Api : Type := mkApi {
  api_executeCode : string -> string -> Js.Settled CodeExecutionResult;
  api_validateExercise : string -> string -> Js.Settled ExerciseValidationResult
}.

(** [useState] initial value. *)
Definition initial_state (props : Props) : CodeEditorState :=
  mkState (initialCode props) false false None None false [].

(** [setState(prev => ...)] *)
Definition setState (update : CodeEditorState -> CodeEditorState)
    : M World unit :=
  modify (fun w => mkWorld (update (state w)) (trace w)).

Definition emit (e : Event) (w : World) : World :=
  mkWorld (state w) (trace w ++ [e]).

Section Handlers.
Variable props : Props.
Variable api : Api.

Definition errorResult_execute (error : Js.Thrown) : CodeExecutionResult :=
  mkExecutionResult false ""
    (Some (Js.message_or "Unknown error occurred" error)) 0%Q None.

Definition errorResult_validate (error : Js.Thrown)
    : ExerciseValidationResult :=
  mkValidationResult false 0 0 [] 0 (Js.message_or "Validation failed" error).

(** [executeCode] (lines 58-77).  [state.code] is the code of the render
    the handler belongs to, read here when the handler starts. *)
Definition executeCode : M World unit :=
  current ← gets (fun w => code (state w));
  setState (fun prev =>
    mkState (code prev) true (isValidating prev) None
      (validationResult prev) (showHints prev) (hints prev));;
  try_finally
    (try_catch
       (modify (emit (ApiExecuteCode current (language props)));;
        result ← await (api_executeCode api current (language props));
        setState (fun prev =>
          mkState (code prev) (isExecuting prev) (isValidating prev)
            (Some result) (validationResult prev) (showHints prev)
            (hints prev));;
        call_optional (onExecute props) result (fun r => emit (OnExecute r)))
       (fun error =>
          let errorResult := errorResult_execute error in
          setState (fun prev =>
            mkState (code prev) (isExecuting prev) (isValidating prev)
              (Some errorResult) (validationResult prev) (showHints prev)
              (hints prev));;
          call_optional (onExecute props) errorResult
            (fun r => emit (OnExecute r))))
    (setState (fun prev =>
       mkState (code prev) false (isValidating prev) (executionResult prev)
         (validationResult prev) (showHints prev) (hints prev))).

(** [if (!exerciseId) return;]: an exercise id that is undefined or
    empty. *)
Definition usable_exerciseId : option string :=
  match exerciseId props with
  | Some id => if Js.truthy id then Some id else None
  | None => None
  end.

(** [validateExercise] (lines 79-102) *)
Definition validateExercise : M World unit :=
  match usable_exerciseId with
  | None => mret tt
  | Some id =>
      current ← gets (fun w => code (state w));
      setState (fun prev =>
        mkState (code prev) (isExecuting prev) true (executionResult prev)
          None (showHints prev) (hints prev));;
      try_finally
        (try_catch
           (modify (emit (ApiValidateExercise id current));;
            result ← await (api_validateExercise api id current);
            setState (fun prev =>
              mkState (code prev) (isExecuting prev) (isValidating prev)
                (executionResult prev) (Some result) (showHints prev)
                (hints prev));;
            call_optional (onValidate props) result
              (fun r => emit (OnValidate r)))
           (fun error =>
              let errorResult := errorResult_validate error in
              setState (fun prev =>
                mkState (code prev) (isExecuting prev) (isValidating prev)
                  (executionResult prev) (Some errorResult) (showHints prev)
                  (hints prev));;
              call_optional (onValidate props) errorResult
                (fun r => emit (OnValidate r))))
        (setState (fun prev =>
           mkState (code prev) (isExecuting prev) false (executionResult prev)
             (validationResult prev) (showHints prev) (hints prev)))
  end.

(** [toggleHints] *)
Definition toggleHints : M World unit :=
  setState (fun prev =>
    mkState (code prev) (isExecuting prev) (isValidating prev)
      (executionResult prev) (validationResult prev) (negb (showHints prev))
      (hints prev)).

(** [resetCode] (lines 108-116) *)
Definition resetCode : M World unit :=
  setState (fun prev =>
    mkState (initialCode props) (isExecuting prev) (isValidating prev)
      None None (showHints prev) (hints prev));;
  call_optional (onCodeChange props) (initialCode props)
    (fun c => emit (OnCodeChange c)).

(** The [disabled] attribute that [CodeControls] puts on the run, submit
    and reset buttons. *)
Definition controls_disabled (s : CodeEditorState) : bool :=
  isExecuting s || isValidating s.
End Handlers.


(** The result [executeCode] leaves in the state: the response, or the
    fallback built in the [catch] block when the call rejected or when
    [onExecute] threw on the response. *)
Definition execution_stored (props : CodeEditor.Props) (api : CodeEditor.Api)
    (current : string) : CodeExecutionResult :=
  match CodeEditor.api_executeCode api current (CodeEditor.language props) with
  | Js.Resolved result =>
      match CodeEditor.onExecute props with
      | Some callback =>
          match callback result with
          | Some error => CodeEditor.errorResult_execute error
          | None => result
          end
      | None => result
      end
  | Js.Rejected error => CodeEditor.errorResult_execute error
  end.


Definition validation_stored (props : CodeEditor.Props) (api : CodeEditor.Api)
    (exercise_id current : string) : ExerciseValidationResult :=
  match CodeEditor.api_validateExercise api exercise_id current with
  | Js.Resolved result =>
      match CodeEditor.onValidate props with
      | Some callback =>
          match callback result with
          | Some error => CodeEditor.errorResult_validate error
          | None => result
          end
      | None => result
      end
  | Js.Rejected error => CodeEditor.errorResult_validate error
  end.

End CodeEditor.

(** ** The exercise view ([components/exercise/ExerciseDisplay.tsx]) *)

Module ExerciseDisplay.
Import Async.

(** The fields of [Exercise] ([types/progress.ts]) the handlers use. *)
Record Exercise : Type := mkExercise {
  id : string;
  starter_code : option string;
  exercise_hints : list string;
  points : Z
}.

(** One field per [useState] hook. *)
Record State : Type := mkState {
  code : string;
  isSubmitting : bool;
  validationResult : option ExerciseValidationResult;
  showHints : bool;
  attempts : Z;
  timeSpent : Z
}.

Inductive Event : Type :=
| ApiValidateExercise (exerciseId code : string)
| SubmitExercise (exerciseId code : string)
| OnComplete (result : ExerciseValidationResult)
| ConsoleError.

Record World : Type := mkWorld {
  state : State;
  trace : list Event
}.

(** What the handlers take from props and context: the signed-in user of
    [useAuth] (its id, if any), the exercise, the settled state of the
    promises of [apiClient.validateExercise] and of [submitExercise] from
    [useProgress], and the optional [onComplete] callback. *)
Record Env : Type := mkEnv {
  user : option string;
  exercise : Exercise;
  api_validateExercise : string -> string -> Js.Settled ExerciseValidationResult;
  submitExercise : string -> string -> Js.Settled unit;
  onComplete : option (ExerciseValidationResult -> option Js.Thrown)
}.

Definition initial_state (ex : Exercise) : State :=
  mkState (Js.or_else (starter_code ex) "") false None false 0 0.

Definition setCode (c : string) : M World unit :=
  modify (fun w =>
    let s := state w in
    mkWorld (mkState c (isSubmitting s) (validationResult s) (showHints s)
               (attempts s) (timeSpent s)) (trace w)).

Definition setIsSubmitting (b : bool) : M World unit :=
  modify (fun w =>
    let s := state w in
    mkWorld (mkState (code s) b (validationResult s) (showHints s)
               (attempts s) (timeSpent s)) (trace w)).

Definition setValidationResult (r : option ExerciseValidationResult)
    : M World unit :=
  modify (fun w =>
    let s := state w in
    mkWorld (mkState (code s) (isSubmitting s) r (showHints s)
               (attempts s) (timeSpent s)) (trace w)).

Definition setAttempts (update : Z -> Z) : M World unit :=
  modify (fun w =>
    let s := state w in
    mkWorld (mkState (code s) (isSubmitting s) (validationResult s)
               (showHints s) (update (attempts s)) (timeSpent s)) (trace w)).

Definition emit (e : Event) : M World unit :=
  modify (fun w => mkWorld (state w) (trace w ++ [e])).

(** [!code.trim()]: the trimmed text is the empty string. *)
Definition blank (c : string) : bool :=
  match Js.trim c with
  | [] => true
  | _ :: _ => false
  end.

Definition failed_validation : ExerciseValidationResult :=
  mkValidationResult false 0 0 [] 0
    "Failed to validate exercise. Please try again.".

Section Handlers.
Variable env : Env.

(** [handleSubmit] (lines 46-74) *)
Definition handleSubmit : M World unit :=
  current ← gets (fun w => code (state w));
  if negb (bool_decide (is_Some (user env))) || blank current then mret tt
  else
    setIsSubmitting true;;
    setAttempts (fun prev => prev + 1);;
    try_finally
      (try_catch
         (emit (ApiValidateExercise (id (exercise env)) current);;
          result ← await (api_validateExercise env (id (exercise env)) current);
          setValidationResult (Some result);;
          if success result then
            emit (SubmitExercise (id (exercise env)) current);;
            await (submitExercise env (id (exercise env)) current);;
            call_optional (onComplete env) result
              (fun r w => mkWorld (state w) (trace w ++ [OnComplete r]))
          else mret tt)
         (fun error =>
            emit ConsoleError;;
            setValidationResult (Some failed_validation)))
      (setIsSubmitting false).

(** [handleReset] (lines 76-79) *)
Definition handleReset : M World unit :=
  setCode (Js.or_else (starter_code (exercise env)) "");;
  setValidationResult None.
End Handlers.



(** The result [handleSubmit] leaves in the state once it is past its
    guard: the response, or the fallback when validation rejected, or when
    recording the completion or [onComplete] threw. *)
Definition submission_stored (env : ExerciseDisplay.Env) (current : string)
    : ExerciseValidationResult :=
  let exercise_id := ExerciseDisplay.id (ExerciseDisplay.exercise env) in
  match ExerciseDisplay.api_validateExercise env exercise_id current with
  | Js.Resolved result =>
      if success result then
        match ExerciseDisplay.submitExercise env exercise_id current with
        | Js.Resolved _ =>
            match ExerciseDisplay.onComplete env with
            | Some callback =>
                match callback result with
                | Some _ => ExerciseDisplay.failed_validation
                | None => result
                end
            | None => result
            end
        | Js.Rejected _ => ExerciseDisplay.failed_validation
        end
      else result
  | Js.Rejected _ => ExerciseDisplay.failed_validation
  end.

End ExerciseDisplay.

(** ** Progressive hints ([components/exercise/ExerciseHints.tsx]) *)

Module ExerciseHints.

Record State : Type := mkState {
  availableHints : list string;
  revealedHints : Z;
  isLoading : bool
}.

Definition initial_state : State := mkState [] 0 false.

Definition hint_count (s : State) : Z :=
  Z.of_nat (length (availableHints s)).

(** [Math.min(Math.floor(attempts / 2), availableHints.length)] *)
Definition hintsToReveal (attempts : Z) (available : list string) : Z :=
  Z.min (attempts / 2) (Z.of_nat (length available)).

(** The effect of lines 23-27, run when [attempts] or
    [availableHints.length] has changed. *)
Definition reveal_effect (attempts : Z) (s : State) : State :=
  mkState (availableHints s) (hintsToReveal attempts (availableHints s))
    (isLoading s).

(** [revealNextHint] (lines 45-49) *)
Definition revealNextHint (s : State) : State :=
  if revealedHints s <? hint_count s
  then mkState (availableHints s) (revealedHints s + 1) (isLoading s)
  else s.

(** What is rendered under the revealed hints (lines 151-166): nothing, the
    button, or the count of attempts still to make. *)
Inductive NextHint : Type :=
| NoNextHint
| RevealButton
| Locked (more_attempts : Z).

Definition next_hint (attempts : Z) (s : State) : NextHint :=
  if revealedHints s <? hint_count s then
    if (revealedHints s + 1) * 2 <=? attempts then RevealButton
    else Locked ((revealedHints s + 1) * 2 - attempts)
  else NoNextHint.

(** What [getExerciseHints] settles with, as [loadHints] tells the cases
    apart: an array, an object with or without a [hints] property, or a
    rejection. *)
Inductive HintsResponse : Type :=
| HintsArray (items : list string)
| HintsObject (hints_property : option (list string))
| HintsFailed.

(** [Array.isArray(response) ? response : (response?.hints || hints)],
    and the fallback of the [catch] block. *)
Definition loaded_hints (props_hints : list string) (r : HintsResponse)
    : list string :=
  match r with
  | HintsArray items => items
  | HintsObject (Some items) => items
  | HintsObject None => props_hints
  | HintsFailed => props_hints
  end.

(** The component between two events: the [attempts] prop and the state,
    effects flushed. *)
Record Config : Type := mkConfig {
  attempts : Z;
  hooks : State
}.

(** [loadHints] as far as its [await] (lines 30-32): [setIsLoading(true)]. *)
Definition loadHints_started (s : State) : State :=
  mkState (availableHints s) (revealedHints s) true.

(** Mounting: first render with the initial state, then the two effects
    in the order they are declared, [loadHints()] (which sets [isLoading]
    and waits for the response) and the revelation. *)
Definition mount (attempts0 : Z) : Config :=
  mkConfig attempts0 (reveal_effect attempts0 (loadHints_started initial_state)).

Inductive Event : Type :=
| AttemptsChanged (attempts' : Z)
| ExerciseChanged
| HintsLoaded (props_hints : list string) (response : HintsResponse)
| RevealClicked.

(** One event and the effect it triggers.  The revelation depends on
    [attempts] and on [availableHints.length] and is skipped when neither
    changed; a new [exerciseId] calls [loadHints] again; the response of
    [getExerciseHints], or its failure, ends a load; a click reaches
    [revealNextHint] only through the button. *)
Definition step (c : Config) (e : Event) : Config :=
  match e with
  | AttemptsChanged attempts' =>
      if bool_decide (attempts' = attempts c) then c
      else mkConfig attempts' (reveal_effect attempts' (hooks c))
  | ExerciseChanged => mkConfig (attempts c) (loadHints_started (hooks c))
  | HintsLoaded props_hints response =>
      let loaded := loaded_hints props_hints response in
      let s := mkState loaded (revealedHints (hooks c)) false in
      if bool_decide (length loaded = length (availableHints (hooks c)))
      then mkConfig (attempts c) s
      else mkConfig (attempts c) (reveal_effect (attempts c) s)
  | RevealClicked =>
      match next_hint (attempts c) (hooks c) with
      | RevealButton => mkConfig (attempts c) (revealNextHint (hooks c))
      | _ => c
      end
  end.

Definition run (c : Config) (events : list Event) : Config :=
  foldl step c events.

(** The state agrees with the attempts-gated count. *)
Definition settled (c : Config) : Prop :=
  revealedHints (hooks c)
  = hintsToReveal (attempts c) (availableHints (hooks c)).

End ExerciseHints.

(** ** The service behind the API *)

Module Backend.

(** Modelled from the spec: the text of the axios error for a transport
    failure, with the status codes of the design notes (400 for an invalid
    submission, 404 for content that is not found, 500 for a sandbox
    failure). *)
Definition transport_message (e : Service.ServiceError) : string :=
  match e with
  | Service.InvalidRequest => "Request failed with status code 400"
  | Service.NotFound => "Request failed with status code 404"
  | Service.SandboxFault => "Request failed with status code 500"
  | Service.ServiceBusy => "Request failed with status code 503"
  end.

(** Modelled from the spec: "only request-validation and infrastructure
    failures use transport-level error signaling" (section 7); a result is
    the body of the response, a failure rejects the client's promise. *)
Definition over_http {A : Type} (response : Service.Response A)
    : Js.Settled A :=
  match response with
  | Service.Ok result => Js.Resolved result
  | Service.Failed e => Js.Rejected (Js.ThrownError (transport_message e))
  end.

Section Api.
Variable semantics : string -> Service.Behaviour.
Variable sandbox_up : nat -> bool.
Variable content : string -> option Service.Exercise.
Variable evaluate : string -> Service.TestCase -> Service.CaseOutcome.
Variable same_value : JsonValue -> JsonValue -> bool.
Variable lim : Service.Limits.

(** Modelled from the spec: the API as the code editor sees it when the
    service answers. *)
Definition api : CodeEditor.Api :=
  CodeEditor.mkApi
    (fun code language =>
       over_http (Service.execute semantics sandbox_up lim code language))
    (fun exercise_id code =>
       over_http
         (Service.validate content evaluate same_value lim exercise_id code)).
End Api.

End Backend.



(** ** Concrete inputs used to exercise the model *)

Module Examples.

Definition limits : Service.Limits := Service.mkLimits 2%Q 67108864 4096.

(** A toy runtime: the endless loop of the spec's scenario hangs, every
    other text prints a greeting after 10 ms. *)
Definition semantics (code : string) : Service.Behaviour :=
  if String.eqb code "while True: pass" then Service.Hangs
  else Service.Completes (1 # 100)%Q "Hello, World!" (Some 1024).

Definition sandbox_always_up (attempt : nat) : bool := true.

(** The exercise of the spec's scenario: one test case expecting 8. *)
Definition add_exercise : Service.Exercise :=
  Service.mkExercise [Service.mkTestCase "t1" (JNumber 8)] None.

(** A weighted scheme: the share of passed tests of the exercise's points,
    rounded.  (The exercise view displays the score out of the exercise's
    points, [ExerciseDisplay.tsx] line 205.) *)
Definition points_scheme (points : Z) (results : list TestResult) : Z :=
  Service.round (inject_Z points * inject_Z (Service.count_passed results)
                 / inject_Z (Z.of_nat (length results)))%Q.

(** Three test cases graded out of 10 points. *)
Definition flask_tests : Service.Exercise :=
  Service.mkExercise
    [Service.mkTestCase "Test 1" (JString "Hello, World!");
     Service.mkTestCase "Test 2" (JNumber 200);
     Service.mkTestCase "Test 3" (JBool true)]
    (Some (points_scheme 10)).

Definition content (exercise_id : string) : option Service.Exercise :=
  if String.eqb exercise_id "exercise-1" then Some flask_tests
  else if String.eqb exercise_id "add" then Some add_exercise
  else None.

(** A candidate that produces the expected value on every test case. *)
Definition correct_solution (code : string) (tc : Service.TestCase)
    : Service.CaseOutcome :=
  Service.Produced (Service.tc_expected tc).

(** A signed-in client whose access token has expired. *)
Definition stale_tokens : ApiClient.AuthTokens :=
  ApiClient.mkTokens "stale-access" "refresh-1".

Definition signed_in : ApiClient.World :=
  ApiClient.mkWorld (Some stale_tokens) {["auth_tokens" := stale_tokens]}
    "/dashboard" [] 1.

Definition modules_request : ApiClient.RequestConfig :=
  ApiClient.mkConfig 0 ApiClient.GET "/modules" [] None false.

Definition fresh_body : JsonValue :=
  JObject [("access_token", JString "fresh-access");
           ("refresh_token", JString "refresh-2")].

(** A server that answers the refresh endpoint with fresh tokens, accepts
    the fresh access token and answers 401 to anything else. *)
Definition expiring_server : ApiClient.Network :=
  fun log =>
    match last log with
    | Some c =>
        if String.eqb (ApiClient.url c) "/auth/refresh"
        then ApiClient.HttpResponse 200 fresh_body
        else if bool_decide (ApiClient.authorization c
                             = Some "Bearer fresh-access")
        then ApiClient.HttpResponse 200 JNull
        else ApiClient.HttpResponse 401 JNull
    | None => ApiClient.NoResponse
    end.

(** A server that accepts everything, and a network that is down. *)
Definition friendly_server : ApiClient.Network :=
  fun log => ApiClient.HttpResponse 200 JNull.

Definition offline : ApiClient.Network :=
  fun log => ApiClient.NoResponse.







(** Comparison of scalar values, enough for the examples. *)
Definition same_scalar (a b : JsonValue) : bool :=
  match a, b with
  | JNull, JNull => true
  | JBool x, JBool y => Bool.eqb x y
  | JNumber x, JNumber y => Qeq_bool x y
  | JString x, JString y => String.eqb x y
  | _, _ => false
  end.


Definition editor_props : CodeEditor.Props :=
  CodeEditor.mkProps "print('Hello, World!')" "python" (Some "exercise-1")
    None None None.

Definition editor_world : CodeEditor.World :=
  CodeEditor.mkWorld (CodeEditor.initial_state editor_props) [].



(** The exercise of the component tests. *)
Definition flask_exercise : ExerciseDisplay.Exercise :=
  ExerciseDisplay.mkExercise "exercise-1"
    (Some "from flask import Flask")
    ["Import Flask"; "Create an app instance"; "Add a route decorator"] 10.

Definition display_env : ExerciseDisplay.Env :=
  ExerciseDisplay.mkEnv (Some "user-1") flask_exercise
    (fun _ _ => Js.Rejected (Js.ThrownError "API Error"))
    (fun _ _ => Js.Resolved tt) None.

Definition display_world : ExerciseDisplay.World :=
  ExerciseDisplay.mkWorld (ExerciseDisplay.initial_state flask_exercise) [].

End Examples.

(** ** More of the API client: signing in and the current user *)

Module Session.
Import ApiClient.

(** The fields of [User] that the tests and mocks show; the declaration in
    [types/auth.ts] is not among the sources. *)
Record User : Type := mkUser {
  user_id : string;
  username : string;
  email : string
}.

(** A response body read as a [User], as [as_tokens] reads tokens. *)
Definition as_user (body : JsonValue) : User :=
  mkUser (string_field "id" body) (string_field "username" body)
    (string_field "email" body).

(** The [user] property of a login response read as a [User]; when it is
    absent the fields read as empty, as for any body that lacks them. *)
Definition user_property (body : JsonValue) : User :=
  match body with
  | JObject fields =>
      match json_field "user" fields with
      | Some value => as_user value
      | None => as_user JNull
      end
  | _ => as_user JNull
  end.

(** [this.tokens?.refresh_token], when it is truthy. *)
Definition usable_refresh_token (w : World) : option string :=
  match tokens w with
  | Some t => if Js.truthy (refresh_token t) then Some (refresh_token t) else None
  | None => None
  end.

(** The stored copy and [this.tokens] agree. *)
Definition in_sync (w : World) : Prop :=
  localStorage w !! "auth_tokens" = tokens w.

Definition type_error : ApiError :=
  PlainError "TypeError: cannot destructure the response data".

Section Methods.
Variable net : Network.
Variable fuel : nat.

Definition get (u : string) (w : World) : Outcome JsonValue * World :=
  let '(cfg, w1) := new_request GET u [] w in dispatch net fuel cfg w1.

(** [login] and [register] (lines 80-92):
    [const { user, ...tokens } = response.data] throws a [TypeError] on a
    null body, before anything is saved. *)
Definition sign_in (u : string) (credentials : list (string * string))
    (w : World) : Outcome (User * AuthTokens) * World :=
  match post net fuel u credentials w with
  | (Fulfilled body, w1) =>
      match body with
      | JNull => (RejectedWith type_error, w1)
      | _ =>
          (Fulfilled (user_property body, as_tokens body),
           saveTokensToStorage (as_tokens body) w1)
      end
  | (RejectedWith e, w1) => (RejectedWith e, w1)
  | (Pending, w1) => (Pending, w1)
  end.

Definition login (credentials : list (string * string)) (w : World)
    : Outcome (User * AuthTokens) * World :=
  sign_in "/auth/login" credentials w.

Definition register (credentials : list (string * string)) (w : World)
    : Outcome (User * AuthTokens) * World :=
  sign_in "/auth/register" credentials w.

(** [getCurrentUser] (lines 116-119) *)
Definition getCurrentUser (w : World) : Outcome User * World :=
  match get "/auth/me" w with
  | (Fulfilled body, w1) => (Fulfilled (as_user body), w1)
  | (RejectedWith e, w1) => (RejectedWith e, w1)
  | (Pending, w1) => (Pending, w1)
  end.
End Methods.

End Session.

(** ** The authentication context ([contexts/AuthContext.tsx]) *)

Module AuthContext.

(** [AuthState], as the reducer and [initialState] use it; the declaration
    in [types/auth.ts] is not among the sources. *)
Record AuthState : Type := mkState {
  user : option Session.User;
  tokens : option ApiClient.AuthTokens;
  isAuthenticated : bool;
  isLoading : bool
}.

Inductive AuthAction : Type :=
| SET_LOADING (payload : bool)
| SET_USER (payload : Session.User)
| SET_TOKENS (payload : ApiClient.AuthTokens)
| SET_AUTH_DATA (payload_user : Session.User)
    (payload_tokens : ApiClient.AuthTokens)
| CLEAR_AUTH.

(** [authReducer] (lines 21-56) *)
Definition authReducer (state : AuthState) (action : AuthAction) : AuthState :=
  match action with
  | SET_LOADING payload =>
      mkState (user state) (tokens state) (isAuthenticated state) payload
  | SET_USER payload =>
      mkState (Some payload) (tokens state) true false
  | SET_TOKENS payload =>
      mkState (user state) (Some payload) true (isLoading state)
  | SET_AUTH_DATA payload_user payload_tokens =>
      mkState (Some payload_user) (Some payload_tokens) true false
  | CLEAR_AUTH => mkState None None false false
  end.

Definition initialState : AuthState := mkState None None false true.

(** The provider's state next to the API client it drives. *)
Record World : Type := mkWorld {
  state : AuthState;
  client : ApiClient.World;
  console_errors : nat
}.

Definition dispatch (action : AuthAction) (w : World) : World :=
  mkWorld (authReducer (state w) action) (client w) (console_errors w).

Definition with_client (c : ApiClient.World) (w : World) : World :=
  mkWorld (state w) c (console_errors w).

Definition console_error (w : World) : World :=
  mkWorld (state w) (client w) (S (console_errors w)).

Section Provider.
Variable net : ApiClient.Network.
Variable fuel : nat.

(** [initializeAuth] (lines 74-89) *)
Definition initializeAuth (w : World) : ApiClient.Outcome unit * World :=
  if ApiClient.isAuthenticated (client w) then
    match Session.getCurrentUser net fuel (client w) with
    | (ApiClient.Fulfilled current, c1) =>
        let w1 := with_client c1 w in
        let w2 :=
          match ApiClient.getTokens c1 with
          | Some t => dispatch (SET_AUTH_DATA current t) w1
          | None => w1
          end in
        (ApiClient.Fulfilled tt, dispatch (SET_LOADING false) w2)
    | (ApiClient.RejectedWith _, c1) =>
        (ApiClient.Fulfilled tt,
         dispatch (SET_LOADING false)
           (dispatch CLEAR_AUTH (console_error (with_client c1 w))))
    | (ApiClient.Pending, c1) => (ApiClient.Pending, with_client c1 w)
    end
  else (ApiClient.Fulfilled tt, dispatch (SET_LOADING false) w).

(** [login] (lines 94-103) *)
Definition login (credentials : list (string * string)) (w : World)
    : ApiClient.Outcome unit * World :=
  let w0 := dispatch (SET_LOADING true) w in
  match Session.login net fuel credentials (client w0) with
  | (ApiClient.Fulfilled (who, t), c1) =>
      (ApiClient.Fulfilled tt,
       dispatch (SET_AUTH_DATA who t) (with_client c1 w0))
  | (ApiClient.RejectedWith e, c1) =>
      (ApiClient.RejectedWith e,
       dispatch (SET_LOADING false) (with_client c1 w0))
  | (ApiClient.Pending, c1) => (ApiClient.Pending, with_client c1 w0)
  end.

(** [logout] (lines 116-124) *)
Definition logout (w : World) : ApiClient.Outcome unit * World :=
  match ApiClient.logout net fuel (client w) with
  | (ApiClient.Fulfilled _, c1) =>
      (ApiClient.Fulfilled tt, dispatch CLEAR_AUTH (with_client c1 w))
  | (ApiClient.RejectedWith _, c1) =>
      (ApiClient.Fulfilled tt,
       dispatch CLEAR_AUTH (console_error (with_client c1 w)))
  | (ApiClient.Pending, c1) => (ApiClient.Pending, with_client c1 w)
  end.

(** [refreshUser] (lines 126-136) *)
Definition refreshUser (w : World) : ApiClient.Outcome unit * World :=
  if ApiClient.isAuthenticated (client w) then
    match Session.getCurrentUser net fuel (client w) with
    | (ApiClient.Fulfilled current, c1) =>
        (ApiClient.Fulfilled tt, dispatch (SET_USER current) (with_client c1 w))
    | (ApiClient.RejectedWith _, c1) =>
        (ApiClient.Fulfilled tt,
         dispatch CLEAR_AUTH (console_error (with_client c1 w)))
    | (ApiClient.Pending, c1) => (ApiClient.Pending, with_client c1 w)
    end
  else (ApiClient.Fulfilled tt, w).
End Provider.

End AuthContext.


(** ** More concrete inputs *)

Module Scenario.

Definition login_body : JsonValue :=
  JObject [("user", JObject [("id", JString "user-1");
                             ("username", JString "testuser");
                             ("email", JString "test@example.com")]);
           ("access_token", JString "access-1");
           ("refresh_token", JString "refresh-1")].

(** A server that answers every request with the login response. *)
Definition login_server : ApiClient.Network :=
  fun log => ApiClient.HttpResponse 200 login_body.

Definition credentials : list (string * string) :=
  [("email", "test@example.com"); ("password", "secret")].

Definition signed_out : ApiClient.World :=
  ApiClient.mkWorld None ∅ "/login" [] 0.

Definition test_user : Session.User :=
  Session.mkUser "user-1" "testuser" "test@example.com".

Definition fresh_provider : AuthContext.World :=
  AuthContext.mkWorld AuthContext.initialState Examples.signed_in 0.

End Scenario.


(** ** The progress context ([contexts/ProgressContext.tsx]) *)

Module ProgressContext.

Inductive Status : Type := not_started | in_progress | completed.

(** [UserProgress] ([types/progress.ts], lines 37-46) *)
Record UserProgress : Type := mkProgress {
  id : string;
  user_id : string;
  lesson_id : string;
  status : Status;
  completion_date : option string;
  time_spent : Z;
  score : Z;
  attempts : Z
}.

(** [Partial<UserProgress>]: every field may be left out. *)
Record ProgressUpdate : Type := mkUpdate {
  new_id : option string;
  new_user_id : option string;
  new_lesson_id : option string;
  new_status : option Status;
  new_completion_date : option string;
  new_time_spent : option Z;
  new_score : option Z;
  new_attempts : option Z
}.

(** The names every plain object inherits from [Object.prototype]. *)
Definition object_prototype_names : list string :=
  ["constructor"; "__defineGetter__"; "__defineSetter__"; "hasOwnProperty";
   "__lookupGetter__"; "__lookupSetter__"; "isPrototypeOf";
   "propertyIsEnumerable"; "toString"; "valueOf"; "__proto__";
   "toLocaleString"].

Definition inherited (key : string) : bool :=
  bool_decide (key ∈ object_prototype_names).

(** A [Record<string, UserProgress>] as the code builds it: a plain
    object, with its own properties and, once an entry was assigned under
    the name [__proto__], that entry as its prototype (on an object
    without such a property of its own the assignment sets the prototype
    and creates no property). *)
Record ProgressRecord : Type := mkRecord {
  own : gmap string UserProgress;
  installed : option UserProgress
}.

(** [{}] *)
Definition empty_record : ProgressRecord := mkRecord ∅ None.

(** [record[key] = progress] *)
Definition assign (key : string) (progress : UserProgress)
    (record : ProgressRecord) : ProgressRecord :=
  if String.eqb key "__proto__"
     && negb (bool_decide (is_Some (own record !! key)))
  then mkRecord (own record) (Some progress)
  else mkRecord (<[key := progress]> (own record)) (installed record).

(** [{ ...record, [key]: progress }]: a new object with the own properties
    of [record] and the computed key, which defines an own property
    whatever its name; the prototype of [record] is not copied. *)
Definition spread_with (key : string) (progress : UserProgress)
    (record : ProgressRecord) : ProgressRecord :=
  mkRecord (<[key := progress]> (own record)) None.

(** What [record[key]] gives: a progress entry, some other value (a member
    of [Object.prototype], the prototype itself, or a field of the entry
    installed as prototype) with its truthiness, or [undefined]. *)
Inductive Member : Type :=
| Entry (progress : UserProgress)
| Foreign (truthy : bool)
| Missing.

(** The truthiness of the field [key] of an entry, if it has that field. *)
Definition field_truthy (progress : UserProgress) (key : string)
    : option bool :=
  if String.eqb key "id" then Some (Js.truthy (id progress))
  else if String.eqb key "user_id" then Some (Js.truthy (user_id progress))
  else if String.eqb key "lesson_id" then Some (Js.truthy (lesson_id progress))
  else if String.eqb key "status" then Some true
  else if String.eqb key "completion_date"
  then option_map Js.truthy (completion_date progress)
  else if String.eqb key "time_spent"
  then Some (negb (time_spent progress =? 0))
  else if String.eqb key "score" then Some (negb (score progress =? 0))
  else if String.eqb key "attempts" then Some (negb (attempts progress =? 0))
  else None.

Definition inherited_member (key : string) : Member :=
  if inherited key then Foreign true else Missing.

(** [record[key]]: own properties first, then the prototype chain. *)
Definition lookup (record : ProgressRecord) (key : string) : Member :=
  match own record !! key with
  | Some progress => Entry progress
  | None =>
      match installed record with
      | Some prototype =>
          if String.eqb key "__proto__" then Entry prototype
          else
            match field_truthy prototype key with
            | Some truthy => Foreign truthy
            | None => inherited_member key
            end
      | None => inherited_member key
      end
  end.

(** [progressMap] of [loadUserProgress] (lines 111-115): each entry is
    assigned under its lesson id, in list order. *)
Definition progressMap (progressData : list UserProgress) : ProgressRecord :=
  foldl (fun record progress => assign (lesson_id progress) progress record)
    empty_record progressData.

(** [{ defaults, ...currentProgress, ...progressUpdate }] for one field. *)
Definition spread {A B : Type} (field : B -> A) (current : option B)
    (update : option A) (default : A) : A :=
  match update with
  | Some value => value
  | None =>
      match current with
      | Some progress => field progress
      | None => default
      end
  end.

(** [updatedProgress] of [updateLessonProgress] (lines 188-199);
    [signed_in] is [user?.id]. *)
Definition updatedProgress (signed_in : option string)
    (current : option UserProgress) (lessonId : string)
    (update : ProgressUpdate) : UserProgress :=
  mkProgress
    (spread id current (new_id update) "")
    (spread user_id current (new_user_id update) (Js.or_else signed_in ""))
    (spread lesson_id current (new_lesson_id update) lessonId)
    (spread status current (new_status update) in_progress)
    (match new_completion_date update with
     | Some date => Some date
     | None =>
         match current with
         | Some progress => completion_date progress
         | None => None
         end
     end)
    (spread time_spent current (new_time_spent update) 0)
    (spread score current (new_score update) 0)
    (spread attempts current (new_attempts update) 0).

(** Every entry sits under its own lesson id. *)
Definition well_keyed (record : ProgressRecord) : Prop :=
  (forall key progress,
     own record !! key = Some progress -> lesson_id progress = key)
  /\ (forall prototype,
        installed record = Some prototype ->
        lesson_id prototype = "__proto__").

Section Reducer.
(** [LearningModule] is only stored and handed on. *)
Variable LearningModule : Type.

Record ProgressState : Type := mkState {
  modules : list LearningModule;
  userProgress : ProgressRecord;
  bookmarks : list string;
  isLoading : bool
}.

Inductive ProgressAction : Type :=
| SET_LOADING (payload : bool)
| SET_MODULES (payload : list LearningModule)
| SET_USER_PROGRESS (payload : ProgressRecord)
| UPDATE_LESSON_PROGRESS (payload : UserProgress)
| SET_BOOKMARKS (payload : list string)
| ADD_BOOKMARK (payload : string)
| REMOVE_BOOKMARK (payload : string)
| CLEAR_PROGRESS.

(** [progressReducer] (lines 30-68) *)
Definition progressReducer (state : ProgressState) (action : ProgressAction)
    : ProgressState :=
  match action with
  | SET_LOADING payload =>
      mkState (modules state) (userProgress state) (bookmarks state) payload
  | SET_MODULES payload =>
      mkState payload (userProgress state) (bookmarks state) false
  | SET_USER_PROGRESS payload =>
      mkState (modules state) payload (bookmarks state) (isLoading state)
  | UPDATE_LESSON_PROGRESS payload =>
      mkState (modules state)
        (spread_with (lesson_id payload) payload (userProgress state))
        (bookmarks state) (isLoading state)
  | SET_BOOKMARKS payload =>
      mkState (modules state) (userProgress state) payload (isLoading state)
  | ADD_BOOKMARK payload =>
      mkState (modules state) (userProgress state)
        (bookmarks state ++ [payload]) (isLoading state)
  | REMOVE_BOOKMARK payload =>
      mkState (modules state) (userProgress state)
        (filter (fun bookmark => bookmark <> payload) (bookmarks state))
        (isLoading state)
  | CLEAR_PROGRESS => mkState [] empty_record [] false
  end.

Definition initialState : ProgressState := mkState [] empty_record [] false.

(** [getUserProgress] (lines 208-210):
    [state.userProgress[lessonId] || null], where [Missing] stands for
    [null]. *)
Definition getUserProgress (state : ProgressState) (lessonId : string)
    : Member :=
  match lookup (userProgress state) lessonId with
  | Foreign false => Missing
  | found => found
  end.

(** [currentProgress] as the object literal of [updateLessonProgress]
    reads it: a value that is no entry has no [id] and spreads none of the
    fields of [UserProgress]. *)
Definition currentProgress (state : ProgressState) (lessonId : string)
    : option UserProgress :=
  match lookup (userProgress state) lessonId with
  | Entry progress => Some progress
  | _ => None
  end.

(** [updateLessonProgress] (lines 186-206): the action it dispatches. *)
Definition updateLessonProgress (signed_in : option string)
    (state : ProgressState) (lessonId : string) (update : ProgressUpdate)
    : ProgressState :=
  progressReducer state
    (UPDATE_LESSON_PROGRESS
       (updatedProgress signed_in (currentProgress state lessonId)
          lessonId update)).

(** The actions the provider dispatches: the payload of
    [SET_USER_PROGRESS] is always a [progressMap]. *)
Definition from_provider (action : ProgressAction) : Prop :=
  match action with
  | SET_USER_PROGRESS payload => exists data, payload = progressMap data
  | _ => True
  end.
End Reducer.

End ProgressContext.


(** ** Formatting the elapsed time ([ExerciseDisplay.tsx] lines 81-85,
    [ExerciseProgress.tsx] lines 17-21) *)

Module Format.

Fixpoint zeros (n : nat) : string :=
  match n with
  | O => ""
  | S m => "0" +:+ zeros m
  end.

(** [s.padStart(targetLength, '0')] *)
Definition padStart (targetLength : nat) (s : string) : string :=
  zeros (targetLength - String.length s) +:+ s.

(** [Number.MAX_SAFE_INTEGER], [2^53 - 1]: up to it every whole number is
    a JavaScript number, and the quotient by 60, its floor, the remainder
    and the decimal text of a whole number are exact. *)
Definition max_safe_integer : Z := 9007199254740991.

(** [formatTime] for a whole number of seconds within the safe integers:
    [Math.floor(seconds / 60)], [seconds % 60] (the remainder has the sign
    of [seconds]) and the decimal text of both.  Fractions of a second and
    larger numbers are not represented. *)
Definition formatTime (seconds : Z) : string :=
  pretty (seconds / 60) +:+ ":" +:+ padStart 2 (pretty (Z.rem seconds 60)).

Definition digit_value (c : ascii) : Z := Z.of_N (N_of_ascii c) - 48.

(** The number a two-character field of digits stands for. *)
Definition two_digits (s : string) : Z :=
  match s with
  | String tens (String units EmptyString) =>
      10 * digit_value tens + digit_value units
  | _ => -1
  end.

End Format.

(** ** What the hints panel shows ([ExerciseHints.tsx] lines 125, 169) *)

Module HintsView.
Import ExerciseHints.

(** [array.slice(0, end)]: a negative [end] counts from the back. *)
Definition slice_to (stop : Z) (l : list string) : list string :=
  if stop <? 0 then take (length l - Z.to_nat (- stop)) l
  else take (Z.to_nat stop) l.

(** [availableHints.slice(0, revealedHints)] *)
Definition visible_hints (s : State) : list string :=
  slice_to (revealedHints s) (availableHints s).

(** The "All hints revealed" banner of lines 169-180. *)
Definition all_revealed (s : State) : bool :=
  (revealedHints s =? hint_count s) && (0 <? hint_count s).

(** What the component returns (lines 79-183): the spinner while loading,
    the "No hints available" note for an empty list, and otherwise the
    panel with the revealed hints, what stands under them and the
    banner. *)
Inductive Panel : Type :=
| Spinner
| NoHints
| HintsPanel (shown : list string) (next : NextHint) (banner : bool).

Definition render (attempts : Z) (s : State) : Panel :=
  if isLoading s then Spinner
  else if hint_count s =? 0 then NoHints
  else HintsPanel (visible_hints s) (next_hint attempts s) (all_revealed s).

End HintsView.

(** ** The progress cards ([components/exercise/ExerciseProgress.tsx]) *)

Module ExerciseProgress.

(** [getAttemptColor] (lines 33-38) *)
Definition getAttemptColor (attempts : Z) : string :=
  if attempts =? 0 then "text-gray-500"
  else if attempts <=? 2 then "text-green-600"
  else if attempts <=? 5 then "text-yellow-600"
  else "text-red-600".

(** The spans of lines 68-71 that are rendered. *)
Definition attempt_messages (attempts : Z) : list string :=
  (if attempts =? 0 then ["No attempts yet"] else [])
  ++ (if (0 <? attempts) && (attempts <=? 2) then ["Great start!"] else [])
  ++ (if (2 <? attempts) && (attempts <=? 5) then ["Keep trying!"] else [])
  ++ (if 5 <? attempts then ["Consider reviewing hints"] else []).

(** [getTimeColor] (lines 40-44) *)
Definition getTimeColor (timeSpent : Z) : string :=
  if timeSpent <? 300 then "text-green-600"
  else if timeSpent <? 900 then "text-yellow-600"
  else "text-red-600".

(** The spans of lines 93-95 that are rendered. *)
Definition time_messages (timeSpent : Z) : list string :=
  (if timeSpent <? 300 then ["Quick work!"] else [])
  ++ (if (300 <=? timeSpent) && (timeSpent <? 900) then ["Good pace"] else [])
  ++ (if 900 <=? timeSpent then ["Take your time"] else []).

End ExerciseProgress.

(** ** Inputs for the progress context *)

Module ProgressScenario.

Definition first_visit : ProgressContext.UserProgress :=
  ProgressContext.mkProgress "p-1" "user-1" "lesson-1"
    ProgressContext.in_progress None 120 0 1.

Definition loaded : ProgressContext.ProgressAction unit :=
  ProgressContext.SET_USER_PROGRESS unit
    (ProgressContext.progressMap [first_visit]).

Definition completed_update : ProgressContext.ProgressUpdate :=
  ProgressContext.mkUpdate None None None (Some ProgressContext.completed)
    (Some "2024-01-01") None (Some 10) None.

End ProgressScenario.


(** ** A server that rejects every token *)

Module Lockout.

(** Every request, the refresh included, is answered 401. *)
Definition always_unauthorized : ApiClient.Network :=
  fun log => ApiClient.HttpResponse 401 JNull.

(** The refresh endpoint never answers 401 (it may fail otherwise). *)
Definition refresh_never_unauthorized (net : ApiClient.Network) : Prop :=
  forall log cfg,
    ApiClient.url cfg = "/auth/refresh" ->
    ApiClient.failure_status (net (log ++ [cfg])) <> Some (Some 401).

End Lockout.


(** ** The code editor on the API client

    [CodeEditor.executeCode] and [validateExercise] await
    [apiClient.executeCode] and [apiClient.validateExercise].  A handler
    resumes when the promise has settled; until then it has done what comes
    before its [await]. *)

Module Wired.
Import Async.

Section Wiring.
Variable net : ApiClient.Network.
Variable fuel : nat.
(** What a [catch] clause sees of a rejection of the client. *)
Variable thrown_of : ApiClient.ApiError -> Js.Thrown.
(** [response.data] as the caller types it; the cast is not checked. *)
Variable as_execution_result : JsonValue -> CodeExecutionResult.
Variable as_validation_result : JsonValue -> ExerciseValidationResult.

(** What [await] resumes with, if the promise has settled. *)
Definition awaited {A : Type} (read : JsonValue -> A)
    (promise : ApiClient.Outcome JsonValue) : option (Js.Settled A) :=
  match promise with
  | ApiClient.Fulfilled body => Some (Js.Resolved (read body))
  | ApiClient.RejectedWith e => Some (Js.Rejected (thrown_of e))
  | ApiClient.Pending => None
  end.

(** A run of [executeCode] makes one call of the API, and so does a run of
    [validateExercise]; these are the APIs of a run in which that call
    gives [promise] (the other method is not called). *)
Definition execution_gives (promise : Js.Settled CodeExecutionResult)
    : CodeEditor.Api :=
  CodeEditor.mkApi (fun _ _ => promise) (fun _ _ => Js.Rejected Js.ThrownOther).

Definition validation_gives (promise : Js.Settled ExerciseValidationResult)
    : CodeEditor.Api :=
  CodeEditor.mkApi (fun _ _ => Js.Rejected Js.ThrownOther) (fun _ _ => promise).

(** [executeCode] as far as its [await] (lines 59-62). *)
Definition executeCode_until_await (props : CodeEditor.Props)
    : M CodeEditor.World unit :=
  current ← gets (fun w => CodeEditor.code (CodeEditor.state w));
  CodeEditor.setState (fun prev =>
    CodeEditor.mkState (CodeEditor.code prev) true
      (CodeEditor.isValidating prev) None (CodeEditor.validationResult prev)
      (CodeEditor.showHints prev) (CodeEditor.hints prev));;
  modify (CodeEditor.emit
            (CodeEditor.ApiExecuteCode current (CodeEditor.language props))).

(** [validateExercise] as far as its [await] (lines 80-85), past the test
    of the exercise id. *)
Definition validateExercise_until_await (exercise_id : string)
    : M CodeEditor.World unit :=
  current ← gets (fun w => CodeEditor.code (CodeEditor.state w));
  CodeEditor.setState (fun prev =>
    CodeEditor.mkState (CodeEditor.code prev) (CodeEditor.isExecuting prev)
      true (CodeEditor.executionResult prev) None (CodeEditor.showHints prev)
      (CodeEditor.hints prev));;
  modify (CodeEditor.emit (CodeEditor.ApiValidateExercise exercise_id current)).

(** A click on Run, with the client in state [cw]: the completion of the
    handler if it has run to its end, [None] while it waits at its
    [await]; the editor and the client afterwards. *)
Definition run_click (props : CodeEditor.Props) (cw : ApiClient.World)
    (w : CodeEditor.World)
    : option (Completion unit) * CodeEditor.World * ApiClient.World :=
  let current := CodeEditor.code (CodeEditor.state w) in
  let '(promise, cw1) :=
    ApiClient.executeCode net fuel current (CodeEditor.language props) cw in
  match awaited as_execution_result promise with
  | Some settled =>
      let '(completion, w1) :=
        CodeEditor.executeCode props (execution_gives settled) w in
      (Some completion, w1, cw1)
  | None => (None, snd (executeCode_until_await props w), cw1)
  end.

(** A click on Submit in the editor. *)
Definition submit_click (props : CodeEditor.Props) (cw : ApiClient.World)
    (w : CodeEditor.World)
    : option (Completion unit) * CodeEditor.World * ApiClient.World :=
  match CodeEditor.usable_exerciseId props with
  | None => (Some (Normal tt), w, cw)
  | Some exercise_id =>
      let current := CodeEditor.code (CodeEditor.state w) in
      let '(promise, cw1) :=
        ApiClient.validateExercise net fuel exercise_id current cw in
      match awaited as_validation_result promise with
      | Some settled =>
          let '(completion, w1) :=
            CodeEditor.validateExercise props (validation_gives settled) w in
          (Some completion, w1, cw1)
      | None => (None, snd (validateExercise_until_await exercise_id w), cw1)
      end
  end.
End Wiring.

End Wired.


(** * Properties *)

(** ** Progressive hints *)

Section HintProperties.
Import ExerciseHints.

Lemma hintsToReveal_bounds (a : Z) (h : list string) :
  0 <= a ->
  0 <= hintsToReveal a h <= Z.of_nat (length h) /\ 2 * hintsToReveal a h <= a.
Proof.
  intros Ha. unfold hintsToReveal.
  assert (Hdiv : 0 <= a / 2) by (apply Z.div_pos; lia).
  assert (Hfloor : 2 * (a / 2) <= a) by (apply Z.mul_div_le; lia).
  lia.
Qed.

Lemma button_never_unlocked_when_settled (c : Config) :
  settled c -> next_hint (attempts c) (hooks c) <> RevealButton.
Proof.
  unfold settled, next_hint, hint_count, hintsToReveal. intros Hs.
  destruct (revealedHints (hooks c) <? _) eqn:Hlt; [|discriminate].
  apply Z.ltb_lt in Hlt.
  destruct (_ <=? attempts c) eqn:Hle; [|discriminate].
  apply Z.leb_le in Hle. exfalso.
  pose proof (Z.mul_succ_div_gt (attempts c) 2 ltac:(lia)) as Hgt.
  lia.
Qed.

Lemma step_settled (c : Config) (e : Event) : settled c -> settled (step c e).
Proof.
  intros Hs. destruct e as [a'| |props_hints response|]; simpl.
  - case_bool_decide; [assumption|reflexivity].
  - exact Hs.
  - case_bool_decide as Hlen; [|reflexivity].
    unfold settled in *. simpl. rewrite Hs. unfold hintsToReveal.
    now rewrite Hlen.
  - pose proof (button_never_unlocked_when_settled c Hs) as Hno.
    destruct (next_hint (attempts c) (hooks c)); try assumption.
    now contradiction Hno.
Qed.

Lemma run_settled (events : list Event) (c : Config) :
  settled c -> settled (run c events).
Proof.
  revert c. induction events as [|e events IH]; intros c Hs; simpl.
  - exact Hs.
  - apply IH, step_settled, Hs.
Qed.

End HintProperties.

(** C7. Hint revelation is a function of the attempt count and the hint
    list.  For an attempt count [a >= 0] and hints [h] the automatically
    revealed count is [min (floor (a / 2)) (length h)], which lies between
    [0] and the number of hints.  The component computes it: in every
    state it reaches, from any mount and through any changes of the
    attempts, loads of hints and clicks, the revealed count is that of its
    current attempts and hint list, so with [a] attempts and the hints [h]
    it is [min (floor (a / 2)) (length h)], and it never exceeds the number
    of available hints; a change of the attempts to [a] and a load of hints
    are taken over and followed by the count, and a click changes nothing.
    The reveal-next button is rendered only when
    [a >= (revealed + 1) * 2], and its handler keeps the count within the
    available hints. *)
Theorem hint_revelation_attempts_gated (a : Z) (h : list string) :
  0 <= a ->
  ExerciseHints.hintsToReveal a h = Z.min (a / 2) (Z.of_nat (length h))
  /\ 0 <= ExerciseHints.hintsToReveal a h <= Z.of_nat (length h)
  /\ 2 * ExerciseHints.hintsToReveal a h <= a
  /\ (forall attempts0 events,
        let c := ExerciseHints.run (ExerciseHints.mount attempts0) events in
        let s := ExerciseHints.hooks c in
        ExerciseHints.revealedHints s
        = ExerciseHints.hintsToReveal (ExerciseHints.attempts c)
            (ExerciseHints.availableHints s)
        /\ ExerciseHints.revealedHints s <= ExerciseHints.hint_count s
        /\ (ExerciseHints.attempts c = a ->
            ExerciseHints.availableHints s = h ->
            ExerciseHints.revealedHints s
            = Z.min (a / 2) (Z.of_nat (length h))
            /\ 0 <= ExerciseHints.revealedHints s <= Z.of_nat (length h))
        /\ (let c' := ExerciseHints.step c (ExerciseHints.AttemptsChanged a) in
            ExerciseHints.attempts c' = a
            /\ ExerciseHints.availableHints (ExerciseHints.hooks c')
               = ExerciseHints.availableHints s
            /\ ExerciseHints.revealedHints (ExerciseHints.hooks c')
               = Z.min (a / 2)
                   (Z.of_nat (length (ExerciseHints.availableHints s))))
        /\ (forall props_hints response,
              let c' :=
                ExerciseHints.step c
                  (ExerciseHints.HintsLoaded props_hints response) in
              ExerciseHints.attempts c' = ExerciseHints.attempts c
              /\ ExerciseHints.availableHints (ExerciseHints.hooks c')
                 = ExerciseHints.loaded_hints props_hints response
              /\ ExerciseHints.revealedHints (ExerciseHints.hooks c')
                 = Z.min (ExerciseHints.attempts c / 2)
                     (Z.of_nat
                        (length
                           (ExerciseHints.loaded_hints props_hints response))))
        /\ ExerciseHints.step c ExerciseHints.RevealClicked = c)
  /\ (forall a' s,
        ExerciseHints.next_hint a' s = ExerciseHints.RevealButton ->
        a' >= (ExerciseHints.revealedHints s + 1) * 2)
  /\ (forall s,
        ExerciseHints.revealedHints s <= ExerciseHints.hint_count s ->
        ExerciseHints.revealedHints (ExerciseHints.revealNextHint s)
        <= ExerciseHints.hint_count (ExerciseHints.revealNextHint s)).
Proof.
  intros Ha.
  destruct (hintsToReveal_bounds a h Ha) as [Hrange Hfloor].
  split; [reflexivity|]. split; [exact Hrange|]. split; [exact Hfloor|].
  split; [|split].
  - intros attempts0 events c s.
    assert (Hs : ExerciseHints.settled c) by (apply run_settled; reflexivity).
    assert (Hfollows : forall e, ExerciseHints.settled (ExerciseHints.step c e))
      by (intros e; apply step_settled, Hs).
    split; [exact Hs|]. split.
    { unfold ExerciseHints.settled in Hs. fold s in Hs. rewrite Hs.
      unfold ExerciseHints.hintsToReveal, ExerciseHints.hint_count. lia. }
    split.
    { intros Hattempts Hhints. unfold ExerciseHints.settled in Hs.
      fold s in Hs. rewrite Hs, Hattempts, Hhints.
      split; [reflexivity|exact Hrange]. }
    split; [|split].
    + intros c'. unfold c'.
      pose proof (Hfollows (ExerciseHints.AttemptsChanged a)) as Hnext.
      unfold ExerciseHints.settled in Hnext. rewrite Hnext.
      simpl. case_bool_decide as Hsame.
      * rewrite <- Hsame. repeat split.
      * repeat split.
    + intros props_hints response c'. unfold c'.
      pose proof (Hfollows (ExerciseHints.HintsLoaded props_hints response))
        as Hnext.
      unfold ExerciseHints.settled in Hnext. rewrite Hnext.
      simpl. case_bool_decide; repeat split.
    + simpl. pose proof (button_never_unlocked_when_settled c Hs) as Hno.
      destruct (ExerciseHints.next_hint _ _); try reflexivity.
      now contradiction Hno.
  - intros a' s. unfold ExerciseHints.next_hint.
    destruct (_ <? _); [|discriminate].
    destruct (_ <=? a') eqn:Hle; [|discriminate].
    apply Z.leb_le in Hle. lia.
  - intros s Hs. unfold ExerciseHints.revealNextHint.
    destruct (_ <? _) eqn:Hlt; [|exact Hs].
    apply Z.ltb_lt in Hlt.
    unfold ExerciseHints.hint_count in *. simpl. lia.
Qed.

Lemma hint_revelation_attempts_gated_witness :
  0 <= 5
  /\ ExerciseHints.hintsToReveal 5
       ["Import Flask"; "Create an app instance"; "Add a route decorator"]
     = Z.min (5 / 2) 3
  /\ ExerciseHints.revealedHints
       (ExerciseHints.hooks
          (ExerciseHints.run (ExerciseHints.mount 0)
             [ExerciseHints.HintsLoaded []
                (ExerciseHints.HintsArray
                   ["Import Flask"; "Create an app instance";
                    "Add a route decorator"]);
              ExerciseHints.AttemptsChanged 5]))
     = 2.
Proof.
  split; [lia|].
  pose proof (hint_revelation_attempts_gated 5
                ["Import Flask"; "Create an app instance";
                 "Add a route decorator"] ltac:(lia))
    as (Hcount & _ & _ & Hreached & _).
  split; [exact Hcount|].
  destruct (Hreached 0
              [ExerciseHints.HintsLoaded []
                 (ExerciseHints.HintsArray
                    ["Import Flask"; "Create an app instance";
                     "Add a route decorator"]);
               ExerciseHints.AttemptsChanged 5])
    as (_ & _ & Hhere & _).
  exact (proj1 (Hhere eq_refl eq_refl)).
Defined.

(** ** The editor and the exercise view *)

Section EditorProperties.
Import Async.

Ltac run_handler :=
  unfold try_finally, try_catch, call_optional, await, throw, gets, modify,
    mbind, mret, M_bind, M_ret;
  simpl.

Lemma executeCode_final_state (props : CodeEditor.Props)
    (api : CodeEditor.Api) (w : CodeEditor.World) :
  let s := CodeEditor.state w in
  CodeEditor.state (snd (CodeEditor.executeCode props api w))
  = CodeEditor.mkState (CodeEditor.code s) false (CodeEditor.isValidating s)
      (Some (CodeEditor.execution_stored props api (CodeEditor.code s)))
      (CodeEditor.validationResult s) (CodeEditor.showHints s)
      (CodeEditor.hints s).
Proof.
  unfold CodeEditor.executeCode, CodeEditor.setState, CodeEditor.execution_stored.
  run_handler.
  destruct (CodeEditor.api_executeCode api _ _) as [result|error]; simpl.
  - destruct (CodeEditor.onExecute props) as [callback|]; simpl;
      [|reflexivity].
    destruct (callback result) as [error|]; simpl; [|reflexivity].
    destruct (callback (CodeEditor.errorResult_execute error));
      reflexivity.
  - destruct (CodeEditor.onExecute props) as [callback|]; simpl;
      [|reflexivity].
    destruct (callback (CodeEditor.errorResult_execute error));
      reflexivity.
Qed.

Lemma validateExercise_final_state (props : CodeEditor.Props)
    (api : CodeEditor.Api) (w : CodeEditor.World) (exercise_id : string) :
  CodeEditor.usable_exerciseId props = Some exercise_id ->
  let s := CodeEditor.state w in
  CodeEditor.state (snd (CodeEditor.validateExercise props api w))
  = CodeEditor.mkState (CodeEditor.code s) (CodeEditor.isExecuting s) false
      (CodeEditor.executionResult s)
      (Some (CodeEditor.validation_stored props api exercise_id (CodeEditor.code s)))
      (CodeEditor.showHints s) (CodeEditor.hints s).
Proof.
  intros Hid.
  unfold CodeEditor.validateExercise, CodeEditor.setState, CodeEditor.validation_stored.
  rewrite Hid. run_handler.
  destruct (CodeEditor.api_validateExercise api _ _) as [result|error]; simpl.
  - destruct (CodeEditor.onValidate props) as [callback|]; simpl;
      [|reflexivity].
    destruct (callback result) as [error|]; simpl; [|reflexivity].
    destruct (callback (CodeEditor.errorResult_validate error));
      reflexivity.
  - destruct (CodeEditor.onValidate props) as [callback|]; simpl;
      [|reflexivity].
    destruct (callback (CodeEditor.errorResult_validate error));
      reflexivity.
Qed.

Lemma handleSubmit_final_state (env : ExerciseDisplay.Env)
    (w : ExerciseDisplay.World) :
  is_Some (ExerciseDisplay.user env) ->
  ExerciseDisplay.blank (ExerciseDisplay.code (ExerciseDisplay.state w)) = false ->
  let s := ExerciseDisplay.state w in
  ExerciseDisplay.state (snd (ExerciseDisplay.handleSubmit env w))
  = ExerciseDisplay.mkState (ExerciseDisplay.code s) false
      (Some (ExerciseDisplay.submission_stored env (ExerciseDisplay.code s)))
      (ExerciseDisplay.showHints s) (ExerciseDisplay.attempts s + 1)
      (ExerciseDisplay.timeSpent s).
Proof.
  intros Huser Hcode.
  unfold ExerciseDisplay.handleSubmit, ExerciseDisplay.submission_stored.
  unfold ExerciseDisplay.setIsSubmitting, ExerciseDisplay.setAttempts,
    ExerciseDisplay.setValidationResult, ExerciseDisplay.emit.
  run_handler. rewrite Hcode, bool_decide_eq_true_2 by assumption. simpl.
  destruct (ExerciseDisplay.api_validateExercise env _ _) as [result|error];
    simpl; [|reflexivity].
  destruct (success result); simpl; [|reflexivity].
  destruct (ExerciseDisplay.submitExercise env _ _) as [[]|error]; simpl;
    [|reflexivity].
  destruct (ExerciseDisplay.onComplete env) as [callback|]; simpl;
    [|reflexivity].
  destruct (callback result); reflexivity.
Qed.


End EditorProperties.

(** C9. Resetting the code editor puts the initial code back and clears
    the execution result and the validation result, and leaves the hints,
    [showHints], [isExecuting] and [isValidating] as they were; resetting
    the exercise view puts the starter code back and clears the validation
    result, and leaves the attempts counter, the elapsed time,
    [isSubmitting] and [showHints] as they were. *)
Theorem reset_frames_other_state
    (props : CodeEditor.Props) (w : CodeEditor.World)
    (env : ExerciseDisplay.Env) (dw : ExerciseDisplay.World) :
  (let s := CodeEditor.state w in
   let s' := CodeEditor.state (snd (CodeEditor.resetCode props w)) in
   CodeEditor.code s' = CodeEditor.initialCode props
   /\ CodeEditor.executionResult s' = None
   /\ CodeEditor.validationResult s' = None
   /\ CodeEditor.hints s' = CodeEditor.hints s
   /\ CodeEditor.showHints s' = CodeEditor.showHints s
   /\ CodeEditor.isExecuting s' = CodeEditor.isExecuting s
   /\ CodeEditor.isValidating s' = CodeEditor.isValidating s)
  /\ (let d := ExerciseDisplay.state dw in
      let d' := ExerciseDisplay.state (snd (ExerciseDisplay.handleReset env dw)) in
      ExerciseDisplay.code d'
      = Js.or_else (ExerciseDisplay.starter_code (ExerciseDisplay.exercise env)) ""
      /\ ExerciseDisplay.validationResult d' = None
      /\ ExerciseDisplay.attempts d' = ExerciseDisplay.attempts d
      /\ ExerciseDisplay.timeSpent d' = ExerciseDisplay.timeSpent d
      /\ ExerciseDisplay.isSubmitting d' = ExerciseDisplay.isSubmitting d
      /\ ExerciseDisplay.showHints d' = ExerciseDisplay.showHints d).
Proof.
  split.
  - unfold CodeEditor.resetCode, CodeEditor.setState, Async.call_optional,
      Async.modify, mbind, Async.M_bind, mret, Async.M_ret. simpl.
    destruct (CodeEditor.onCodeChange props) as [callback|]; simpl.
    + destruct (callback (CodeEditor.initialCode props)); simpl;
        repeat split.
    + repeat split.
  - unfold ExerciseDisplay.handleReset, ExerciseDisplay.setCode,
      ExerciseDisplay.setValidationResult, Async.modify, mbind, Async.M_bind.
    simpl. repeat split.
Qed.

(** ** The execution driver *)

Lemma runs_longer_than_true (ceiling : Q) (b : Service.Behaviour) :
  (forall t, Service.ends_at b = Some t -> (ceiling < t)%Q) ->
  Service.runs_longer_than ceiling b = true.
Proof.
  intros Hlate. unfold Service.runs_longer_than.
  destruct (Service.ends_at b) as [t|]; [|reflexivity].
  destruct (Qle_bool t ceiling) eqn:Hle; [|reflexivity].
  apply Qle_bool_iff in Hle. specialize (Hlate t eq_refl).
  exfalso. exact (Qlt_not_le _ _ Hlate Hle).
Qed.

Lemma driver_runs (sandbox_up : nat -> bool) (lim : Service.Limits)
    (b : Service.Behaviour) :
  sandbox_up 0%nat = true \/ sandbox_up 1%nat = true ->
  Service.driver sandbox_up lim b = Service.Ok (Service.run lim b).
Proof.
  unfold Service.driver. simpl. intros [Hup|Hup].
  - now rewrite Hup.
  - rewrite Hup. now destruct (sandbox_up 0%nat).
Qed.



(** C8. A run that does not finish within the configured timeout is
    reported with [success=false], the timeout marker as error text and an
    execution time equal to the timeout ceiling itself. *)
Theorem timeout_reports_ceiling
    (semantics : string -> Service.Behaviour) (sandbox_up : nat -> bool)
    (lim : Service.Limits) (code language : string) :
  Service.valid_code lim code = true ->
  sandbox_up 0%nat = true \/ sandbox_up 1%nat = true ->
  (forall t, Service.ends_at (semantics code) = Some t ->
             (Service.timeout lim < t)%Q) ->
  exists r,
    Service.execute semantics sandbox_up lim code language = Service.Ok r
    /\ exec_success r = false
    /\ exec_error r = Some Service.timeout_marker
    /\ execution_time r = Service.timeout lim.
Proof.
  intros Hvalid Hup Hlate. unfold Service.execute. rewrite Hvalid.
  rewrite (driver_runs _ _ _ Hup).
  eexists. split; [reflexivity|].
  unfold Service.run. rewrite (runs_longer_than_true _ _ Hlate).
  repeat split.
Qed.

Lemma timeout_reports_ceiling_witness :
  Service.valid_code Examples.limits "while True: pass" = true
  /\ (Examples.sandbox_always_up 0%nat = true
      \/ Examples.sandbox_always_up 1%nat = true)
  /\ exists r,
       Service.execute Examples.semantics Examples.sandbox_always_up
         Examples.limits "while True: pass" "python" = Service.Ok r
       /\ exec_success r = false
       /\ exec_error r = Some Service.timeout_marker
       /\ execution_time r = 2%Q.
Proof.
  split; [reflexivity|]. split; [left; reflexivity|].
  apply (timeout_reports_ceiling Examples.semantics
           Examples.sandbox_always_up Examples.limits
           "while True: pass" "python").
  - reflexivity.
  - left. reflexivity.
  - intros t Hends. discriminate Hends.
Defined.





(** ** The test harness *)

Section HarnessProperties.
Variable evaluate : string -> Service.TestCase -> Service.CaseOutcome.
Variable same_value : JsonValue -> JsonValue -> bool.
Variable code : string.

Let graded := Service.run_case evaluate same_value code.
Let passing := Service.passes evaluate same_value code.

Lemma run_case_passed (tc : Service.TestCase) :
  passed (graded tc) = passing tc.
Proof.
  unfold graded, passing, Service.run_case, Service.passes.
  destruct (evaluate code tc); reflexivity.
Qed.

Lemma run_case_name (tc : Service.TestCase) :
  test_name (graded tc) = Service.tc_name tc.
Proof.
  unfold graded, Service.run_case. destruct (evaluate code tc); reflexivity.
Qed.

Lemma run_case_expected (tc : Service.TestCase) :
  expected (graded tc) = Service.tc_expected tc.
Proof.
  unfold graded, Service.run_case. destruct (evaluate code tc); reflexivity.
Qed.

Lemma count_passed_filter (tcs : list Service.TestCase) :
  Service.count_passed (map graded tcs)
  = Z.of_nat (length (List.filter passing tcs)).
Proof.
  induction tcs as [|tc tcs IH]; [reflexivity|].
  simpl. rewrite IH, run_case_passed.
  destruct (passing tc); simpl length; lia.
Qed.

Lemma filter_at_most (tcs : list Service.TestCase) :
  (length (List.filter passing tcs) <= length tcs)%nat.
Proof.
  induction tcs as [|tc tcs IH]; simpl; [lia|].
  destruct (passing tc); simpl; lia.
Qed.

End HarnessProperties.

(** C1. For an exercise with [N] test cases of which the candidate passes
    exactly [k], [validate] returns [passed_tests = k], [total_tests = N]
    and [N] test results in the order of the test case definitions (same
    names, same expected values, and the verdict of each case), and
    [success] is true exactly when [k = N] and [N > 0]; with no test
    cases the result is not a success. *)
Theorem validate_aggregates_test_cases
    (content : string -> option Service.Exercise)
    (evaluate : string -> Service.TestCase -> Service.CaseOutcome)
    (same_value : JsonValue -> JsonValue -> bool)
    (lim : Service.Limits) (exercise_id code : string)
    (ex : Service.Exercise) :
  Service.valid_code lim code = true ->
  content exercise_id = Some ex ->
  let cases := Service.test_cases ex in
  let passing := Service.passes evaluate same_value code in
  let N := Z.of_nat (length cases) in
  let k := Z.of_nat (length (List.filter passing cases)) in
  exists r,
    Service.validate content evaluate same_value lim exercise_id code
    = Service.Ok r
    /\ passed_tests r = k
    /\ total_tests r = N
    /\ 0 <= k <= N
    /\ length (test_results r) = length cases
    /\ map test_name (test_results r) = map Service.tc_name cases
    /\ map expected (test_results r) = map Service.tc_expected cases
    /\ map passed (test_results r) = map passing cases
    /\ (success r = true <-> k = N /\ 0 < N)
    /\ (N = 0 -> success r = false).
Proof.
  intros Hvalid Hfound cases passing N k.
  unfold Service.validate. rewrite Hvalid, Hfound.
  eexists. split; [reflexivity|]. unfold Service.grade. simpl.
  fold cases. rewrite count_passed_filter. fold passing. fold k.
  rewrite length_map. fold N.
  pose proof (filter_at_most evaluate same_value code cases) as Hle.
  fold passing in Hle.
  assert (Hk : 0 <= k <= N) by (unfold k, N; lia).
  split; [reflexivity|]. split; [reflexivity|]. split; [exact Hk|].
  split; [reflexivity|].
  split; [rewrite map_map; apply map_ext; intros tc; apply run_case_name|].
  split; [rewrite map_map; apply map_ext; intros tc; apply run_case_expected|].
  split; [rewrite map_map; apply map_ext; intros tc; apply run_case_passed|].
  split.
  - rewrite andb_true_iff, Z.eqb_eq, Z.ltb_lt. reflexivity.
  - intros HN. rewrite HN. apply andb_false_r.
Qed.

Lemma validate_aggregates_test_cases_witness :
  Service.valid_code Examples.limits "def add(a, b): return a + b" = true
  /\ Examples.content "add" = Some Examples.add_exercise
  /\ exists r,
       Service.validate Examples.content Examples.correct_solution
         Examples.same_scalar Examples.limits "add"
         "def add(a, b): return a + b" = Service.Ok r
       /\ passed_tests r = 1 /\ total_tests r = 1 /\ success r = true.
Proof.
  split; [reflexivity|]. split; [reflexivity|].
  destruct (validate_aggregates_test_cases Examples.content
              Examples.correct_solution Examples.same_scalar Examples.limits
              "add" "def add(a, b): return a + b" Examples.add_exercise
              eq_refl eq_refl)
    as (r & Hr & Hpassed & Htotal & _ & _ & _ & _ & _ & Hsuccess & _).
  exists r. split; [exact Hr|]. split; [exact Hpassed|].
  split; [exact Htotal|].
  apply Hsuccess. rewrite <- Hpassed, <- Htotal.
  injection Hr as <-. split; [reflexivity|reflexivity].
Defined.

(** ** The score *)

Lemma percent_score_integer (k n : Z) :
  0 < n -> Service.percent_score k n = (200 * k + n) / (2 * n).
Proof.
  intros Hn. destruct n as [|p|p]; try lia.
  unfold Service.percent_score, Service.round.
  assert (Heq : (inject_Z 100 * inject_Z k / inject_Z (Z.pos p) + (1 # 2)
                 == (200 * k + Z.pos p) # (2 * p))%Q).
  { unfold Qeq, Qdiv, Qmult, Qplus, Qinv, inject_Z. simpl. lia. }
  rewrite (Qfloor_comp _ _ Heq). reflexivity.
Qed.

Lemma percent_score_nearest (k n : Z) :
  0 < n ->
  let s := Service.percent_score k n in
  2 * n * s - n <= 200 * k < 2 * n * s + n.
Proof.
  intros Hn s. unfold s. rewrite percent_score_integer by assumption.
  pose proof (Z.div_mod (200 * k + n) (2 * n) ltac:(lia)) as Hdm.
  pose proof (Z.mod_pos_bound (200 * k + n) (2 * n) ltac:(lia)) as Hmod.
  lia.
Qed.

Lemma percent_score_range (k n : Z) :
  0 <= k <= n -> 0 < n -> 0 <= Service.percent_score k n <= 100.
Proof.
  intros Hk Hn. pose proof (percent_score_nearest k n Hn) as Hnear.
  simpl in Hnear. nia.
Qed.

(** C2, as the service computes it: when there are no test cases the
    score is 0, with or without a scheme; when there is at least one test
    case and the collaborator defines no weighted scheme, the score is the
    integer [round (100 * passed_tests / total_tests)], an integer nearest
    to the percentage, between 0 and 100; when the collaborator defines a
    weighted scheme, the score is what the scheme gives for the test
    results. *)
Theorem score_is_rounded_percentage
    (content : string -> option Service.Exercise)
    (evaluate : string -> Service.TestCase -> Service.CaseOutcome)
    (same_value : JsonValue -> JsonValue -> bool)
    (lim : Service.Limits) (exercise_id code : string)
    (ex : Service.Exercise) :
  Service.valid_code lim code = true ->
  content exercise_id = Some ex ->
  exists r,
    Service.validate content evaluate same_value lim exercise_id code
    = Service.Ok r
    /\ (total_tests r = 0 -> score r = 0)
    /\ (Service.weighted_scheme ex = None -> 0 < total_tests r ->
        score r = Service.round (inject_Z 100 * inject_Z (passed_tests r)
                                 / inject_Z (total_tests r))%Q
        /\ Service.nearest_to (100 * passed_tests r) (total_tests r) (score r)
        /\ 0 <= score r <= 100)
    /\ (forall scheme,
          Service.weighted_scheme ex = Some scheme -> 0 < total_tests r ->
          score r = scheme (test_results r)).
Proof.
  intros Hvalid Hfound.
  unfold Service.validate. rewrite Hvalid, Hfound.
  eexists. split; [reflexivity|]. unfold Service.grade. simpl.
  split; [|split].
  - intros Hzero. now rewrite Hzero.
  - intros Hnone Hpos. rewrite Hnone.
    destruct (Z.eqb_spec (Z.of_nat (length (map
                (Service.run_case evaluate same_value code)
                (Service.test_cases ex)))) 0) as [Hzero|_]; [lia|].
    split; [reflexivity|]. split.
    + pose proof (percent_score_nearest
                    (Service.count_passed
                       (map (Service.run_case evaluate same_value code)
                          (Service.test_cases ex))) _ Hpos) as Hnear.
      simpl in Hnear. unfold Service.nearest_to. lia.
    + apply percent_score_range; [|exact Hpos].
      rewrite count_passed_filter, length_map.
      pose proof (filter_at_most evaluate same_value code
                    (Service.test_cases ex)).
      lia.
  - intros scheme Hscheme Hpos. rewrite Hscheme.
    destruct (Z.eqb_spec (Z.of_nat (length (map
                (Service.run_case evaluate same_value code)
                (Service.test_cases ex)))) 0) as [Hzero|_]; [lia|].
    reflexivity.
Qed.

Lemma score_is_rounded_percentage_witness :
  Service.valid_code Examples.limits "def add(a, b): return a + b" = true
  /\ Examples.content "add" = Some Examples.add_exercise
  /\ exists r,
       Service.validate Examples.content Examples.correct_solution
         Examples.same_scalar Examples.limits "add"
         "def add(a, b): return a + b" = Service.Ok r
       /\ score r = 100.
Proof.
  split; [reflexivity|]. split; [reflexivity|].
  destruct (score_is_rounded_percentage Examples.content
              Examples.correct_solution Examples.same_scalar Examples.limits
              "add" "def add(a, b): return a + b" Examples.add_exercise
              eq_refl eq_refl)
    as (r & Hr & _ & Hscore & _).
  exists r. split; [exact Hr|].
  injection Hr as <-.
  destruct (Hscore eq_refl ltac:(reflexivity)) as [Hround _].
  rewrite Hround. reflexivity.
Defined.

(** C2 as stated fails: for an exercise for which the collaborator defines
    a weighted scheme, here one out of 10 points, three test cases all
    passed give the score 10, not [round (100 * 3 / 3)]. *)
Lemma score_follows_weighted_scheme :
  exists r,
    Service.validate Examples.content Examples.correct_solution
      Examples.same_scalar Examples.limits "exercise-1"
      "from flask import Flask" = Service.Ok r
    /\ passed_tests r = 3 /\ total_tests r = 3
    /\ score r = 10
    /\ Service.percent_score (passed_tests r) (total_tests r) = 100
    /\ score r <> Service.percent_score (passed_tests r) (total_tests r).
Proof.
  eexists. split; [reflexivity|].
  repeat split; try reflexivity.
  vm_compute. discriminate.
Qed.

(** ** The API client *)

Section RetryProperties.
Import ApiClient.
Variable net : Network.

Lemma add_auth_req_id (w : World) (cfg : RequestConfig) :
  req_id (add_auth w cfg) = req_id cfg.
Proof.
  unfold add_auth. destruct (tokens w) as [t|]; [|reflexivity].
  destruct (Js.truthy (access_token t)); reflexivity.
Qed.

Lemma add_auth_retry (w : World) (cfg : RequestConfig) :
  _retry (add_auth w cfg) = _retry cfg.
Proof.
  unfold add_auth. destruct (tokens w) as [t|]; [|reflexivity].
  destruct (Js.truthy (access_token t)); reflexivity.
Qed.

Lemma grows_refl (allowed : nat -> Prop) (w w' : World) :
  sent w' = sent w -> next_id w' = next_id w -> grows allowed w w'.
Proof.
  intros Hsent Hnext. split; [lia|].
  exists []. rewrite app_nil_r. split; [exact Hsent|constructor].
Qed.

Lemma grows_trans (P Q R : nat -> Prop) (w w1 w2 : World) :
  grows P w w1 -> grows Q w1 w2 ->
  (forall i, P i -> R i) -> (forall i, Q i -> R i) ->
  grows R w w2.
Proof.
  intros [Hn1 (a1 & Hs1 & Ha1)] [Hn2 (a2 & Hs2 & Ha2)] HP HQ.
  split; [lia|]. exists (a1 ++ a2). split.
  - rewrite Hs2, Hs1, app_assoc. reflexivity.
  - apply Forall_app. split.
    + eapply Forall_impl; [exact Ha1|]. intros c. apply HP.
    + eapply Forall_impl; [exact Ha2|]. intros c. apply HQ.
Qed.

Lemma dispatches_unchanged (id : nat) (allowed : nat -> Prop) (w w' : World) :
  grows allowed w w' -> (forall i, allowed i -> i <> id) ->
  dispatches_of id (sent w') = dispatches_of id (sent w).
Proof.
  intros [_ (added & -> & Hadded)] Hother. unfold dispatches_of.
  rewrite List.filter_app, length_app.
  assert (Hnone : List.filter (fun c => Nat.eqb (req_id c) id) added = []).
  { induction Hadded as [|c rest Hc _ IH]; [reflexivity|].
    simpl. destruct (Nat.eqb_spec (req_id c) id) as [Heq|_]; [|exact IH].
    now apply Hother in Hc. }
  rewrite Hnone. simpl. lia.
Qed.

Lemma refreshToken_with_grows
    (send : RequestConfig -> World -> Outcome JsonValue * World) (w : World) :
  orderly send ->
  grows (fun i => (next_id w <= i)%nat) w (snd (refreshToken_with send w)).
Proof.
  intros Hsend. unfold refreshToken_with.
  destruct (match tokens w with
            | Some t => if Js.truthy (refresh_token t)
                        then Some (refresh_token t) else None
            | None => None
            end) as [token|]; [|now apply grows_refl].
  unfold new_request.
  set (cfg := mkConfig (next_id w) POST "/auth/refresh" _ None false).
  set (w1 := mkWorld (tokens w) (localStorage w) (location_href w) (sent w)
               (S (next_id w))).
  pose proof (Hsend cfg w1) as Hgrow.
  assert (Hfirst : grows (fun i => (next_id w <= i)%nat) w w1).
  { split; [simpl; lia|]. exists []. rewrite app_nil_r. split; [reflexivity|constructor]. }
  assert (Hall : grows (fun i => (next_id w <= i)%nat) w (snd (send cfg w1))).
  { eapply grows_trans; [exact Hfirst|exact Hgrow|tauto|].
    simpl. intros i [->|Hi]; lia. }
  destruct (send cfg w1) as [[body|e|] w2]; simpl in *; exact Hall.
Qed.

Lemma on_rejected_with_grows
    (send : RequestConfig -> World -> Outcome JsonValue * World)
    (status : option Z) (cfg : RequestConfig) (w : World) :
  orderly send ->
  grows (fun i => i = req_id cfg \/ (next_id w <= i)%nat) w
    (snd (on_rejected_with send status cfg w)).
Proof.
  intros Hsend. unfold on_rejected_with.
  destruct (wants_retry status cfg); [|now apply grows_refl].
  pose proof (refreshToken_with_grows send w Hsend) as Hrefresh.
  destruct (refreshToken_with send w) as [[t|e|] w1]; simpl in *.
  - eapply grows_trans; [exact Hrefresh|apply Hsend|tauto|].
    simpl. destruct Hrefresh as [Hnext _]. intros i [->|Hi]; [now left|right; lia].
  - eapply grows_trans; [exact Hrefresh| |tauto|intros i Hi; exact Hi].
    now apply grows_refl.
  - eapply grows_trans; [exact Hrefresh| |tauto|intros i Hi; exact Hi].
    now apply grows_refl.
Qed.

Lemma dispatch_step (f : nat) (cfg : RequestConfig) (w : World) :
  dispatch net (S f) cfg w
  = match net (sent (put_on_wire (add_auth w cfg) w)) with
    | HttpResponse status body =>
        if status_ok status
        then (Fulfilled body, put_on_wire (add_auth w cfg) w)
        else on_rejected_with (dispatch net f) (Some status)
               (add_auth w cfg) (put_on_wire (add_auth w cfg) w)
    | NoResponse =>
        on_rejected_with (dispatch net f) None
          (add_auth w cfg) (put_on_wire (add_auth w cfg) w)
    end.
Proof. reflexivity. Qed.

Lemma dispatch_orderly (fuel : nat) : orderly (dispatch net fuel).
Proof.
  induction fuel as [|f IH]; intros cfg w.
  - now apply grows_refl.
  - rewrite dispatch_step.
    set (cfg1 := add_auth w cfg). set (w1 := put_on_wire cfg1 w).
    assert (Hwire : grows (fun i => i = req_id cfg \/ (next_id w <= i)%nat) w w1).
    { split; [simpl; lia|]. exists [cfg1]. split; [reflexivity|].
      constructor; [|constructor]. left. apply add_auth_req_id. }
    assert (Hrejected : forall status,
              grows (fun i => i = req_id cfg \/ (next_id w <= i)%nat) w
                (snd (on_rejected_with (dispatch net f) status cfg1 w1))).
    { intros status.
      eapply grows_trans;
        [exact Hwire|apply on_rejected_with_grows, IH|tauto|].
      simpl. unfold cfg1. rewrite add_auth_req_id. tauto. }
    destruct (net (sent w1)) as [status body|]; [|apply Hrejected].
    destruct (status_ok status); [exact Hwire|apply Hrejected].
Qed.

(** A request that carries the [_retry] mark is put on the wire once and
    its failure goes to the caller as it is. *)
Lemma dispatch_marked (f : nat) (cfg : RequestConfig) (w : World) :
  _retry cfg = true ->
  let cfg1 := add_auth w cfg in
  let w1 := put_on_wire cfg1 w in
  dispatch net (S f) cfg w
  = match net (sent w1) with
    | HttpResponse status body =>
        if status_ok status then (Fulfilled body, w1)
        else (RejectedWith (AxiosError (Some status) cfg1), w1)
    | NoResponse => (RejectedWith (AxiosError None cfg1), w1)
    end.
Proof.
  intros Hmarked. rewrite dispatch_step. cbv zeta.
  assert (Hno : forall status, wants_retry status (add_auth w cfg) = false).
  { intros [code|]; [|reflexivity]. unfold wants_retry.
    rewrite add_auth_retry, Hmarked. apply andb_false_r. }
  unfold on_rejected_with. destruct (net _) as [status body|].
  - destruct (status_ok status); [reflexivity|]. now rewrite Hno.
  - now rewrite Hno.
Qed.

Lemma dispatches_of_wire (id : nat) (cfg : RequestConfig) (w : World) :
  dispatches_of id (sent (put_on_wire cfg w))
  = (dispatches_of id (sent w) + (if Nat.eqb (req_id cfg) id then 1 else 0))%nat.
Proof.
  unfold dispatches_of. simpl. rewrite List.filter_app, length_app. simpl.
  destruct (Nat.eqb (req_id cfg) id); reflexivity.
Qed.

Lemma dispatch_marked_count (fuel : nat) (cfg : RequestConfig) (w : World) :
  _retry cfg = true ->
  (dispatches_of (req_id cfg) (sent (snd (dispatch net fuel cfg w)))
   <= dispatches_of (req_id cfg) (sent w) + 1)%nat.
Proof.
  intros Hmarked. destruct fuel as [|f]; [simpl; lia|].
  rewrite (dispatch_marked f cfg w Hmarked).
  assert (Hwire : (dispatches_of (req_id cfg)
                     (sent (put_on_wire (add_auth w cfg) w))
                   <= dispatches_of (req_id cfg) (sent w) + 1)%nat).
  { rewrite dispatches_of_wire. destruct (Nat.eqb _ _); lia. }
  destruct (net _) as [status body|]; [|exact Hwire].
  destruct (status_ok status); exact Hwire.
Qed.

Lemma wants_retry_true (status : option Z) (cfg : RequestConfig) :
  wants_retry status cfg = true <-> status = Some 401 /\ _retry cfg = false.
Proof.
  unfold wants_retry. destruct status as [code|].
  - rewrite andb_true_iff, Z.eqb_eq, negb_true_iff. split.
    + intros [-> Hflag]. now split.
    + intros [[= ->] Hflag]. now split.
  - split; [discriminate|]. intros [Hnone _]. discriminate.
Qed.

(** The rejection handler puts the failed request on the wire again at
    most once, and only after a refresh that was fulfilled. *)
Lemma on_rejected_with_count (f : nat) (status : option Z)
    (cfg : RequestConfig) (w : World) :
  (req_id cfg < next_id w)%nat ->
  let id := req_id cfg in
  let r := on_rejected_with (dispatch net f) status cfg w in
  (dispatches_of id (sent (snd r)) <= dispatches_of id (sent w) + 1)%nat
  /\ ((dispatches_of id (sent (snd r)) = dispatches_of id (sent w) + 1)%nat ->
      wants_retry status cfg = true
      /\ exists t w2,
           refreshToken_with (dispatch net f) w = (Fulfilled t, w2))
  /\ (wants_retry status cfg = false ->
      r = (RejectedWith (AxiosError status cfg), w))
  /\ (forall e w2,
        wants_retry status cfg = true ->
        refreshToken_with (dispatch net f) w = (RejectedWith e, w2) ->
        r = (RejectedWith e, redirect "/login" (clearTokens w2))).
Proof.
  intros Hknown id r. unfold r, on_rejected_with.
  destruct (wants_retry status cfg) eqn:Hretry.
  2:{ simpl. split; [lia|]. split; [lia|]. split; [reflexivity|discriminate]. }
  pose proof (refreshToken_with_grows (dispatch net f) w
                (dispatch_orderly f)) as Hgrow.
  assert (Hsame : dispatches_of id (sent (snd (refreshToken_with (dispatch net f) w)))
                  = dispatches_of id (sent w)).
  { eapply dispatches_unchanged; [exact Hgrow|]. simpl. unfold id. lia. }
  destruct (refreshToken_with (dispatch net f) w) as [[t|e|] w1]; simpl in *.
  - pose proof (dispatch_marked_count f (set_retry cfg) w1 eq_refl) as Hmarked.
    simpl in Hmarked. fold id in Hmarked.
    split; [lia|]. split; [|split; [discriminate|discriminate]].
    intros _. split; [reflexivity|]. now eexists _, _.
  - split; [lia|]. split; [lia|]. split; [discriminate|].
    intros e' w2 _ [= <- <-]. reflexivity.
  - split; [lia|]. split; [lia|]. split; discriminate.
Qed.

End RetryProperties.

(** C5. For every failed response the client re-issues the original
    request at most once: a request is put on the wire at most twice
    (counted by its identity), the second time only when it did not carry
    the [_retry] mark, the failure was a 401 response and [refreshToken]
    was fulfilled; any other failure (another status, no response at all,
    or a request that carries the mark) is rejected to the caller as it is
    with nothing more sent; when the refresh is rejected the caller gets
    the refresh error; and a request that carries the mark is put on the
    wire at most once. *)
Theorem retries_at_most_once
    (net : ApiClient.Network) (fuel : nat) (cfg : ApiClient.RequestConfig)
    (w : ApiClient.World) :
  (ApiClient.req_id cfg < ApiClient.next_id w)%nat ->
  let id := ApiClient.req_id cfg in
  let cfg1 := ApiClient.add_auth w cfg in
  let w1 := ApiClient.put_on_wire cfg1 w in
  let out := fst (ApiClient.dispatch net fuel cfg w) in
  let w' := snd (ApiClient.dispatch net fuel cfg w) in
  let before := ApiClient.dispatches_of id (ApiClient.sent w) in
  let after := ApiClient.dispatches_of id (ApiClient.sent w') in
  (after <= before + 2)%nat
  /\ ((after = before + 2)%nat ->
      ApiClient._retry cfg = false
      /\ (exists body, net (ApiClient.sent w1) = ApiClient.HttpResponse 401 body)
      /\ exists f t w2,
           fuel = S f
           /\ ApiClient.refreshToken_with (ApiClient.dispatch net f) w1
              = (ApiClient.Fulfilled t, w2))
  /\ (forall f status,
        fuel = S f ->
        ApiClient.failure_status (net (ApiClient.sent w1)) = Some status ->
        status <> Some 401 \/ ApiClient._retry cfg = true ->
        out = ApiClient.RejectedWith (ApiClient.AxiosError status cfg1)
        /\ w' = w1)
  /\ (forall f e w2,
        fuel = S f ->
        ApiClient.failure_status (net (ApiClient.sent w1)) = Some (Some 401) ->
        ApiClient._retry cfg = false ->
        ApiClient.refreshToken_with (ApiClient.dispatch net f) w1
        = (ApiClient.RejectedWith e, w2) ->
        out = ApiClient.RejectedWith e
        /\ w' = ApiClient.redirect "/login" (ApiClient.clearTokens w2)
        /\ after = (before + 1)%nat)
  /\ (ApiClient._retry cfg = true -> (after <= before + 1)%nat).
Proof.
  intros Hknown id cfg1 w1 out w' before after.
  assert (Hmarked : ApiClient._retry cfg = true -> (after <= before + 1)%nat).
  { intros Hflag. apply dispatch_marked_count. exact Hflag. }
  destruct fuel as [|f].
  { subst out w' after before. simpl.
    split; [lia|]. split; [lia|]. split; [discriminate|].
    split; [discriminate|lia]. }
  assert (Hwire : ApiClient.dispatches_of id (ApiClient.sent w1)
                  = (before + 1)%nat).
  { unfold w1. rewrite dispatches_of_wire. unfold cfg1.
    rewrite add_auth_req_id. fold id. now rewrite Nat.eqb_refl. }
  assert (Hid1 : ApiClient.req_id cfg1 = id) by apply add_auth_req_id.
  assert (Hflag1 : ApiClient._retry cfg1 = ApiClient._retry cfg)
    by apply add_auth_retry.
  assert (Hknown1 : (ApiClient.req_id cfg1 < ApiClient.next_id w1)%nat)
    by (rewrite Hid1; exact Hknown).
  assert (Hrejected : forall status,
    ApiClient.failure_status (net (ApiClient.sent w1)) = Some status ->
    ApiClient.dispatch net (S f) cfg w
    = ApiClient.on_rejected_with (ApiClient.dispatch net f) status cfg1 w1).
  { intros status Hfail. rewrite dispatch_step. fold cfg1. fold w1.
    unfold ApiClient.failure_status in Hfail.
    destruct (net (ApiClient.sent w1)) as [code body|].
    - destruct (ApiClient.status_ok code); [discriminate|].
      now injection Hfail as <-.
    - now injection Hfail as <-. }
  destruct (ApiClient.failure_status (net (ApiClient.sent w1)))
    as [status|] eqn:Hfail.
  - specialize (Hrejected status eq_refl).
    pose proof (on_rejected_with_count net f status cfg1 w1 Hknown1)
      as (Hle & Htwice & Hplain & Hrefused).
    rewrite Hid1, Hwire in Hle, Htwice.
    subst out w' after. rewrite Hrejected.
    split; [lia|]. split; [|split; [|split]].
    + intros Hafter. destruct (Htwice ltac:(lia)) as (Hretry & t & w2 & Hrefresh).
      apply wants_retry_true in Hretry as [-> Hflag].
      split; [congruence|]. split.
      * unfold ApiClient.failure_status in Hfail.
        destruct (net (ApiClient.sent w1)) as [code body|]; [|discriminate].
        destruct (ApiClient.status_ok code); [discriminate|].
        injection Hfail as ->. now exists body.
      * now exists f, t, w2.
    + intros f' status' [= <-] [= <-] Hother.
      assert (Hno : ApiClient.wants_retry status cfg1 = false).
      { destruct (ApiClient.wants_retry status cfg1) eqn:Hretry;
          [|reflexivity].
        apply wants_retry_true in Hretry as [Hstatus Hflag].
        destruct Hother; congruence. }
      rewrite (Hplain Hno). split; reflexivity.
    + intros f' e w2 [= <-] [= ->] Hflag Hrefresh.
      assert (Hyes : ApiClient.wants_retry (Some 401) cfg1 = true)
        by (apply wants_retry_true; split; congruence).
      rewrite (Hrefused e w2 Hyes Hrefresh). simpl.
      split; [reflexivity|]. split; [reflexivity|].
      pose proof (refreshToken_with_grows (ApiClient.dispatch net f) w1
                    (dispatch_orderly net f)) as Hgrow.
      rewrite Hrefresh in Hgrow. simpl in Hgrow.
      rewrite <- Hwire. eapply dispatches_unchanged; [exact Hgrow|].
      simpl. unfold id. lia.
    + rewrite <- Hrejected. exact Hmarked.
  - assert (Hdone : exists body,
              ApiClient.dispatch net (S f) cfg w = (ApiClient.Fulfilled body, w1)).
    { rewrite dispatch_step. fold cfg1. fold w1.
      unfold ApiClient.failure_status in Hfail.
      destruct (net (ApiClient.sent w1)) as [code body|]; [|discriminate].
      destruct (ApiClient.status_ok code); [|discriminate].
      now exists body. }
    destruct Hdone as [body Hdone].
    subst out w' after. rewrite Hdone.
    change (snd (ApiClient.Fulfilled body, w1)) with w1. rewrite Hwire.
    split; [lia|]. split; [lia|]. split; [discriminate|].
    split; [discriminate|lia].
Qed.

Example expired_token_is_retried_once :
  let r := ApiClient.dispatch Examples.expiring_server 3
             Examples.modules_request Examples.signed_in in
  fst r = ApiClient.Fulfilled JNull
  /\ map ApiClient.url (ApiClient.sent (snd r))
     = ["/modules"; "/auth/refresh"; "/modules"]
  /\ map ApiClient._retry (ApiClient.sent (snd r)) = [false; false; true]
  /\ ApiClient.dispatches_of 0 (ApiClient.sent (snd r)) = 2%nat
  /\ ApiClient.getTokens (snd r)
     = Some (ApiClient.mkTokens "fresh-access" "refresh-2").
Proof. vm_compute. repeat split. Qed.

Lemma retries_at_most_once_witness :
  (ApiClient.req_id Examples.modules_request
   < ApiClient.next_id Examples.signed_in)%nat
  /\ (ApiClient.dispatches_of 0
        (ApiClient.sent
           (snd (ApiClient.dispatch Examples.expiring_server 3
                   Examples.modules_request Examples.signed_in)))
      <= ApiClient.dispatches_of 0 (ApiClient.sent Examples.signed_in) + 2)%nat.
Proof.
  assert (Hknown : (ApiClient.req_id Examples.modules_request
                    < ApiClient.next_id Examples.signed_in)%nat)
    by (simpl; lia).
  split; [exact Hknown|].
  exact (proj1 (retries_at_most_once Examples.expiring_server 3
                  Examples.modules_request Examples.signed_in Hknown)).
Defined.

(** C10. Once [logout] has settled, whether the logout request was
    fulfilled or rejected, the tokens are cleared: [getTokens] returns
    null, [isAuthenticated] returns false and the stored copy is gone.  The
    request settles whenever its answer is not a 401. *)
Theorem logout_clears_tokens
    (net : ApiClient.Network) (fuel : nat) (w : ApiClient.World) :
  let r := ApiClient.logout net fuel w in
  let request := ApiClient.new_request ApiClient.POST "/auth/logout" [] w in
  let on_wire :=
    ApiClient.put_on_wire (ApiClient.add_auth (snd request) (fst request))
      (snd request) in
  (fst r <> ApiClient.Pending ->
   ApiClient.getTokens (snd r) = None
   /\ ApiClient.isAuthenticated (snd r) = false
   /\ ApiClient.localStorage (snd r) !! "auth_tokens" = None)
  /\ (fuel <> 0%nat ->
      ApiClient.failure_status (net (ApiClient.sent on_wire))
      <> Some (Some 401) ->
      fst r <> ApiClient.Pending).
Proof.
  intros r request on_wire. split.
  - unfold r, ApiClient.logout.
    destruct (ApiClient.post net fuel "/auth/logout" [] w) as [[body|e|] w1];
      simpl; intros Hsettled; try (now contradiction Hsettled);
      (split; [reflexivity|]; split; [reflexivity|]; apply lookup_delete_eq).
  - intros Hfuel Hanswer. destruct fuel as [|f]; [now contradiction Hfuel|].
    unfold r, ApiClient.logout, ApiClient.post.
    fold request. destruct request as [cfg w0] eqn:Hrequest.
    rewrite dispatch_step. simpl in on_wire. fold on_wire.
    unfold ApiClient.failure_status in Hanswer.
    destruct (net (ApiClient.sent on_wire)) as [status body|].
    + destruct (ApiClient.status_ok status); [simpl; discriminate|].
      unfold ApiClient.on_rejected_with.
      assert (Hno : ApiClient.wants_retry (Some status)
                      (ApiClient.add_auth w0 cfg) = false).
      { unfold ApiClient.wants_retry.
        destruct (Z.eqb_spec status 401) as [->|_]; [|reflexivity].
        now contradiction Hanswer. }
      rewrite Hno. simpl. discriminate.
    + simpl. discriminate.
Qed.

Example logout_survives_refresh :
  let r := ApiClient.logout Examples.expiring_server 3 Examples.signed_in in
  fst r = ApiClient.Fulfilled tt
  /\ map ApiClient.url (ApiClient.sent (snd r))
     = ["/auth/logout"; "/auth/refresh"; "/auth/logout"]
  /\ ApiClient.getTokens (snd r) = None
  /\ ApiClient.localStorage (snd r) !! "auth_tokens" = None.
Proof. vm_compute. repeat split. Qed.

Lemma logout_clears_tokens_witness :
  (fst (ApiClient.logout Examples.friendly_server 1 Examples.signed_in)
   <> ApiClient.Pending
   /\ ApiClient.isAuthenticated
        (snd (ApiClient.logout Examples.friendly_server 1 Examples.signed_in))
      = false)
  /\ (fst (ApiClient.logout Examples.offline 1 Examples.signed_in)
      <> ApiClient.Pending
      /\ ApiClient.isAuthenticated
           (snd (ApiClient.logout Examples.offline 1 Examples.signed_in))
         = false).
Proof.
  assert (Hserved : fst (ApiClient.logout Examples.friendly_server 1
                           Examples.signed_in) <> ApiClient.Pending)
    by (vm_compute; discriminate).
  assert (Hdown : fst (ApiClient.logout Examples.offline 1
                         Examples.signed_in) <> ApiClient.Pending)
    by (vm_compute; discriminate).
  split.
  - split; [exact Hserved|].
    exact (proj1 (proj2 (proj1 (logout_clears_tokens Examples.friendly_server
                                  1 Examples.signed_in) Hserved))).
  - split; [exact Hdown|].
    exact (proj1 (proj2 (proj1 (logout_clears_tokens Examples.offline
                                  1 Examples.signed_in) Hdown))).
Defined.

(** ** The editor on the live client *)

(** A run of [executeCode] reads the API at its one call only, and so
    does a run of [validateExercise]. *)
Lemma executeCode_reads_one_call (props : CodeEditor.Props)
    (api api' : CodeEditor.Api) (w : CodeEditor.World) :
  CodeEditor.api_executeCode api (CodeEditor.code (CodeEditor.state w))
    (CodeEditor.language props)
  = CodeEditor.api_executeCode api' (CodeEditor.code (CodeEditor.state w))
      (CodeEditor.language props) ->
  CodeEditor.executeCode props api w = CodeEditor.executeCode props api' w.
Proof.
  intros Hsame. unfold CodeEditor.executeCode, CodeEditor.setState.
  unfold Async.try_finally, Async.try_catch, Async.await, Async.gets,
    Async.modify, mbind, mret, Async.M_bind, Async.M_ret.
  simpl. now rewrite Hsame.
Qed.

Lemma validateExercise_reads_one_call (props : CodeEditor.Props)
    (api api' : CodeEditor.Api) (w : CodeEditor.World) :
  (forall exercise_id,
     CodeEditor.api_validateExercise api exercise_id
       (CodeEditor.code (CodeEditor.state w))
     = CodeEditor.api_validateExercise api' exercise_id
         (CodeEditor.code (CodeEditor.state w))) ->
  CodeEditor.validateExercise props api w
  = CodeEditor.validateExercise props api' w.
Proof.
  intros Hsame. unfold CodeEditor.validateExercise, CodeEditor.setState.
  destruct (CodeEditor.usable_exerciseId props) as [exercise_id|];
    [|reflexivity].
  unfold Async.try_finally, Async.try_catch, Async.await, Async.gets,
    Async.modify, mbind, mret, Async.M_bind, Async.M_ret.
  simpl. now rewrite Hsame.
Qed.

Lemma unauthorized_everywhere_pending (net : ApiClient.Network) (fuel : nat)
    (cfg : ApiClient.RequestConfig) (w : ApiClient.World) :
  (forall log, ApiClient.failure_status (net log) = Some (Some 401)) ->
  ApiClient._retry cfg = false ->
  (exists t, ApiClient.tokens w = Some t
             /\ Js.truthy (ApiClient.refresh_token t) = true) ->
  let r := ApiClient.dispatch net fuel cfg w in
  fst r = ApiClient.Pending
  /\ length (ApiClient.sent (snd r)) = (length (ApiClient.sent w) + fuel)%nat
  /\ ApiClient.tokens (snd r) = ApiClient.tokens w.
Proof.
  intros Hnet. revert cfg w.
  induction fuel as [|f IH]; intros cfg w Hflag (t & Htokens & Hrefresh) r.
  - unfold r. simpl. repeat split. lia.
  - unfold r. rewrite dispatch_step.
    pose proof (Hnet (ApiClient.sent
                        (ApiClient.put_on_wire (ApiClient.add_auth w cfg) w)))
      as Hanswer.
    unfold ApiClient.failure_status in Hanswer.
    destruct (net _) as [status body|]; [|discriminate].
    destruct (ApiClient.status_ok status); [discriminate|].
    injection Hanswer as ->.
    unfold ApiClient.on_rejected_with, ApiClient.wants_retry.
    rewrite add_auth_retry, Hflag. simpl andb. cbv iota.
    unfold ApiClient.refreshToken_with.
    change (ApiClient.tokens
              (ApiClient.put_on_wire (ApiClient.add_auth w cfg) w))
      with (ApiClient.tokens w).
    rewrite Htokens, Hrefresh. unfold ApiClient.new_request.
    set (cfgR := ApiClient.mkConfig _ ApiClient.POST "/auth/refresh" _ None
                   false).
    set (wR := ApiClient.mkWorld _ _ _ _ _).
    assert (HtokenR : exists t', ApiClient.tokens wR = Some t'
                       /\ Js.truthy (ApiClient.refresh_token t') = true)
      by (exists t; split; [exact Htokens|exact Hrefresh]).
    destruct (IH cfgR wR eq_refl HtokenR) as (Hpending & Hsent & Hkept).
    destruct (ApiClient.dispatch net f cfgR wR) as [[body'|e|] w2];
      simpl in *; try discriminate.
    split; [reflexivity|]. split; [|rewrite Hkept; exact Htokens].
    rewrite Hsent, length_app. simpl. lia.
Qed.

Lemma post_pending_when_unauthorized_everywhere (net : ApiClient.Network)
    (fuel : nat) (u : string) (d : list (string * string))
    (w : ApiClient.World) :
  (forall log, ApiClient.failure_status (net log) = Some (Some 401)) ->
  (exists t, ApiClient.tokens w = Some t
             /\ Js.truthy (ApiClient.refresh_token t) = true) ->
  fst (ApiClient.post net fuel u d w) = ApiClient.Pending
  /\ length (ApiClient.sent (snd (ApiClient.post net fuel u d w)))
     = (length (ApiClient.sent w) + fuel)%nat.
Proof.
  intros Hnet Htokens. unfold ApiClient.post, ApiClient.new_request.
  set (cfg := ApiClient.mkConfig _ ApiClient.POST u d None false).
  set (w0 := ApiClient.mkWorld _ _ _ _ _).
  destruct (unauthorized_everywhere_pending net fuel cfg w0 Hnet eq_refl
              Htokens) as (Hpending & Hsent & _).
  split; [exact Hpending|exact Hsent].
Qed.

(** C3 fails on the code at this input.  The client holds a refresh token
    and the server answers 401 to every request, the refresh included (a
    session whose refresh token has expired).  A click on Run, and
    likewise a click on Submit, never reaches the end of its handler:
    however deep the client is allowed to call itself, the call of the API
    is still pending, that many requests have gone out, [isExecuting]
    (or [isValidating]) is still set, the buttons are disabled and no
    result is stored. *)
Theorem run_never_ends_in_refresh_storm
    (fuel : nat) (thrown_of : ApiClient.ApiError -> Js.Thrown)
    (as_execution_result : JsonValue -> CodeExecutionResult)
    (as_validation_result : JsonValue -> ExerciseValidationResult) :
  let run :=
    Wired.run_click Lockout.always_unauthorized fuel thrown_of
      as_execution_result Examples.editor_props Examples.signed_in
      Examples.editor_world in
  let submit :=
    Wired.submit_click Lockout.always_unauthorized fuel thrown_of
      as_validation_result Examples.editor_props Examples.signed_in
      Examples.editor_world in
  (fst (fst run) = None
   /\ CodeEditor.isExecuting (CodeEditor.state (snd (fst run))) = true
   /\ CodeEditor.executionResult (CodeEditor.state (snd (fst run))) = None
   /\ CodeEditor.controls_disabled (CodeEditor.state (snd (fst run))) = true
   /\ length (ApiClient.sent (snd run)) = fuel)
  /\ (fst (fst submit) = None
      /\ CodeEditor.isValidating (CodeEditor.state (snd (fst submit))) = true
      /\ CodeEditor.validationResult (CodeEditor.state (snd (fst submit)))
         = None
      /\ CodeEditor.controls_disabled (CodeEditor.state (snd (fst submit)))
         = true
      /\ length (ApiClient.sent (snd submit)) = fuel).
Proof.
  assert (Hnet : forall log,
            ApiClient.failure_status (Lockout.always_unauthorized log)
            = Some (Some 401)) by reflexivity.
  assert (Htokens : exists t,
            ApiClient.tokens Examples.signed_in = Some t
            /\ Js.truthy (ApiClient.refresh_token t) = true)
    by (exists Examples.stale_tokens; split; reflexivity).
  intros run submit. split.
  - unfold run, Wired.run_click, ApiClient.executeCode.
    destruct (post_pending_when_unauthorized_everywhere
                Lockout.always_unauthorized fuel "/code/execute"
                [("code", CodeEditor.code
                            (CodeEditor.state Examples.editor_world));
                 ("language", CodeEditor.language Examples.editor_props)]
                Examples.signed_in Hnet Htokens) as [Hpending Hsent].
    destruct (ApiClient.post _ _ _ _ _) as [promise cw1].
    simpl in Hpending, Hsent. subst promise. simpl.
    repeat split. exact Hsent.
  - unfold submit, Wired.submit_click, ApiClient.validateExercise.
    change (CodeEditor.usable_exerciseId Examples.editor_props)
      with (Some "exercise-1").
    cbv iota beta.
    destruct (post_pending_when_unauthorized_everywhere
                Lockout.always_unauthorized fuel "/exercises/validate"
                [("exercise_id", "exercise-1");
                 ("code", CodeEditor.code
                            (CodeEditor.state Examples.editor_world))]
                Examples.signed_in Hnet Htokens) as [Hpending Hsent].
    destruct (ApiClient.post _ _ _ _ _) as [promise cw1].
    simpl in Hpending, Hsent. subst promise. simpl.
    repeat split. exact Hsent.
Qed.

(** ** Blank code *)










(** * Further properties of the code *)

(** ** Tokens and the stored copy *)

Section SessionProperties.
Import ApiClient.
Variable net : Network.

Lemma in_sync_save (t : AuthTokens) (w : World) :
  Session.in_sync (saveTokensToStorage t w).
Proof. unfold Session.in_sync. simpl. apply lookup_insert_eq. Qed.

Lemma in_sync_clear (w : World) : Session.in_sync (clearTokens w).
Proof. unfold Session.in_sync. simpl. apply lookup_delete_eq. Qed.

Lemma refreshToken_with_sync
    (send : RequestConfig -> World -> Outcome JsonValue * World) (w : World) :
  (forall cfg w0, Session.in_sync w0 -> Session.in_sync (snd (send cfg w0))) ->
  Session.in_sync w -> Session.in_sync (snd (refreshToken_with send w)).
Proof.
  intros Hsend Hw. unfold refreshToken_with.
  destruct (match tokens w with
            | Some t => if Js.truthy (refresh_token t)
                        then Some (refresh_token t) else None
            | None => None
            end) as [token|]; [|exact Hw].
  unfold new_request.
  set (cfg := mkConfig (next_id w) POST "/auth/refresh" _ None false).
  set (w1 := mkWorld (tokens w) (localStorage w) (location_href w) (sent w)
               (S (next_id w))).
  pose proof (Hsend cfg w1 Hw) as Hsent.
  destruct (send cfg w1) as [[body|e|] w2]; simpl in *;
    [apply in_sync_save|exact Hsent|exact Hsent].
Qed.

Lemma on_rejected_with_sync
    (send : RequestConfig -> World -> Outcome JsonValue * World)
    (status : option Z) (cfg : RequestConfig) (w : World) :
  (forall cfg w0, Session.in_sync w0 -> Session.in_sync (snd (send cfg w0))) ->
  Session.in_sync w ->
  Session.in_sync (snd (on_rejected_with send status cfg w)).
Proof.
  intros Hsend Hw. unfold on_rejected_with.
  destruct (wants_retry status cfg); [|exact Hw].
  pose proof (refreshToken_with_sync send w Hsend Hw) as Hrefresh.
  destruct (refreshToken_with send w) as [[t|e|] w1]; simpl in *.
  - apply Hsend, Hrefresh.
  - apply (in_sync_clear w1).
  - exact Hrefresh.
Qed.

Lemma dispatch_sync (fuel : nat) (cfg : RequestConfig) (w : World) :
  Session.in_sync w -> Session.in_sync (snd (dispatch net fuel cfg w)).
Proof.
  revert cfg w. induction fuel as [|f IH]; intros cfg w Hw; [exact Hw|].
  rewrite dispatch_step.
  assert (Hwire : Session.in_sync (put_on_wire (add_auth w cfg) w)) by exact Hw.
  destruct (net _) as [status body|].
  - destruct (status_ok status); [exact Hwire|].
    apply on_rejected_with_sync; [exact IH|exact Hwire].
  - apply on_rejected_with_sync; [exact IH|exact Hwire].
Qed.

(** Whatever happens later, a request is first put on the wire as the
    request interceptor left it. *)
Lemma dispatch_first_on_wire (f : nat) (cfg : RequestConfig) (w : World) :
  exists more,
    sent (snd (dispatch net (S f) cfg w)) = sent w ++ add_auth w cfg :: more.
Proof.
  pose proof (on_rejected_with_grows (dispatch net f)) as Hgrow.
  assert (Hrejected : forall status, exists more,
            sent (snd (on_rejected_with (dispatch net f) status
                         (add_auth w cfg) (put_on_wire (add_auth w cfg) w)))
            = sent w ++ add_auth w cfg :: more).
  { intros status.
    destruct (Hgrow status (add_auth w cfg) (put_on_wire (add_auth w cfg) w)
                (dispatch_orderly net f)) as [_ (added & Hadded & _)].
    exists added. rewrite Hadded. simpl. now rewrite <- app_assoc. }
  rewrite dispatch_step. destruct (net _) as [status body|].
  - destruct (status_ok status); [now exists []|apply Hrejected].
  - apply Hrejected.
Qed.

End SessionProperties.

(** X1. The copy of the tokens in [localStorage] and [this.tokens] never
    part: if they agree before, they agree after any request through the
    client, after [refreshToken], [logout], [login], [register] and
    [getCurrentUser], whatever the server answers and whether or not the
    promise has settled. *)
Theorem stored_tokens_stay_in_sync
    (net : ApiClient.Network) (fuel : nat) (cfg : ApiClient.RequestConfig)
    (credentials : list (string * string)) (w : ApiClient.World) :
  Session.in_sync w ->
  Session.in_sync (snd (ApiClient.dispatch net fuel cfg w))
  /\ Session.in_sync (snd (ApiClient.refreshToken net fuel w))
  /\ Session.in_sync (snd (ApiClient.logout net fuel w))
  /\ Session.in_sync (snd (Session.login net fuel credentials w))
  /\ Session.in_sync (snd (Session.register net fuel credentials w))
  /\ Session.in_sync (snd (Session.getCurrentUser net fuel w)).
Proof.
  intros Hw.
  assert (Hpost : forall u d,
            Session.in_sync (snd (ApiClient.post net fuel u d w))).
  { intros u d. unfold ApiClient.post, ApiClient.new_request.
    apply dispatch_sync. exact Hw. }
  assert (Hsign : forall u,
            Session.in_sync (snd (Session.sign_in net fuel u credentials w))).
  { intros u. unfold Session.sign_in. specialize (Hpost u credentials).
    destruct (ApiClient.post net fuel u credentials w) as [[body|e|] w1];
      simpl in *; try exact Hpost.
    destruct body; simpl; try apply in_sync_save. exact Hpost. }
  split; [apply dispatch_sync; exact Hw|].
  split.
  { unfold ApiClient.refreshToken. apply refreshToken_with_sync; [|exact Hw].
    intros cfg0 w0. apply dispatch_sync. }
  split.
  { unfold ApiClient.logout. specialize (Hpost "/auth/logout" []).
    destruct (ApiClient.post net fuel "/auth/logout" [] w) as [[body|e|] w1];
      simpl in *; [apply in_sync_clear|apply in_sync_clear|exact Hpost]. }
  split; [apply Hsign|]. split; [apply Hsign|].
  unfold Session.getCurrentUser, Session.get, ApiClient.new_request.
  pose proof (dispatch_sync net fuel
                (ApiClient.mkConfig (ApiClient.next_id w) ApiClient.GET
                   "/auth/me" [] None false)
                (ApiClient.mkWorld (ApiClient.tokens w)
                   (ApiClient.localStorage w) (ApiClient.location_href w)
                   (ApiClient.sent w) (S (ApiClient.next_id w))) Hw) as Hget.
  destruct (ApiClient.dispatch net fuel _ _) as [[body|e|] w1]; exact Hget.
Qed.

Lemma stored_tokens_stay_in_sync_witness :
  Session.in_sync Examples.signed_in
  /\ Session.in_sync
       (snd (ApiClient.dispatch Examples.expiring_server 3
               Examples.modules_request Examples.signed_in)).
Proof.
  assert (Hsync : Session.in_sync Examples.signed_in) by reflexivity.
  split; [exact Hsync|].
  exact (proj1 (stored_tokens_stay_in_sync Examples.expiring_server 3
                  Examples.modules_request [] Examples.signed_in Hsync)).
Defined.

(** X2. A 401 answer to a request of a client that holds no usable
    refresh token is not retried and not refreshed: exactly that one
    request goes out, the caller gets the error "No refresh token
    available" in place of the 401, the tokens are cleared and the page is
    sent to [/login]. *)
Theorem unauthorized_without_refresh_token
    (net : ApiClient.Network) (f : nat) (cfg : ApiClient.RequestConfig)
    (w : ApiClient.World) (body : JsonValue) :
  Session.usable_refresh_token w = None ->
  ApiClient._retry cfg = false ->
  net (ApiClient.sent w ++ [ApiClient.add_auth w cfg])
  = ApiClient.HttpResponse 401 body ->
  let w1 := ApiClient.put_on_wire (ApiClient.add_auth w cfg) w in
  let r := ApiClient.dispatch net (S f) cfg w in
  fst r = ApiClient.RejectedWith
            (ApiClient.PlainError "No refresh token available")
  /\ snd r = ApiClient.redirect "/login" (ApiClient.clearTokens w1)
  /\ ApiClient.sent (snd r) = ApiClient.sent w ++ [ApiClient.add_auth w cfg]
  /\ ApiClient.getTokens (snd r) = None
  /\ ApiClient.location_href (snd r) = "/login".
Proof.
  intros Hnone Hflag Hanswer w1 r. unfold r. rewrite dispatch_step.
  change (ApiClient.sent (ApiClient.put_on_wire (ApiClient.add_auth w cfg) w))
    with (ApiClient.sent w ++ [ApiClient.add_auth w cfg]).
  rewrite Hanswer. simpl ApiClient.status_ok. cbv iota.
  unfold ApiClient.on_rejected_with, ApiClient.wants_retry.
  rewrite add_auth_retry, Hflag. simpl.
  unfold ApiClient.refreshToken_with.
  unfold Session.usable_refresh_token in Hnone.
  change (ApiClient.tokens (ApiClient.put_on_wire (ApiClient.add_auth w cfg) w))
    with (ApiClient.tokens w).
  rewrite Hnone. simpl. repeat split.
Qed.

Lemma unauthorized_without_refresh_token_witness :
  Session.usable_refresh_token (ApiClient.clearTokens Examples.signed_in) = None
  /\ ApiClient._retry Examples.modules_request = false
  /\ fst (ApiClient.dispatch Examples.expiring_server 1
            Examples.modules_request (ApiClient.clearTokens Examples.signed_in))
     = ApiClient.RejectedWith
         (ApiClient.PlainError "No refresh token available").
Proof.
  split; [reflexivity|]. split; [reflexivity|].
  exact (proj1 (unauthorized_without_refresh_token Examples.expiring_server 0
                  Examples.modules_request
                  (ApiClient.clearTokens Examples.signed_in) JNull
                  eq_refl eq_refl eq_refl)).
Defined.

(** X3. When a 401 is answered by a successful refresh, the retry goes out
    once, marked [_retry], with the bearer header of the access token the
    refresh returned (the request interceptor runs again), and its outcome,
    success or failure, is the outcome of the original call. *)
Theorem retry_carries_refreshed_token
    (net : ApiClient.Network) (f : nat) (cfg : ApiClient.RequestConfig)
    (w w2 : ApiClient.World) (body : JsonValue) (t : ApiClient.AuthTokens) :
  ApiClient._retry cfg = false ->
  net (ApiClient.sent w ++ [ApiClient.add_auth w cfg])
  = ApiClient.HttpResponse 401 body ->
  ApiClient.refreshToken_with (ApiClient.dispatch net (S f))
    (ApiClient.put_on_wire (ApiClient.add_auth w cfg) w)
  = (ApiClient.Fulfilled t, w2) ->
  Js.truthy (ApiClient.access_token t) = true ->
  let retried :=
    ApiClient.set_authorization ("Bearer " +:+ ApiClient.access_token t)
      (ApiClient.set_retry (ApiClient.add_auth w cfg)) in
  let r := ApiClient.dispatch net (S (S f)) cfg w in
  ApiClient.getTokens w2 = Some t
  /\ ApiClient.sent (snd r) = ApiClient.sent w2 ++ [retried]
  /\ ApiClient._retry retried = true
  /\ fst r = match net (ApiClient.sent w2 ++ [retried]) with
             | ApiClient.HttpResponse status answer =>
                 if ApiClient.status_ok status then ApiClient.Fulfilled answer
                 else ApiClient.RejectedWith
                        (ApiClient.AxiosError (Some status) retried)
             | ApiClient.NoResponse =>
                 ApiClient.RejectedWith (ApiClient.AxiosError None retried)
             end.
Proof.
  intros Hflag Hanswer Hrefresh Htoken retried r.
  assert (Htokens : ApiClient.tokens w2 = Some t).
  { unfold ApiClient.refreshToken_with in Hrefresh.
    destruct (match ApiClient.tokens _ with
              | Some t0 => _
              | None => None
              end) as [token|]; [|discriminate].
    destruct (ApiClient.new_request _ _ _ _) as [cfgR wR].
    destruct (ApiClient.dispatch net (S f) cfgR wR) as [[answer|e|] w3];
      try discriminate.
    now injection Hrefresh as <- <-. }
  assert (Hretried : ApiClient.add_auth w2
                       (ApiClient.set_retry (ApiClient.add_auth w cfg))
                     = retried).
  { unfold ApiClient.add_auth at 1. now rewrite Htokens, Htoken. }
  assert (Hstep : ApiClient.dispatch net (S (S f)) cfg w
                  = ApiClient.dispatch net (S f)
                      (ApiClient.set_retry (ApiClient.add_auth w cfg)) w2).
  { rewrite dispatch_step.
    change (ApiClient.sent (ApiClient.put_on_wire (ApiClient.add_auth w cfg) w))
      with (ApiClient.sent w ++ [ApiClient.add_auth w cfg]).
    rewrite Hanswer. simpl ApiClient.status_ok. cbv iota.
    unfold ApiClient.on_rejected_with, ApiClient.wants_retry.
    rewrite add_auth_retry, Hflag. simpl andb. cbv iota.
    now rewrite Hrefresh. }
  unfold r. rewrite Hstep.
  rewrite (dispatch_marked net f
             (ApiClient.set_retry (ApiClient.add_auth w cfg)) w2 eq_refl).
  cbv zeta. rewrite Hretried.
  change (ApiClient.sent (ApiClient.put_on_wire retried w2))
    with (ApiClient.sent w2 ++ [retried]).
  split; [exact Htokens|].
  destruct (net (ApiClient.sent w2 ++ [retried])) as [status answer|].
  - destruct (ApiClient.status_ok status); repeat split.
  - repeat split.
Qed.

Lemma retry_carries_refreshed_token_witness :
  ApiClient.sent
    (snd (ApiClient.dispatch Examples.expiring_server 3
            Examples.modules_request Examples.signed_in))
  = ApiClient.sent
      (snd (ApiClient.refreshToken_with
              (ApiClient.dispatch Examples.expiring_server 2)
              (ApiClient.put_on_wire
                 (ApiClient.add_auth Examples.signed_in
                    Examples.modules_request) Examples.signed_in)))
    ++ [ApiClient.set_authorization "Bearer fresh-access"
          (ApiClient.set_retry
             (ApiClient.add_auth Examples.signed_in
                Examples.modules_request))].
Proof.
  exact (proj1 (proj2 (retry_carries_refreshed_token Examples.expiring_server
    1 Examples.modules_request Examples.signed_in _ JNull
    (ApiClient.mkTokens "fresh-access" "refresh-2")
    eq_refl eq_refl eq_refl eq_refl))).
Defined.

(** X4. After a fulfilled [login] (or [register]) the client holds the
    tokens of the response; when the access token is not empty the client
    is authenticated and the next request it sends, whatever it is, goes
    out first with that token as bearer header. *)
Theorem login_authorizes_next_request
    (net : ApiClient.Network) (fuel : nat)
    (credentials : list (string * string)) (w w' : ApiClient.World)
    (who : Session.User) (t : ApiClient.AuthTokens)
    (net' : ApiClient.Network) (f : nat) (cfg : ApiClient.RequestConfig) :
  Session.login net fuel credentials w = (ApiClient.Fulfilled (who, t), w') ->
  Js.truthy (ApiClient.access_token t) = true ->
  ApiClient.getTokens w' = Some t
  /\ ApiClient.localStorage w' !! "auth_tokens" = Some t
  /\ ApiClient.isAuthenticated w' = true
  /\ exists more,
       ApiClient.sent (snd (ApiClient.dispatch net' (S f) cfg w'))
       = ApiClient.sent w'
         ++ ApiClient.set_authorization
              ("Bearer " +:+ ApiClient.access_token t) cfg :: more.
Proof.
  intros Hlogin Htoken.
  assert (Htokens : ApiClient.tokens w' = Some t
                    /\ ApiClient.localStorage w' !! "auth_tokens" = Some t).
  { unfold Session.login, Session.sign_in in Hlogin.
    destruct (ApiClient.post net fuel _ credentials w) as [[body|e|] w1];
      try discriminate.
    destruct body; try discriminate;
      injection Hlogin as _ <- <-; (split; [reflexivity|apply lookup_insert_eq]). }
  destruct Htokens as [Htokens Hstored].
  split; [exact Htokens|]. split; [exact Hstored|].
  split; [unfold ApiClient.isAuthenticated; now rewrite Htokens|].
  destruct (dispatch_first_on_wire net' f cfg w') as [more Hmore].
  exists more. rewrite Hmore. unfold ApiClient.add_auth.
  now rewrite Htokens, Htoken.
Qed.

Lemma login_authorizes_next_request_witness :
  Session.login Scenario.login_server 1 Scenario.credentials
    Scenario.signed_out
  = (ApiClient.Fulfilled
       (Scenario.test_user, ApiClient.mkTokens "access-1" "refresh-1"),
     snd (Session.login Scenario.login_server 1 Scenario.credentials
            Scenario.signed_out))
  /\ ApiClient.isAuthenticated
       (snd (Session.login Scenario.login_server 1 Scenario.credentials
               Scenario.signed_out)) = true.
Proof.
  assert (Hlogin : Session.login Scenario.login_server 1 Scenario.credentials
                     Scenario.signed_out
                   = (ApiClient.Fulfilled
                        (Scenario.test_user,
                         ApiClient.mkTokens "access-1" "refresh-1"),
                      snd (Session.login Scenario.login_server 1
                             Scenario.credentials Scenario.signed_out)))
    by reflexivity.
  split; [exact Hlogin|].
  exact (proj1 (proj2 (proj2 (login_authorizes_next_request
    Scenario.login_server 1 Scenario.credentials Scenario.signed_out _
    Scenario.test_user (ApiClient.mkTokens "access-1" "refresh-1")
    Examples.offline 0 Examples.modules_request Hlogin eq_refl)))).
Defined.

(** ** The authentication context *)

(** X5. In every state the authentication reducer reaches from its initial
    state, [isAuthenticated] is true exactly when a user or tokens are
    held; in particular [CLEAR_AUTH] leaves nothing behind. *)
Theorem auth_state_flag_matches_content
    (actions : list AuthContext.AuthAction) :
  let s := foldl AuthContext.authReducer AuthContext.initialState actions in
  (AuthContext.isAuthenticated s = true
   <-> is_Some (AuthContext.user s) \/ is_Some (AuthContext.tokens s))
  /\ (last actions = Some AuthContext.CLEAR_AUTH ->
      s = AuthContext.mkState None None false false).
Proof.
  intros s. split.
  - unfold s. clear s.
    assert (Hinv : forall s0,
      (AuthContext.isAuthenticated s0 = true
       <-> is_Some (AuthContext.user s0) \/ is_Some (AuthContext.tokens s0)) ->
      AuthContext.isAuthenticated (foldl AuthContext.authReducer s0 actions)
      = true
      <-> is_Some (AuthContext.user (foldl AuthContext.authReducer s0 actions))
          \/ is_Some (AuthContext.tokens
                        (foldl AuthContext.authReducer s0 actions))).
    { induction actions as [|a actions IH]; intros s0 Hs0; [exact Hs0|].
      simpl. apply IH. destruct a; simpl; try exact Hs0.
      - split; [intros _; left; now eexists|reflexivity].
      - split; [intros _; right; now eexists|reflexivity].
      - split; [intros _; left; now eexists|reflexivity].
      - split; [discriminate|]. intros [[x Hx]|[x Hx]]; discriminate. }
    apply Hinv. simpl. split; [discriminate|].
    intros [[x Hx]|[x Hx]]; discriminate.
  - intros Hlast. apply last_Some in Hlast as [before ->].
    unfold s. rewrite foldl_snoc. reflexivity.
Qed.

Lemma logout_cleared (net : ApiClient.Network) (fuel : nat)
    (w : ApiClient.World) :
  fst (ApiClient.logout net fuel w) <> ApiClient.Pending ->
  ApiClient.getTokens (snd (ApiClient.logout net fuel w)) = None
  /\ ApiClient.isAuthenticated (snd (ApiClient.logout net fuel w)) = false.
Proof.
  unfold ApiClient.logout.
  destruct (ApiClient.post net fuel "/auth/logout" [] w) as [[body|e|] w1];
    simpl; intros Hsettled; try (now contradiction Hsettled);
    split; reflexivity.
Qed.

(** X6. Once [logout] of the context has settled it has fulfilled, never
    rejected, whether the logout request succeeded or failed; the context
    holds no user and no tokens and is not authenticated, and the API
    client agrees: it holds no tokens either. *)
Theorem context_logout_always_signs_out
    (net : ApiClient.Network) (fuel : nat) (w : AuthContext.World) :
  let r := AuthContext.logout net fuel w in
  fst r <> ApiClient.Pending ->
  fst r = ApiClient.Fulfilled tt
  /\ AuthContext.state (snd r) = AuthContext.mkState None None false false
  /\ ApiClient.getTokens (AuthContext.client (snd r)) = None
  /\ ApiClient.isAuthenticated (AuthContext.client (snd r)) = false
  /\ snd (ApiClient.logout net fuel (AuthContext.client w))
     = AuthContext.client (snd r).
Proof.
  intros r. unfold r, AuthContext.logout.
  pose proof (logout_cleared net fuel (AuthContext.client w)) as Hcleared.
  destruct (ApiClient.logout net fuel (AuthContext.client w))
    as [[[]|e|] c1]; simpl in *; intros Hsettled;
    try (now contradiction Hsettled);
    (destruct (Hcleared ltac:(discriminate)) as [Htokens Hauth];
     repeat split; assumption).
Qed.

Lemma context_logout_always_signs_out_witness :
  fst (AuthContext.logout Examples.offline 1 Scenario.fresh_provider)
  <> ApiClient.Pending
  /\ fst (AuthContext.logout Examples.offline 1 Scenario.fresh_provider)
     = ApiClient.Fulfilled tt.
Proof.
  assert (Hsettled : fst (AuthContext.logout Examples.offline 1
                            Scenario.fresh_provider) <> ApiClient.Pending)
    by (vm_compute; discriminate).
  split; [exact Hsettled|].
  exact (proj1 (context_logout_always_signs_out Examples.offline 1
                  Scenario.fresh_provider Hsettled)).
Defined.



(** X8. Once [initializeAuth] has settled it has fulfilled and [isLoading]
    is false.  For a client without an access token nothing is requested
    and only the loading flag changes; and when the provider ends up
    authenticated from its initial state, it holds exactly the tokens the
    API client holds. *)
Theorem initialize_auth_settles
    (net : ApiClient.Network) (fuel : nat) (w : AuthContext.World) :
  let r := AuthContext.initializeAuth net fuel w in
  let s' := AuthContext.state (snd r) in
  fst r <> ApiClient.Pending ->
  fst r = ApiClient.Fulfilled tt
  /\ AuthContext.isLoading s' = false
  /\ (ApiClient.isAuthenticated (AuthContext.client w) = false ->
      AuthContext.client (snd r) = AuthContext.client w
      /\ s' = AuthContext.authReducer (AuthContext.state w)
                (AuthContext.SET_LOADING false))
  /\ (AuthContext.state w = AuthContext.initialState ->
      AuthContext.isAuthenticated s' = true ->
      is_Some (AuthContext.tokens s')
      /\ AuthContext.tokens s'
         = ApiClient.getTokens (AuthContext.client (snd r))).
Proof.
  intros r s'. unfold s', r, AuthContext.initializeAuth.
  destruct (ApiClient.isAuthenticated (AuthContext.client w)) eqn:Hauth.
  - destruct (Session.getCurrentUser net fuel (AuthContext.client w))
      as [[current|e|] c1]; simpl; intros Hsettled;
      try (now contradiction Hsettled).
    + split; [reflexivity|].
      destruct (ApiClient.getTokens c1) as [t|] eqn:Htokens; simpl.
      * split; [reflexivity|]. split; [discriminate|].
        intros _ _. split; [now eexists|now rewrite Htokens].
      * split; [reflexivity|]. split; [discriminate|].
        intros -> Hflag. discriminate Hflag.
    + split; [reflexivity|]. split; [reflexivity|]. split; [discriminate|].
      intros _ Hflag. discriminate Hflag.
  - simpl. intros _. split; [reflexivity|]. split; [reflexivity|].
    split; [intros _; split; reflexivity|].
    intros -> Hflag. discriminate Hflag.
Qed.

Lemma initialize_auth_settles_witness :
  fst (AuthContext.initializeAuth Scenario.login_server 1
         Scenario.fresh_provider) <> ApiClient.Pending
  /\ AuthContext.isLoading
       (AuthContext.state
          (snd (AuthContext.initializeAuth Scenario.login_server 1
                  Scenario.fresh_provider))) = false.
Proof.
  assert (Hsettled :
    fst (AuthContext.initializeAuth Scenario.login_server 1
           Scenario.fresh_provider) <> ApiClient.Pending)
    by (vm_compute; discriminate).
  split; [exact Hsettled|].
  exact (proj1 (proj2 (initialize_auth_settles Scenario.login_server 1
                         Scenario.fresh_provider Hsettled))).
Defined.

(** ** The progress context *)

Section ProgressProperties.
Import ProgressContext.
Variable LearningModule : Type.

Lemma filter_absent (b : string) (l : list string) :
  b ∉ l -> filter (fun x => x <> b) l = l.
Proof.
  induction l as [|x l IH]; intros Habsent; [reflexivity|].
  apply not_elem_of_cons in Habsent as [Hne Hrest].
  rewrite filter_cons. destruct (decide (x <> b)) as [_|Heq].
  - now rewrite IH.
  - contradiction Heq. congruence.
Qed.

Lemma progressMap_snoc (data : list UserProgress) (p : UserProgress) :
  progressMap (data ++ [p]) = assign (lesson_id p) p (progressMap data).
Proof. unfold progressMap. now rewrite foldl_snoc. Qed.

Lemma assign_own (key other : string) (p : UserProgress)
    (record : ProgressRecord) :
  own record !! "__proto__" = None ->
  own (assign key p record) !! other
  = if String.eqb key "__proto__" then own record !! other
    else <[key := p]> (own record) !! other.
Proof.
  intros Hnone. unfold assign.
  destruct (String.eqb_spec key "__proto__") as [->|Hne]; [|reflexivity].
  rewrite Hnone. rewrite bool_decide_eq_false_2 by (intros [x Hx]; discriminate).
  reflexivity.
Qed.

Lemma assign_installed (key : string) (p : UserProgress)
    (record : ProgressRecord) :
  own record !! "__proto__" = None ->
  installed (assign key p record)
  = if String.eqb key "__proto__" then Some p else installed record.
Proof.
  intros Hnone. unfold assign.
  destruct (String.eqb_spec key "__proto__") as [->|Hne]; [|reflexivity].
  rewrite Hnone. rewrite bool_decide_eq_false_2 by (intros [x Hx]; discriminate).
  reflexivity.
Qed.

Lemma progressMap_own_proto (data : list UserProgress) :
  own (progressMap data) !! "__proto__" = None.
Proof.
  induction data as [|p data IH] using rev_ind; [apply lookup_empty|].
  rewrite progressMap_snoc, (assign_own _ _ _ _ IH).
  destruct (String.eqb_spec (lesson_id p) "__proto__") as [_|Hne];
    [exact IH|].
  rewrite lookup_insert_ne by exact Hne. exact IH.
Qed.

Lemma progressMap_own (data : list UserProgress) (key : string) :
  key <> "__proto__" ->
  own (progressMap data) !! key
  = last (filter (fun p => lesson_id p = key) data).
Proof.
  intros Hkey. induction data as [|p data IH] using rev_ind;
    [apply lookup_empty|].
  rewrite progressMap_snoc, (assign_own _ _ _ _ (progressMap_own_proto data)).
  rewrite filter_app, last_app, filter_cons, filter_nil.
  destruct (String.eqb_spec (lesson_id p) "__proto__") as [Hproto|Hne].
  - rewrite decide_False by congruence. exact IH.
  - destruct (decide (lesson_id p = key)) as [<-|Hother].
    + simpl. apply lookup_insert_eq.
    + simpl. rewrite lookup_insert_ne by exact Hother. exact IH.
Qed.

Lemma progressMap_installed (data : list UserProgress) :
  installed (progressMap data)
  = last (filter (fun p => lesson_id p = "__proto__") data).
Proof.
  induction data as [|p data IH] using rev_ind; [reflexivity|].
  rewrite progressMap_snoc,
    (assign_installed _ _ _ (progressMap_own_proto data)).
  rewrite filter_app, last_app, filter_cons, filter_nil.
  destruct (String.eqb_spec (lesson_id p) "__proto__") as [Hproto|Hne].
  - now rewrite decide_True by exact Hproto.
  - rewrite decide_False by exact Hne. exact IH.
Qed.

Lemma last_filter_holds (P : UserProgress -> Prop)
    `{forall p, Decision (P p)} (data : list UserProgress) (p : UserProgress) :
  last (filter P data) = Some p -> P p.
Proof.
  intros Hlast. apply last_Some_elem_of in Hlast.
  now apply list_elem_of_filter in Hlast as [Hp _].
Qed.

Lemma progressMap_keyed (data : list UserProgress) :
  well_keyed (progressMap data).
Proof.
  split.
  - intros key progress Hlookup.
    destruct (decide (key = "__proto__")) as [->|Hkey].
    + now rewrite progressMap_own_proto in Hlookup.
    + rewrite progressMap_own in Hlookup by exact Hkey.
      exact (last_filter_holds _ _ _ Hlookup).
  - intros prototype Hinstalled. rewrite progressMap_installed in Hinstalled.
    exact (last_filter_holds _ _ _ Hinstalled).
Qed.

Lemma inherited_is_no_field (p : UserProgress) (key : string) :
  inherited key = true -> field_truthy p key = None.
Proof.
  unfold inherited. intros Hin. apply bool_decide_eq_true in Hin.
  unfold object_prototype_names in Hin.
  repeat (apply elem_of_cons in Hin as [->|Hin]; [reflexivity|]).
  now apply elem_of_nil in Hin.
Qed.

Lemma lookup_entry_keyed (record : ProgressRecord) (key : string)
    (p : UserProgress) :
  well_keyed record -> lookup record key = Entry p -> lesson_id p = key.
Proof.
  intros [Hown Hinstalled]. unfold lookup.
  destruct (own record !! key) as [q|] eqn:Hq.
  - intros [= <-]. now apply Hown.
  - destruct (installed record) as [prototype|] eqn:Hprototype.
    + destruct (String.eqb_spec key "__proto__") as [->|_].
      * intros [= <-]. now apply Hinstalled.
      * destruct (field_truthy prototype key); [discriminate|].
        unfold inherited_member. destruct (inherited key); discriminate.
    + unfold inherited_member. destruct (inherited key); discriminate.
Qed.

Lemma given_entry_keyed (s : ProgressState LearningModule) (key : string)
    (p : UserProgress) :
  well_keyed (userProgress _ s) ->
  getUserProgress _ s key = Entry p -> lesson_id p = key.
Proof.
  intros Hkeyed Hgiven. apply (lookup_entry_keyed _ _ _ Hkeyed).
  unfold getUserProgress in Hgiven.
  destruct (lookup _ key) as [q|[]|]; try discriminate; exact Hgiven.
Qed.

Lemma spread_with_keyed (record : ProgressRecord) (p : UserProgress) :
  well_keyed record -> well_keyed (spread_with (lesson_id p) p record).
Proof.
  intros [Hown _]. split; [|discriminate].
  intros key progress Hlookup. simpl in Hlookup.
  destruct (decide (lesson_id p = key)) as [<-|Hne].
  - rewrite lookup_insert_eq in Hlookup. now injection Hlookup as <-.
  - rewrite lookup_insert_ne in Hlookup by exact Hne. now apply Hown.
Qed.

Lemma empty_record_keyed : well_keyed empty_record.
Proof.
  split; [|discriminate].
  intros key progress Hlookup. simpl in Hlookup.
  now rewrite lookup_empty in Hlookup.
Qed.

Lemma reducer_keyed (s : ProgressState LearningModule)
    (a : ProgressAction LearningModule) :
  from_provider LearningModule a ->
  well_keyed (userProgress _ s) ->
  well_keyed (userProgress _ (progressReducer _ s a)).
Proof.
  intros Ha Hs. destruct a; simpl; try exact Hs.
  - destruct Ha as [data ->]. apply progressMap_keyed.
  - apply spread_with_keyed, Hs.
  - apply empty_record_keyed.
Qed.

Lemma provider_states_keyed (actions : list (ProgressAction LearningModule))
    (s : ProgressState LearningModule) :
  Forall (from_provider LearningModule) actions ->
  well_keyed (userProgress _ s) ->
  well_keyed (userProgress _ (foldl (progressReducer _) s actions)).
Proof.
  intros Hactions. revert s.
  induction Hactions as [|a actions Ha _ IH]; intros s Hs; [exact Hs|].
  simpl. apply IH, reducer_keyed; assumption.
Qed.

End ProgressProperties.

(** X9. Removing a bookmark removes every occurrence of it (adding does
    not check for duplicates) and nothing else: the other bookmarks stay,
    in their order; adding a bookmark that was not there and removing it
    gives the list back. *)
Theorem removed_bookmark_is_gone (LearningModule : Type)
    (s : ProgressContext.ProgressState LearningModule) (b : string) :
  let bookmarks := ProgressContext.bookmarks LearningModule in
  let reduce := ProgressContext.progressReducer LearningModule in
  let s' := reduce s (ProgressContext.REMOVE_BOOKMARK _ b) in
  (b ∉ bookmarks s')
  /\ (forall x, x <> b -> x ∈ bookmarks s' <-> x ∈ bookmarks s)
  /\ (bookmarks s' `sublist_of` bookmarks s)
  /\ (b ∉ bookmarks (reduce (reduce (reduce s (ProgressContext.ADD_BOOKMARK _ b))
                               (ProgressContext.ADD_BOOKMARK _ b))
                       (ProgressContext.REMOVE_BOOKMARK _ b)))
  /\ (b ∉ bookmarks s ->
      bookmarks (reduce (reduce s (ProgressContext.ADD_BOOKMARK _ b))
                   (ProgressContext.REMOVE_BOOKMARK _ b))
      = bookmarks s).
Proof.
  intros bookmarks reduce s'. subst bookmarks reduce s'. simpl.
  split; [|split; [|split; [|split]]].
  - rewrite list_elem_of_filter. intros [Hne _]. now apply Hne.
  - intros x Hx. rewrite list_elem_of_filter. tauto.
  - apply sublist_filter.
  - rewrite list_elem_of_filter. intros [Hne _]. now apply Hne.
  - intros Habsent. rewrite filter_app, (filter_absent b _ Habsent).
    rewrite filter_cons. destruct (decide (b <> b)) as [Hne|_];
      [now contradiction Hne|].
    rewrite filter_nil. apply app_nil_r.
Qed.

(** X10. The record [loadUserProgress] builds from the progress list
    gives, for each lesson that has entries, the last entry of the list
    for that lesson (a later entry overwrites an earlier one), whatever
    the lesson id is; and every entry it gives is an entry of the lesson
    asked for.  For a lesson without entries [getUserProgress] gives
    [null] when the lesson id is not the name of a member of
    [Object.prototype] and no entry of the list has the lesson id
    [__proto__]; for a lesson id that is such a name ([constructor],
    [toString], ...) it gives not [null] but the inherited member.  An
    entry with the lesson id [__proto__] is not stored as a property of
    the record but becomes its prototype. *)
Theorem progress_map_keeps_last_entry (LearningModule : Type)
    (s0 : ProgressContext.ProgressState LearningModule)
    (data : list ProgressContext.UserProgress) (lessonId : string) :
  let s :=
    ProgressContext.progressReducer LearningModule s0
      (ProgressContext.SET_USER_PROGRESS _ (ProgressContext.progressMap data)) in
  let entries :=
    filter (fun p => ProgressContext.lesson_id p = lessonId) data in
  (forall p, last entries = Some p ->
             ProgressContext.getUserProgress _ s lessonId
             = ProgressContext.Entry p)
  /\ (forall p, ProgressContext.getUserProgress _ s lessonId
                = ProgressContext.Entry p ->
                ProgressContext.lesson_id p = lessonId /\ last entries = Some p)
  /\ (entries = [] ->
      ProgressContext.inherited lessonId = false ->
      (forall p, p ∈ data -> ProgressContext.lesson_id p <> "__proto__") ->
      ProgressContext.getUserProgress _ s lessonId = ProgressContext.Missing)
  /\ (entries = [] ->
      ProgressContext.inherited lessonId = true ->
      ProgressContext.getUserProgress _ s lessonId
      = ProgressContext.Foreign true)
  /\ (ProgressContext.own (ProgressContext.progressMap data) !! "__proto__"
      = None
      /\ ProgressContext.installed (ProgressContext.progressMap data)
         = last (filter (fun p => ProgressContext.lesson_id p = "__proto__")
                   data))
  /\ ProgressContext.well_keyed (ProgressContext.progressMap data).
Proof.
  intros s entries. unfold s, ProgressContext.getUserProgress. simpl.
  assert (Hfound : forall p, last entries = Some p ->
            ProgressContext.lookup (ProgressContext.progressMap data) lessonId
            = ProgressContext.Entry p).
  { intros p Hlast. unfold ProgressContext.lookup.
    destruct (decide (lessonId = "__proto__")) as [->|Hkey].
    - rewrite progressMap_own_proto, progressMap_installed.
      fold entries. now rewrite Hlast.
    - rewrite progressMap_own by exact Hkey. fold entries. now rewrite Hlast. }
  assert (Hentry : forall p,
            ProgressContext.lookup (ProgressContext.progressMap data) lessonId
            = ProgressContext.Entry p ->
            last entries = Some p).
  { intros p. unfold ProgressContext.lookup.
    destruct (decide (lessonId = "__proto__")) as [->|Hkey].
    - rewrite progressMap_own_proto, progressMap_installed. fold entries.
      destruct (last entries) as [q|]; [now intros [= <-]|].
      unfold ProgressContext.inherited_member.
      destruct (ProgressContext.inherited _); discriminate.
    - rewrite progressMap_own by exact Hkey. fold entries.
      destruct (last entries) as [q|]; [now intros [= <-]|].
      destruct (ProgressContext.installed _) as [prototype|].
      + rewrite (proj2 (String.eqb_neq _ _) Hkey).
        destruct (ProgressContext.field_truthy prototype lessonId);
          [discriminate|].
        unfold ProgressContext.inherited_member.
        destruct (ProgressContext.inherited _); discriminate.
      + unfold ProgressContext.inherited_member.
        destruct (ProgressContext.inherited _); discriminate. }
  split; [|split; [|split; [|split; [|split]]]].
  - intros p Hlast. now rewrite (Hfound p Hlast).
  - intros p Hgiven.
    assert (Hlookup : ProgressContext.lookup
                        (ProgressContext.progressMap data) lessonId
                      = ProgressContext.Entry p).
    { destruct (ProgressContext.lookup _ lessonId) as [q|[]|];
        try discriminate; exact Hgiven. }
    split; [|now apply Hentry].
    exact (lookup_entry_keyed _ _ _ (progressMap_keyed data) Hlookup).
  - intros Hnone Hplain Hdata. unfold ProgressContext.lookup.
    assert (Hinstalled : ProgressContext.installed
                           (ProgressContext.progressMap data) = None).
    { rewrite progressMap_installed.
      destruct (last (filter
                        (fun p => ProgressContext.lesson_id p = "__proto__")
                        data)) as [q|] eqn:Hlast; [|reflexivity].
      pose proof (last_filter_holds _ _ _ Hlast) as Hq. simpl in Hq.
      apply last_Some_elem_of, list_elem_of_filter in Hlast as [_ Hin].
      now contradiction (Hdata q Hin). }
    assert (Hkey : lessonId <> "__proto__") by (intros ->; discriminate Hplain).
    rewrite progressMap_own by exact Hkey. fold entries.
    rewrite Hnone, Hinstalled. simpl.
    unfold ProgressContext.inherited_member. now rewrite Hplain.
  - intros Hnone Hname. unfold ProgressContext.lookup.
    destruct (decide (lessonId = "__proto__")) as [->|Hkey].
    + rewrite progressMap_own_proto, progressMap_installed. fold entries.
      rewrite Hnone. reflexivity.
    + rewrite progressMap_own by exact Hkey. fold entries. rewrite Hnone.
      simpl. destruct (ProgressContext.installed _) as [prototype|].
      * rewrite (proj2 (String.eqb_neq _ _) Hkey).
        rewrite (inherited_is_no_field _ _ Hname).
        unfold ProgressContext.inherited_member. now rewrite Hname.
      * unfold ProgressContext.inherited_member. now rewrite Hname.
  - split; [apply progressMap_own_proto|apply progressMap_installed].
  - apply progressMap_keyed.
Qed.

(** X11. In every state the provider's actions lead to, each progress
    entry is stored under its own lesson id.  [updateLessonProgress] for a
    lesson, with an update that does not name another lesson, then stores
    an entry for exactly that lesson.  Each field of it is the value the
    update gives; where the update leaves a field out it is the value of
    the current entry of the lesson, and without a current entry the
    default of the object literal (empty id, the id of the signed-in user,
    [in_progress], no completion date, zero time, score and attempts).
    The own entries of all other lessons, the bookmarks and the modules
    stay as they were, and so does what [getUserProgress] gives for every
    other lesson when no entry had been installed as prototype. *)
Theorem lesson_update_touches_one_lesson (LearningModule : Type)
    (actions : list (ProgressContext.ProgressAction LearningModule))
    (signed_in : option string) (lessonId : string)
    (update : ProgressContext.ProgressUpdate) :
  Forall (ProgressContext.from_provider LearningModule) actions ->
  ProgressContext.new_lesson_id update = None ->
  let s := foldl (ProgressContext.progressReducer LearningModule)
             (ProgressContext.initialState LearningModule) actions in
  let s' := ProgressContext.updateLessonProgress LearningModule signed_in s
              lessonId update in
  let chosen {A : Type} (given : option A) (kept : A) : A :=
    match given with Some value => value | None => kept end in
  ProgressContext.well_keyed (ProgressContext.userProgress _ s)
  /\ ProgressContext.well_keyed (ProgressContext.userProgress _ s')
  /\ (exists p,
        ProgressContext.getUserProgress _ s' lessonId = ProgressContext.Entry p
        /\ ProgressContext.lesson_id p = lessonId
        /\ (forall current,
              ProgressContext.getUserProgress _ s lessonId
              = ProgressContext.Entry current ->
              p = ProgressContext.mkProgress
                    (chosen (ProgressContext.new_id update)
                       (ProgressContext.id current))
                    (chosen (ProgressContext.new_user_id update)
                       (ProgressContext.user_id current))
                    lessonId
                    (chosen (ProgressContext.new_status update)
                       (ProgressContext.status current))
                    (match ProgressContext.new_completion_date update with
                     | Some date => Some date
                     | None => ProgressContext.completion_date current
                     end)
                    (chosen (ProgressContext.new_time_spent update)
                       (ProgressContext.time_spent current))
                    (chosen (ProgressContext.new_score update)
                       (ProgressContext.score current))
                    (chosen (ProgressContext.new_attempts update)
                       (ProgressContext.attempts current)))
        /\ ((forall current,
               ProgressContext.getUserProgress _ s lessonId
               <> ProgressContext.Entry current) ->
            p = ProgressContext.mkProgress
                  (chosen (ProgressContext.new_id update) "")
                  (chosen (ProgressContext.new_user_id update)
                     (Js.or_else signed_in ""))
                  lessonId
                  (chosen (ProgressContext.new_status update)
                     ProgressContext.in_progress)
                  (ProgressContext.new_completion_date update)
                  (chosen (ProgressContext.new_time_spent update) 0)
                  (chosen (ProgressContext.new_score update) 0)
                  (chosen (ProgressContext.new_attempts update) 0)))
  /\ (forall other q,
        other <> lessonId ->
        ProgressContext.own (ProgressContext.userProgress _ s) !! other = Some q ->
        ProgressContext.getUserProgress _ s' other = ProgressContext.Entry q)
  /\ (ProgressContext.installed (ProgressContext.userProgress _ s) = None ->
      forall other, other <> lessonId ->
        ProgressContext.getUserProgress _ s' other
        = ProgressContext.getUserProgress _ s other)
  /\ ProgressContext.bookmarks _ s' = ProgressContext.bookmarks _ s
  /\ ProgressContext.modules _ s' = ProgressContext.modules _ s.
Proof.
  intros Hactions Hsame s s' chosen.
  assert (Hkeyed : ProgressContext.well_keyed (ProgressContext.userProgress _ s)).
  { apply provider_states_keyed; [exact Hactions|]. apply empty_record_keyed. }
  set (merged := ProgressContext.updatedProgress signed_in
                   (ProgressContext.currentProgress _ s lessonId)
                   lessonId update).
  assert (Hcurrent : forall current,
            ProgressContext.getUserProgress _ s lessonId
            = ProgressContext.Entry current
            <-> ProgressContext.currentProgress _ s lessonId = Some current).
  { intros current.
    unfold ProgressContext.getUserProgress, ProgressContext.currentProgress.
    destruct (ProgressContext.lookup _ lessonId) as [q|[]|];
      split; intros Heq; try discriminate; now injection Heq as <-. }
  assert (Hlesson : ProgressContext.lesson_id merged = lessonId).
  { unfold merged, ProgressContext.updatedProgress. simpl.
    rewrite Hsame. unfold ProgressContext.spread.
    destruct (ProgressContext.currentProgress _ s lessonId) as [current|]
      eqn:Hcur; [|reflexivity].
    exact (given_entry_keyed _ _ _ _ Hkeyed
             (proj2 (Hcurrent current) eq_refl)). }
  split; [exact Hkeyed|]. split.
  { apply reducer_keyed; [exact I|exact Hkeyed]. }
  assert (Hstored : ProgressContext.userProgress _ s'
                    = ProgressContext.spread_with lessonId merged
                        (ProgressContext.userProgress _ s)).
  { rewrite <- Hlesson at 1. reflexivity. }
  assert (Hlookup' : forall other,
            ProgressContext.lookup (ProgressContext.userProgress _ s') other
            = match <[lessonId := merged]>
                      (ProgressContext.own (ProgressContext.userProgress _ s))
                    !! other with
              | Some q => ProgressContext.Entry q
              | None => ProgressContext.inherited_member other
              end).
  { intros other. rewrite Hstored. reflexivity. }
  split.
  { exists merged. unfold ProgressContext.getUserProgress.
    rewrite Hlookup', lookup_insert_eq. split; [reflexivity|].
    split; [exact Hlesson|]. split.
    - intros current Hgiven.
      pose proof (given_entry_keyed _ _ _ _ Hkeyed Hgiven) as Hid.
      apply Hcurrent in Hgiven.
      unfold merged, ProgressContext.updatedProgress, ProgressContext.spread.
      rewrite Hgiven, Hsame, Hid. reflexivity.
    - intros Hnone.
      unfold merged, ProgressContext.updatedProgress, ProgressContext.spread.
      destruct (ProgressContext.currentProgress _ s lessonId) as [current|]
        eqn:Hcur.
      + now contradiction (Hnone current (proj2 (Hcurrent current) eq_refl)).
      + rewrite Hsame.
        destruct (ProgressContext.new_completion_date update); reflexivity. }
  split.
  { intros other q Hother Hq. unfold ProgressContext.getUserProgress.
    rewrite Hlookup', lookup_insert_ne by congruence. now rewrite Hq. }
  split.
  { intros Hplain other Hother. unfold ProgressContext.getUserProgress.
    rewrite Hlookup', lookup_insert_ne by congruence.
    unfold ProgressContext.lookup. rewrite Hplain. reflexivity. }
  split; reflexivity.
Qed.

Lemma lesson_update_touches_one_lesson_witness :
  Forall (ProgressContext.from_provider unit) [ProgressScenario.loaded]
  /\ ProgressContext.new_lesson_id ProgressScenario.completed_update = None
  /\ ProgressContext.well_keyed
       (ProgressContext.userProgress unit
          (foldl (ProgressContext.progressReducer unit)
             (ProgressContext.initialState unit) [ProgressScenario.loaded])).
Proof.
  assert (Hprovider : Forall (ProgressContext.from_provider unit)
                        [ProgressScenario.loaded]).
  { constructor; [|constructor]. now exists [ProgressScenario.first_visit]. }
  split; [exact Hprovider|]. split; [reflexivity|].
  exact (proj1 (lesson_update_touches_one_lesson unit
                  [ProgressScenario.loaded] (Some "user-1") "lesson-1"
                  ProgressScenario.completed_update Hprovider eq_refl)).
Defined.

(** ** More on the code editor *)

(** X12. Running code changes nothing in the editor but the execution
    result and the [isExecuting] flag: the code, the validation result,
    [isValidating], the hints and [showHints] stay; submitting for
    validation likewise keeps the code, the execution result,
    [isExecuting], the hints and [showHints]. *)
Theorem run_and_submit_keep_the_rest
    (props : CodeEditor.Props) (api : CodeEditor.Api) (w : CodeEditor.World) :
  let s := CodeEditor.state w in
  let e := CodeEditor.state (snd (CodeEditor.executeCode props api w)) in
  let v := CodeEditor.state (snd (CodeEditor.validateExercise props api w)) in
  (CodeEditor.code e = CodeEditor.code s
   /\ CodeEditor.validationResult e = CodeEditor.validationResult s
   /\ CodeEditor.isValidating e = CodeEditor.isValidating s
   /\ CodeEditor.hints e = CodeEditor.hints s
   /\ CodeEditor.showHints e = CodeEditor.showHints s)
  /\ (CodeEditor.code v = CodeEditor.code s
      /\ CodeEditor.executionResult v = CodeEditor.executionResult s
      /\ CodeEditor.isExecuting v = CodeEditor.isExecuting s
      /\ CodeEditor.hints v = CodeEditor.hints s
      /\ CodeEditor.showHints v = CodeEditor.showHints s).
Proof.
  intros s e v. split.
  - unfold e. rewrite executeCode_final_state. repeat split.
  - unfold v.
    destruct (CodeEditor.usable_exerciseId props) as [exercise_id|] eqn:Hid.
    + rewrite (validateExercise_final_state props api w exercise_id Hid).
      repeat split.
    + unfold CodeEditor.validateExercise. rewrite Hid. repeat split.
Qed.

(** X13. [executeCode] calls the API exactly once, with the current code
    and the language, and then only notifies [onExecute].  With a callback
    the last thing it does is to hand over the very result it stored, and
    it throws only if the callback throws on that result; without a
    callback it never throws. *)
Theorem execute_notifies_stored_result
    (props : CodeEditor.Props) (api : CodeEditor.Api) (w : CodeEditor.World) :
  let current := CodeEditor.code (CodeEditor.state w) in
  let stored := CodeEditor.execution_stored props api current in
  let r := CodeEditor.executeCode props api w in
  (exists calls,
     CodeEditor.trace (snd r)
     = CodeEditor.trace w
       ++ CodeEditor.ApiExecuteCode current (CodeEditor.language props) :: calls
     /\ (length calls <= 2)%nat
     /\ Forall (fun event => exists result, event = CodeEditor.OnExecute result)
          calls)
  /\ match CodeEditor.onExecute props with
     | Some callback =>
         last (CodeEditor.trace (snd r)) = Some (CodeEditor.OnExecute stored)
         /\ fst r = match callback stored with
                    | None => Async.Normal tt
                    | Some error => Async.Abrupt error
                    end
     | None =>
         fst r = Async.Normal tt
         /\ CodeEditor.trace (snd r)
            = CodeEditor.trace w
              ++ [CodeEditor.ApiExecuteCode current (CodeEditor.language props)]
     end.
Proof.
  intros current stored r. unfold r, stored, current.
  unfold CodeEditor.executeCode, CodeEditor.execution_stored,
    CodeEditor.setState, CodeEditor.emit.
  unfold Async.try_finally, Async.try_catch, Async.call_optional, Async.await,
    Async.throw, Async.gets, Async.modify, mbind, mret, Async.M_bind,
    Async.M_ret.
  simpl.
  assert (Hnotify : forall result,
            exists result', CodeEditor.OnExecute result
                            = CodeEditor.OnExecute result')
    by (intros result; now exists result).
  destruct (CodeEditor.api_executeCode api _ _) as [result|error]; simpl;
    destruct (CodeEditor.onExecute props) as [callback|]; simpl.
  - destruct (callback result) as [error|] eqn:Hfirst; simpl.
    + destruct (callback (CodeEditor.errorResult_execute error)) eqn:Hsecond;
        simpl; rewrite ?Hfirst, ?Hsecond; (split;
          [eexists; rewrite <- !app_assoc; simpl; split; [reflexivity|];
           split; [simpl; lia|repeat constructor; apply Hnotify]
          |split; [rewrite !last_snoc; reflexivity|reflexivity]]).
    + rewrite ?Hfirst. split.
      * eexists. rewrite <- !app_assoc. simpl. split; [reflexivity|].
        split; [simpl; lia|repeat constructor; apply Hnotify].
      * split; [now rewrite last_snoc|reflexivity].
  - split; [|split; reflexivity].
    exists []. split; [reflexivity|]. split; [simpl; lia|constructor].
  - destruct (callback (CodeEditor.errorResult_execute error)) eqn:Hsecond;
      simpl; rewrite ?Hsecond; (split;
        [eexists; rewrite <- !app_assoc; simpl; split; [reflexivity|];
         split; [simpl; lia|repeat constructor; apply Hnotify]
        |split; [rewrite !last_snoc; reflexivity|reflexivity]]).
  - split; [|split; reflexivity].
    exists []. split; [reflexivity|]. split; [simpl; lia|constructor].
Qed.

(** ** More on the exercise view *)

(** X14. Past its guard [handleSubmit] never throws and validates exactly
    once, with the exercise id and the current code.  The completion is
    recorded ([submitExercise]) exactly when the validation succeeded, and
    [onComplete] is called only after that was recorded; when recording
    fails, the passed validation is replaced on screen by the generic
    failure result, as after any logged error. *)
Theorem submission_records_only_successes
    (env : ExerciseDisplay.Env) (w : ExerciseDisplay.World) :
  is_Some (ExerciseDisplay.user env) ->
  ExerciseDisplay.blank (ExerciseDisplay.code (ExerciseDisplay.state w)) = false ->
  let exercise_id := ExerciseDisplay.id (ExerciseDisplay.exercise env) in
  let current := ExerciseDisplay.code (ExerciseDisplay.state w) in
  let validated := ExerciseDisplay.api_validateExercise env exercise_id current in
  let recorded := ExerciseDisplay.submitExercise env exercise_id current in
  let r := ExerciseDisplay.handleSubmit env w in
  let shown := ExerciseDisplay.validationResult (ExerciseDisplay.state (snd r)) in
  fst r = Async.Normal tt
  /\ exists after,
       ExerciseDisplay.trace (snd r)
       = ExerciseDisplay.trace w
         ++ ExerciseDisplay.ApiValidateExercise exercise_id current :: after
       /\ (forall i c, ~ In (ExerciseDisplay.ApiValidateExercise i c) after)
       /\ (In (ExerciseDisplay.SubmitExercise exercise_id current) after
           <-> exists result,
                 validated = Js.Resolved result /\ success result = true)
       /\ (forall result,
             In (ExerciseDisplay.OnComplete result) after ->
             validated = Js.Resolved result /\ success result = true
             /\ recorded = Js.Resolved tt)
       /\ (In ExerciseDisplay.ConsoleError after ->
           shown = Some ExerciseDisplay.failed_validation)
       /\ (forall error, recorded = Js.Rejected error ->
           (exists result,
              validated = Js.Resolved result /\ success result = true) ->
           shown = Some ExerciseDisplay.failed_validation).
Proof.
  intros Huser Hcode exercise_id current validated recorded r shown.
  unfold shown, r, validated, recorded, exercise_id, current.
  unfold ExerciseDisplay.handleSubmit.
  unfold ExerciseDisplay.setIsSubmitting, ExerciseDisplay.setAttempts,
    ExerciseDisplay.setValidationResult, ExerciseDisplay.emit.
  unfold Async.try_finally, Async.try_catch, Async.call_optional, Async.await,
    Async.throw, Async.gets, Async.modify, mbind, mret, Async.M_bind,
    Async.M_ret.
  simpl. rewrite Hcode, bool_decide_eq_true_2 by assumption. simpl.
  destruct (ExerciseDisplay.api_validateExercise env _ _) as [result|error];
    simpl.
  2:{ split; [reflexivity|]. eexists. rewrite <- !app_assoc. simpl.
      split; [reflexivity|]. simpl.
      split; [intros i c [H|[]]; discriminate|].
      split; [split; [intros [H|[]]; discriminate
                     |intros (result & H & _); discriminate]|].
      split; [intros result [H|[]]; discriminate|].
      split; [reflexivity|]. intros e _ (result & H & _). discriminate. }
  destruct (success result) eqn:Hsuccess; simpl.
  2:{ split; [reflexivity|]. exists [].
      split; [reflexivity|]. simpl.
      split; [intros i c []|].
      split; [split; [intros []|intros (res & [= <-] & Hyes); congruence]|].
      split; [intros res []|].
      split; [intros []|].
      intros e _ (res & [= <-] & Hyes). congruence. }
  destruct (ExerciseDisplay.submitExercise env _ _) as [[]|error]; simpl.
  2:{ split; [reflexivity|]. eexists. rewrite <- !app_assoc. simpl.
      split; [reflexivity|]. simpl.
      split; [intros i c [H|[H|[]]]; discriminate|].
      split; [split; [intros _; now exists result|intros _; now left]|].
      split; [intros res [H|[H|[]]]; discriminate|].
      split; reflexivity. }
  destruct (ExerciseDisplay.onComplete env) as [callback|]; simpl.
  2:{ split; [reflexivity|]. eexists. rewrite <- !app_assoc. simpl.
      split; [reflexivity|]. simpl.
      split; [intros i c [H|[]]; discriminate|].
      split; [split; [intros _; now exists result|intros _; now left]|].
      split; [intros res [H|[]]; discriminate|].
      split; [intros [H|[]]; discriminate|].
      intros e He. discriminate He. }
  destruct (callback result) as [thrown|]; simpl.
  - split; [reflexivity|]. eexists. rewrite <- !app_assoc. simpl.
    split; [reflexivity|]. simpl.
    split; [intros i c [H|[H|[H|[]]]]; discriminate|].
    split; [split; [intros _; now exists result|intros _; now left]|].
    split.
    { intros res [H|[H|[H|[]]]]; try discriminate.
      injection H as <-. now repeat split. }
    split; [reflexivity|]. intros e He. discriminate He.
  - split; [reflexivity|]. eexists. rewrite <- !app_assoc. simpl.
    split; [reflexivity|]. simpl.
    split; [intros i c [H|[H|[]]]; discriminate|].
    split; [split; [intros _; now exists result|intros _; now left]|].
    split.
    { intros res [H|[H|[]]]; try discriminate.
      injection H as <-. now repeat split. }
    split; [intros [H|[H|[]]]; discriminate|].
    intros e He. discriminate He.
Qed.

Lemma submission_records_only_successes_witness :
  is_Some (ExerciseDisplay.user Examples.display_env)
  /\ ExerciseDisplay.blank
       (ExerciseDisplay.code (ExerciseDisplay.state Examples.display_world))
     = false
  /\ fst (ExerciseDisplay.handleSubmit Examples.display_env
            Examples.display_world) = Async.Normal tt.
Proof.
  assert (Huser : is_Some (ExerciseDisplay.user Examples.display_env))
    by (exists "user-1"; reflexivity).
  split; [exact Huser|]. split; [reflexivity|].
  exact (proj1 (submission_records_only_successes Examples.display_env
                  Examples.display_world Huser eq_refl)).
Defined.

(** ** The displayed time *)

Lemma string_length_app (a b : string) :
  String.length (a +:+ b) = (String.length a + String.length b)%nat.
Proof. induction a as [|c a IH]; simpl; [reflexivity|now rewrite IH]. Qed.

Lemma string_app_inv_tail (a b x y : string) :
  String.length x = String.length y ->
  a +:+ x = b +:+ y -> a = b /\ x = y.
Proof.
  revert b. induction a as [|c a IH]; intros [|d b] Hlen Heq.
  - now split.
  - change (x = String d (b +:+ y)) in Heq.
    rewrite Heq in Hlen. simpl in Hlen. rewrite string_length_app in Hlen.
    lia.
  - change (String c (a +:+ x) = y) in Heq.
    rewrite <- Heq in Hlen. simpl in Hlen.
    rewrite string_length_app in Hlen. lia.
  - change (String c (a +:+ x) = String d (b +:+ y)) in Heq.
    injection Heq as -> Heq. destruct (IH b Hlen Heq) as [-> ->]. now split.
Qed.

(** The seconds field: two characters that read back as the number. *)
Lemma seconds_field (r : Z) :
  0 <= r < 60 ->
  String.length (Format.padStart 2 (pretty r)) = 2%nat
  /\ Format.two_digits (Format.padStart 2 (pretty r)) = r.
Proof.
  intros Hr. rewrite <- (Z2Nat.id r) by lia.
  assert (Hn : (Z.to_nat r < 60)%nat) by lia.
  generalize dependent (Z.to_nat r). clear r Hr. intros n Hn.
  do 60 (destruct n as [|n]; [vm_compute; split; reflexivity|]).
  lia.
Qed.

(** X15. For a whole number of seconds that is not negative and within
    the safe integers (as the elapsed time is, counted up from 0 by
    seconds), [formatTime] gives the minutes, a colon and a seconds field
    of exactly two characters that reads back as the seconds left over,
    below 60; the text determines the time: two different durations are
    never displayed the same. *)
Theorem format_time_is_faithful (seconds other : Z) :
  0 <= seconds <= Format.max_safe_integer ->
  0 <= other <= Format.max_safe_integer ->
  (exists field,
     Format.formatTime seconds = pretty (seconds / 60) +:+ ":" +:+ field
     /\ String.length field = 2%nat
     /\ 0 <= Format.two_digits field < 60
     /\ 60 * (seconds / 60) + Format.two_digits field = seconds)
  /\ (Format.formatTime seconds = Format.formatTime other -> seconds = other).
Proof.
  intros [Hs _] [Ho _].
  assert (Hfield : forall s, 0 <= s ->
            String.length (Format.padStart 2 (pretty (Z.rem s 60))) = 2%nat
            /\ Format.two_digits (Format.padStart 2 (pretty (Z.rem s 60)))
               = s mod 60).
  { intros s Hpos. rewrite Z.rem_mod_nonneg by lia.
    apply seconds_field. apply Z.mod_pos_bound. lia. }
  split.
  - exists (Format.padStart 2 (pretty (Z.rem seconds 60))).
    destruct (Hfield seconds Hs) as [Hlen Hvalue].
    split; [reflexivity|]. split; [exact Hlen|]. rewrite Hvalue.
    pose proof (Z.mod_pos_bound seconds 60 ltac:(lia)).
    pose proof (Z.div_mod seconds 60 ltac:(lia)). lia.
  - unfold Format.formatTime. intros Heq.
    destruct (Hfield seconds Hs) as [Hlen1 Hvalue1].
    destruct (Hfield other Ho) as [Hlen2 Hvalue2].
    apply string_app_inv_tail in Heq as [Hminutes Hrest].
    2:{ now rewrite !string_length_app, Hlen1, Hlen2. }
    apply String.app_inj in Hrest.
    apply (inj pretty) in Hminutes.
    assert (Hmod : seconds mod 60 = other mod 60)
      by (rewrite <- Hvalue1, <- Hvalue2, Hrest; reflexivity).
    pose proof (Z.div_mod seconds 60 ltac:(lia)).
    pose proof (Z.div_mod other 60 ltac:(lia)). lia.
Qed.

Lemma format_time_is_faithful_witness :
  0 <= 65 <= Format.max_safe_integer
  /\ 0 <= 125 <= Format.max_safe_integer
  /\ Format.formatTime 65 = "1:05"
  /\ (Format.formatTime 65 = Format.formatTime 125 -> 65 = 125).
Proof.
  assert (Hfirst : 0 <= 65 <= Format.max_safe_integer)
    by (unfold Format.max_safe_integer; lia).
  assert (Hsecond : 0 <= 125 <= Format.max_safe_integer)
    by (unfold Format.max_safe_integer; lia).
  split; [exact Hfirst|]. split; [exact Hsecond|]. split; [reflexivity|].
  exact (proj2 (format_time_is_faithful 65 125 Hfirst Hsecond)).
Defined.

(** ** More on the hints *)

(** X16. Right after mounting, and after every change of the exercise,
    a load of the hints is under way and the spinner is shown; a load
    that ends with no hints shows the note that there are none.  Whenever
    the panel itself is rendered (the hints are loaded and there is at
    least one) and hints are still hidden, it shows no button but the
    count of attempts still to make, which is 1 or 2 (2 after an even
    number of attempts, 1 after an odd one), and not the "all revealed"
    banner; after exactly that many more attempts one more hint is
    revealed. *)
Theorem next_hint_is_one_or_two_attempts_away
    (attempts0 : Z) (events : list ExerciseHints.Event) :
  let c := ExerciseHints.run (ExerciseHints.mount attempts0) events in
  let s := ExerciseHints.hooks c in
  let a := ExerciseHints.attempts c in
  HintsView.render attempts0 (ExerciseHints.hooks (ExerciseHints.mount attempts0))
  = HintsView.Spinner
  /\ HintsView.render a
       (ExerciseHints.hooks (ExerciseHints.step c ExerciseHints.ExerciseChanged))
     = HintsView.Spinner
  /\ (forall props_hints response,
        ExerciseHints.loaded_hints props_hints response = [] ->
        HintsView.render a
          (ExerciseHints.hooks
             (ExerciseHints.step c
                (ExerciseHints.HintsLoaded props_hints response)))
        = HintsView.NoHints)
  /\ (forall shown next banner,
        HintsView.render a s = HintsView.HintsPanel shown next banner ->
        ExerciseHints.revealedHints s < ExerciseHints.hint_count s ->
        exists k,
          next = ExerciseHints.Locked k
          /\ 1 <= k <= 2
          /\ k = 2 - a mod 2
          /\ banner = false
          /\ shown = HintsView.visible_hints s
          /\ ExerciseHints.revealedHints
               (ExerciseHints.hooks
                  (ExerciseHints.step c
                     (ExerciseHints.AttemptsChanged (a + k))))
             = ExerciseHints.revealedHints s + 1).
Proof.
  intros c s a. split; [reflexivity|]. split; [reflexivity|]. split.
  { intros props_hints response Hempty. simpl. rewrite Hempty.
    case_bool_decide; reflexivity. }
  intros shown next banner Hpanel Hhidden.
  assert (Hsettled : ExerciseHints.settled c)
    by (apply run_settled; reflexivity).
  unfold ExerciseHints.settled, ExerciseHints.hintsToReveal in Hsettled.
  fold s a in Hsettled.
  unfold HintsView.render in Hpanel.
  destruct (ExerciseHints.isLoading s); [discriminate|].
  destruct (ExerciseHints.hint_count s =? 0); [discriminate|].
  injection Hpanel as <- <- <-.
  unfold ExerciseHints.hint_count in Hhidden.
  pose proof (Z.div_mod a 2 ltac:(lia)) as Hdm.
  pose proof (Z.mod_pos_bound a 2 ltac:(lia)) as Hmod.
  assert (Hhalf : ExerciseHints.revealedHints s = a / 2) by lia.
  exists ((ExerciseHints.revealedHints s + 1) * 2 - a).
  split.
  { unfold ExerciseHints.next_hint, ExerciseHints.hint_count.
    destruct (Z.ltb_spec (ExerciseHints.revealedHints s)
                (Z.of_nat (length (ExerciseHints.availableHints s))));
      [|lia].
    destruct (Z.leb_spec ((ExerciseHints.revealedHints s + 1) * 2) a);
      [lia|reflexivity]. }
  split; [lia|]. split; [lia|]. split; [|split; [reflexivity|]].
  - unfold HintsView.all_revealed, ExerciseHints.hint_count.
    destruct (Z.eqb_spec (ExerciseHints.revealedHints s)
                (Z.of_nat (length (ExerciseHints.availableHints s))));
      [lia|reflexivity].
  - simpl. fold a. case_bool_decide as Hsame; [lia|]. simpl. fold s.
    unfold ExerciseHints.hintsToReveal.
    replace (a + ((ExerciseHints.revealedHints s + 1) * 2 - a))
      with ((a / 2 + 1) * 2) by lia.
    rewrite Z.div_mul by lia. lia.
Qed.

Lemma next_hint_is_one_or_two_attempts_away_witness :
  let c :=
    ExerciseHints.run (ExerciseHints.mount 3)
      [ExerciseHints.HintsLoaded []
         (ExerciseHints.HintsArray ["Import Flask"; "Create an app"])] in
  HintsView.render 3 (ExerciseHints.hooks c)
  = HintsView.HintsPanel ["Import Flask"] (ExerciseHints.Locked 1) false
  /\ ExerciseHints.revealedHints (ExerciseHints.hooks c)
     < ExerciseHints.hint_count (ExerciseHints.hooks c)
  /\ exists k, ExerciseHints.Locked 1 = ExerciseHints.Locked k /\ 1 <= k <= 2.
Proof.
  intros c.
  assert (Hpanel :
    HintsView.render 3 (ExerciseHints.hooks c)
    = HintsView.HintsPanel ["Import Flask"] (ExerciseHints.Locked 1) false)
    by reflexivity.
  assert (Hhidden :
    ExerciseHints.revealedHints (ExerciseHints.hooks c)
    < ExerciseHints.hint_count (ExerciseHints.hooks c))
    by (vm_compute; reflexivity).
  split; [exact Hpanel|]. split; [exact Hhidden|].
  destruct (proj2 (proj2 (proj2 (next_hint_is_one_or_two_attempts_away 3
              [ExerciseHints.HintsLoaded []
                 (ExerciseHints.HintsArray ["Import Flask"; "Create an app"])])))
              _ _ _ Hpanel Hhidden)
    as (k & Hlocked & Hrange & _).
  exists k. split; [exact Hlocked|exact Hrange].
Defined.

(** X17. With more attempts the panel only shows more: the hints shown
    after [a] attempts are the first [min (floor (a / 2)) n] of the [n]
    available ones and a prefix of the hints shown after any larger number
    of attempts; from [2 * n] attempts on, all are shown. *)
Theorem revealed_hints_only_grow (a a' : Z) (h : list string) :
  0 <= a <= a' ->
  let shown_after attempts :=
    HintsView.visible_hints
      (ExerciseHints.reveal_effect attempts (ExerciseHints.mkState h 0 false)) in
  shown_after a = take (Z.to_nat (Z.min (a / 2) (Z.of_nat (length h)))) h
  /\ Z.of_nat (length (shown_after a)) = ExerciseHints.hintsToReveal a h
  /\ (shown_after a `prefix_of` shown_after a')
  /\ (shown_after a' `prefix_of` h)
  /\ (2 * Z.of_nat (length h) <= a -> shown_after a = h).
Proof.
  intros Hle shown_after.
  assert (Hshown : forall x, 0 <= x ->
            shown_after x
            = take (Z.to_nat (ExerciseHints.hintsToReveal x h)) h).
  { intros x Hx. unfold shown_after, HintsView.visible_hints,
      HintsView.slice_to. simpl.
    destruct (hintsToReveal_bounds x h Hx) as [[Hpos _] _].
    destruct (Z.ltb_spec (ExerciseHints.hintsToReveal x h) 0); [lia|].
    reflexivity. }
  destruct (hintsToReveal_bounds a h ltac:(lia)) as [[Hpos Hmax] _].
  destruct (hintsToReveal_bounds a' h ltac:(lia)) as [[Hpos' Hmax'] _].
  assert (Hmono : ExerciseHints.hintsToReveal a h
                  <= ExerciseHints.hintsToReveal a' h).
  { unfold ExerciseHints.hintsToReveal.
    pose proof (Z.div_le_mono a a' 2 ltac:(lia) ltac:(lia)). lia. }
  rewrite !Hshown by lia.
  split; [reflexivity|]. split; [rewrite length_take; lia|].
  split.
  - replace (take (Z.to_nat (ExerciseHints.hintsToReveal a h)) h)
      with (take (Z.to_nat (ExerciseHints.hintsToReveal a h))
              (take (Z.to_nat (ExerciseHints.hintsToReveal a' h)) h)).
    + apply prefix_take.
    + rewrite take_take. f_equal. lia.
  - split; [apply prefix_take|].
    intros Hall. apply take_ge. unfold ExerciseHints.hintsToReveal.
    pose proof (Z.div_le_mono (2 * Z.of_nat (length h)) a 2 ltac:(lia) Hall)
      as Hdiv.
    rewrite Z.mul_comm, Z.div_mul in Hdiv by lia. lia.
Qed.

Lemma revealed_hints_only_grow_witness :
  0 <= 2 <= 5
  /\ HintsView.visible_hints
       (ExerciseHints.reveal_effect 2
          (ExerciseHints.mkState ["Import Flask"; "Create an app"; "Add a route"]
             0 false))
     `prefix_of`
     HintsView.visible_hints
       (ExerciseHints.reveal_effect 5
          (ExerciseHints.mkState ["Import Flask"; "Create an app"; "Add a route"]
             0 false)).
Proof.
  split; [lia|].
  exact (proj1 (proj2 (proj2 (revealed_hints_only_grow 2 5
    ["Import Flask"; "Create an app"; "Add a route"] ltac:(lia))))).
Defined.

(** ** The progress cards *)

Ltac split_comparisons :=
  repeat match goal with
         | |- context [?a =? ?b] => destruct (Z.eqb_spec a b)
         | |- context [?a <=? ?b] => destruct (Z.leb_spec a b)
         | |- context [?a <? ?b] => destruct (Z.ltb_spec a b)
         end;
  simpl; try lia.

Ltac settle_band := repeat split; (reflexivity || lia).

(** X18. The attempts card shows exactly one message for every attempt
    count from 0 on, and the message and the colour of the number belong
    to the same band (0; 1-2; 3-5; above 5). *)
Theorem attempts_card_is_consistent (attempts : Z) :
  0 <= attempts ->
  let shown := ExerciseProgress.attempt_messages attempts in
  let colour := ExerciseProgress.getAttemptColor attempts in
  (attempts = 0 /\ shown = ["No attempts yet"] /\ colour = "text-gray-500")
  \/ (1 <= attempts <= 2 /\ shown = ["Great start!"]
      /\ colour = "text-green-600")
  \/ (3 <= attempts <= 5 /\ shown = ["Keep trying!"]
      /\ colour = "text-yellow-600")
  \/ (5 < attempts /\ shown = ["Consider reviewing hints"]
      /\ colour = "text-red-600").
Proof.
  intros Hpos shown colour. unfold shown, colour,
    ExerciseProgress.attempt_messages, ExerciseProgress.getAttemptColor.
  split_comparisons;
    first [left; solve [settle_band]
          |right; left; solve [settle_band]
          |right; right; left; solve [settle_band]
          |right; right; right; solve [settle_band]].
Qed.

Lemma attempts_card_is_consistent_witness :
  0 <= 4 /\ ExerciseProgress.attempt_messages 4 = ["Keep trying!"].
Proof.
  split; [lia|].
  destruct (attempts_card_is_consistent 4 ltac:(lia))
    as [[H _]|[[H _]|[(_ & H & _)|[H _]]]]; try lia.
  exact H.
Defined.

(** X19. The time card shows exactly one message for every elapsed time,
    and the message and the colour of the time belong to the same band
    (under 5 minutes; under 15 minutes; 15 minutes and more). *)
Theorem time_card_is_consistent (timeSpent : Z) :
  let shown := ExerciseProgress.time_messages timeSpent in
  let colour := ExerciseProgress.getTimeColor timeSpent in
  (timeSpent < 300 /\ shown = ["Quick work!"] /\ colour = "text-green-600")
  \/ (300 <= timeSpent < 900 /\ shown = ["Good pace"]
      /\ colour = "text-yellow-600")
  \/ (900 <= timeSpent /\ shown = ["Take your time"]
      /\ colour = "text-red-600").
Proof.
  intros shown colour. unfold shown, colour,
    ExerciseProgress.time_messages, ExerciseProgress.getTimeColor.
  split_comparisons;
    first [left; solve [settle_band]
          |right; left; solve [settle_band]
          |right; right; solve [settle_band]].
Qed.

(** ** Settling *)

Lemma add_auth_url (w : ApiClient.World) (cfg : ApiClient.RequestConfig) :
  ApiClient.url (ApiClient.add_auth w cfg) = ApiClient.url cfg.
Proof.
  unfold ApiClient.add_auth. destruct (ApiClient.tokens w) as [t|];
    [|reflexivity].
  destruct (Js.truthy (ApiClient.access_token t)); reflexivity.
Qed.

Lemma dispatch_not_unauthorized (net : ApiClient.Network) (f : nat)
    (cfg : ApiClient.RequestConfig) (w : ApiClient.World) :
  ApiClient.failure_status
    (net (ApiClient.sent w ++ [ApiClient.add_auth w cfg])) <> Some (Some 401) ->
  fst (ApiClient.dispatch net (S f) cfg w) <> ApiClient.Pending.
Proof.
  intros Hanswer. rewrite dispatch_step.
  change (ApiClient.sent (ApiClient.put_on_wire (ApiClient.add_auth w cfg) w))
    with (ApiClient.sent w ++ [ApiClient.add_auth w cfg]).
  unfold ApiClient.failure_status in Hanswer.
  destruct (net _) as [status body|].
  - destruct (ApiClient.status_ok status); [simpl; discriminate|].
    unfold ApiClient.on_rejected_with, ApiClient.wants_retry.
    destruct (Z.eqb_spec status 401) as [->|_];
      [now contradiction Hanswer|simpl; discriminate].
  - simpl. discriminate.
Qed.

(** X20. If the refresh endpoint never answers 401, every request of the
    client settles: two levels of the client calling itself are enough,
    one for the request and one for the refresh or the retry. *)
Theorem requests_settle_when_refresh_is_honest
    (net : ApiClient.Network) (f : nat) (cfg : ApiClient.RequestConfig)
    (w : ApiClient.World) :
  Lockout.refresh_never_unauthorized net ->
  fst (ApiClient.dispatch net (S (S f)) cfg w) <> ApiClient.Pending.
Proof.
  intros Hhonest. rewrite dispatch_step.
  set (cfg1 := ApiClient.add_auth w cfg).
  set (w1 := ApiClient.put_on_wire cfg1 w).
  assert (Hrejected : forall status,
            fst (ApiClient.on_rejected_with (ApiClient.dispatch net (S f))
                   status cfg1 w1) <> ApiClient.Pending).
  { intros status. unfold ApiClient.on_rejected_with.
    destruct (ApiClient.wants_retry status cfg1); [|simpl; discriminate].
    assert (Hrefresh :
      fst (ApiClient.refreshToken_with (ApiClient.dispatch net (S f)) w1)
      <> ApiClient.Pending).
    { unfold ApiClient.refreshToken_with.
      destruct (match ApiClient.tokens w1 with
                | Some t => _
                | None => None
                end) as [token|]; [|simpl; discriminate].
      unfold ApiClient.new_request.
      set (cfgR := ApiClient.mkConfig _ ApiClient.POST "/auth/refresh" _ None
                     false).
      set (wR := ApiClient.mkWorld _ _ _ _ _).
      pose proof (dispatch_not_unauthorized net f cfgR wR) as Hsettles.
      destruct (ApiClient.dispatch net (S f) cfgR wR) as [[body|e|] w2];
        simpl in *; try discriminate.
      intros _. apply Hsettles; [|reflexivity].
      apply Hhonest. now rewrite add_auth_url. }
    destruct (ApiClient.refreshToken_with _ w1) as [[t|e|] w2];
      cbn [fst snd] in *.
    - rewrite (dispatch_marked net f (ApiClient.set_retry cfg1) w2 eq_refl).
      cbv zeta. destruct (net _) as [status' body'|]; [|simpl; discriminate].
      destruct (ApiClient.status_ok status'); simpl; discriminate.
    - discriminate.
    - now contradiction Hrefresh. }
  destruct (net _) as [status body|]; [|apply Hrejected].
  destruct (ApiClient.status_ok status); [simpl; discriminate|apply Hrejected].
Qed.

Lemma requests_settle_when_refresh_is_honest_witness :
  Lockout.refresh_never_unauthorized Examples.expiring_server
  /\ fst (ApiClient.dispatch Examples.expiring_server 2
            Examples.modules_request Examples.signed_in)
     <> ApiClient.Pending.
Proof.
  assert (Hhonest : Lockout.refresh_never_unauthorized Examples.expiring_server).
  { intros log cfg Hurl. unfold Examples.expiring_server.
    rewrite last_snoc, Hurl. simpl. discriminate. }
  split; [exact Hhonest|].
  exact (requests_settle_when_refresh_is_honest Examples.expiring_server 0
           Examples.modules_request Examples.signed_in Hhonest).
Defined.

(** X21. Against a server that answers 401 to everything, the refresh
    endpoint included, a request of a client that holds a refresh token
    never settles: each refresh request is a new request, so its 401 starts
    another refresh.  However deep the client is allowed to call itself,
    the promise is still pending and that many requests have gone out. *)
Theorem refresh_storm_never_settles
    (fuel : nat) (cfg : ApiClient.RequestConfig) (w : ApiClient.World) :
  ApiClient._retry cfg = false ->
  is_Some (Session.usable_refresh_token w) ->
  let r := ApiClient.dispatch Lockout.always_unauthorized fuel cfg w in
  fst r = ApiClient.Pending
  /\ length (ApiClient.sent (snd r)) = (length (ApiClient.sent w) + fuel)%nat
  /\ ApiClient.tokens (snd r) = ApiClient.tokens w.
Proof.
  revert cfg w. induction fuel as [|f IH]; intros cfg w Hflag Htoken r.
  - unfold r. simpl. repeat split. lia.
  - unfold r. rewrite dispatch_step.
    unfold Lockout.always_unauthorized at 1. simpl ApiClient.status_ok.
    cbv iota. unfold ApiClient.on_rejected_with, ApiClient.wants_retry.
    rewrite add_auth_retry, Hflag. simpl andb. cbv iota.
    unfold ApiClient.refreshToken_with.
    change (ApiClient.tokens
              (ApiClient.put_on_wire (ApiClient.add_auth w cfg) w))
      with (ApiClient.tokens w).
    unfold Session.usable_refresh_token in Htoken.
    destruct Htoken as [token Htoken]. rewrite Htoken.
    unfold ApiClient.new_request.
    set (cfgR := ApiClient.mkConfig _ ApiClient.POST "/auth/refresh" _ None
                   false).
    set (wR := ApiClient.mkWorld _ _ _ _ _).
    assert (HtokenR : is_Some (Session.usable_refresh_token wR)).
    { unfold Session.usable_refresh_token. simpl. rewrite Htoken.
      now eexists. }
    destruct (IH cfgR wR eq_refl HtokenR) as (Hpending & Hsent & Htokens).
    destruct (ApiClient.dispatch Lockout.always_unauthorized f cfgR wR)
      as [[body|e|] w2]; simpl in *; try discriminate.
    split; [reflexivity|]. split; [|exact Htokens].
    rewrite Hsent, length_app. simpl. lia.
Qed.

Lemma refresh_storm_never_settles_witness :
  ApiClient._retry Examples.modules_request = false
  /\ is_Some (Session.usable_refresh_token Examples.signed_in)
  /\ fst (ApiClient.dispatch Lockout.always_unauthorized 25
            Examples.modules_request Examples.signed_in)
     = ApiClient.Pending.
Proof.
  assert (Htoken : is_Some (Session.usable_refresh_token Examples.signed_in))
    by (exists "refresh-1"; reflexivity).
  split; [reflexivity|]. split; [exact Htoken|].
  exact (proj1 (refresh_storm_never_settles 25 Examples.modules_request
                  Examples.signed_in eq_refl Htoken)).
Defined.

(** ** The editor on the client, with and without an answer *)


